(** * Training helpers and model factory: a shallow embedding

    The embedded sources are [modules/tf_helper/tf_utils.py] and the head of
    [training/models.py].  Python objects that the helpers mutate in place
    (the [tf.Variable]s behind [model.weights] and behind an optimizer) live
    in one store, addressed by reference, so that two models sharing a
    variable really share it.  Files, printed lines and the global
    mixed-precision policy are the remaining parts of the world. *)

From Stdlib Require Import QArith Qminmax Qround Qabs Lqa.
From stdpp Require Import base gmap list strings.

(** ** Tensors, variables, files *)

(** A tensor: its static shape and its entries in row-major order.  An entry
    is the value of a finite floating-point number, hence a rational (NaN and
    the infinities are outside the model).  The helpers copy, compare and
    select entries; the one place where a number is rounded is the
    conversion of a Python float to the dtype of a tensor, which
    [tf.clip_by_value] applies to its bounds. *)
Record Tensor := mkTensor { shape : list nat; data : list Q }.

(** A [tf.Variable]: an immutable name and a mutable value. *)
Record TfVariable := mkVar { name : string; value : Tensor }.

(** References to variables are positions in the store. *)
Abbreviation ref := nat.

Inductive File :=
| H5Weights (ws : list Tensor)   (* model.save_weights(path, save_format="h5") *)
| Pickled (ws : list Tensor).    (* pickle.dump(optimizer.get_weights(), f) *)

Inductive Exn :=
| NameError (precision : Z)
| NotImplementedError (alias : string)
| ValueError
| AttributeError
| AssertionError
| FileNotFoundError  (* a subclass of OSError *)
| OSError
| NotFoundError      (* tf.errors.NotFoundError, which is no OSError *)
| UnpicklingError
| InvalidReference.  (* no Python exception: a reference outside the store *)

(** What the helpers print, one constructor per format string. *)
Inductive Line :=
| SettingPrecision (precision : Z)
| WarningSkipping (nm : string) (s1 s2 : list nat)
| InfoReset (skipped : nat) (skip_keyword : option string)
| WarningEmptyOptimizer
| ExceptionText (e : Exn).

(** A completed call of [save_model] or [save_optimizer] made by the
    checkpointing callback, recorded with the epoch key that triggered it.
    The source keeps the paths only ([created_model_ckp],
    [created_optim_ckp]); the key is recorded here so that the saves of one
    key can be counted even when two keys share a path. *)
Inductive SaveCall :=
| SavedModel (key : Z) (path : string)
| SavedOptimizer (key : Z) (path : string).

Record World := mkWorld {
  vars : list TfVariable;
  files : gmap string File;
  dirs : gset string;
  stdout : list Line;
  policy : option string;
  saves : list SaveCall
}.

Definition with_vars (f : list TfVariable → list TfVariable) (w : World) : World :=
  mkWorld (f (vars w)) (files w) (dirs w) (stdout w) (policy w) (saves w).
Definition with_files (f : gmap string File → gmap string File) (w : World) : World :=
  mkWorld (vars w) (f (files w)) (dirs w) (stdout w) (policy w) (saves w).
Definition with_dirs (f : gset string → gset string) (w : World) : World :=
  mkWorld (vars w) (files w) (f (dirs w)) (stdout w) (policy w) (saves w).
Definition with_stdout (f : list Line → list Line) (w : World) : World :=
  mkWorld (vars w) (files w) (dirs w) (f (stdout w)) (policy w) (saves w).
Definition with_policy (p : option string) (w : World) : World :=
  mkWorld (vars w) (files w) (dirs w) (stdout w) p (saves w).
Definition with_saves (f : list SaveCall → list SaveCall) (w : World) : World :=
  mkWorld (vars w) (files w) (dirs w) (stdout w) (policy w) (f (saves w)).

(** ** State and exceptions

    A Python call either returns or raises; what it changed before raising
    stays changed. *)
Inductive Result (A : Type) :=
| Ok (a : A)
| Raise (e : Exn).
Arguments Ok {A} a.
Arguments Raise {A} e.

Definition M (A : Type) : Type := World → Result A * World.

Definition ret {A} (a : A) : M A := λ w, (Ok a, w).
Definition raise {A} (e : Exn) : M A := λ w, (Raise e, w).
Definition bind {A B} (m : M A) (k : A → M B) : M B :=
  λ w, match m w with
       | (Ok a, w') => k a w'
       | (Raise e, w') => (Raise e, w')
       end.
Definition modify (f : World → World) : M unit := λ w, (Ok tt, f w).

(** [try: m  except ValueError as e: handler e] *)
Definition try_except_ValueError {A} (m : M A) (handler : Exn → M A) : M A :=
  λ w, match m w with
       | (Raise ValueError, w') => handler ValueError w'
       | r => r
       end.

Notation "'let*' x ':=' m 'in' k" := (bind m (λ x, k))
  (at level 10, x pattern, m at level 100, k at level 200).
Notation "m '>>' k" := (bind m (λ _, k))
  (at level 90, right associativity).

(** [for x in l: body x] *)
Fixpoint for_each {A} (body : A → M unit) (l : list A) : M unit :=
  match l with
  | [] => ret tt
  | x :: l' => body x >> for_each body l'
  end.

(** [for x in l: s = body s x] *)
Fixpoint fold_each {A S} (body : S → A → M S) (l : list A) (s : S) : M S :=
  match l with
  | [] => ret s
  | x :: l' => let* s' := body s x in fold_each body l' s'
  end.

(** [[f x for x in l]] *)
Fixpoint map_each {A B} (f : A → M B) (l : list A) : M (list B) :=
  match l with
  | [] => ret []
  | x :: l' => let* y := f x in let* ys := map_each f l' in ret (y :: ys)
  end.

Definition print (l : Line) : M unit := modify (with_stdout (λ o, o ++ [l])).

(** ** The framework's primitives on variables *)

Definition read_var (r : ref) : M TfVariable :=
  λ w, match vars w !! r with
       | Some v => (Ok v, w)
       | None => (Raise InvalidReference, w)
       end.

(** [tf.Variable.assign]: the new value must have the variable's shape. *)
Definition assign (r : ref) (t : Tensor) : M unit :=
  let* v := read_var r in
  if decide (shape (value v) = shape t)
  then modify (with_vars (alter (λ v, mkVar (name v) t) r))
  else raise ValueError.

(** ** Models, optimizers and the framework's operations on them *)

(** The classes of optimizers, as far as [set_weights] tells them apart:
    [Adam] and [RMSprop] override the method of the base class, every other
    class inherits it. *)
Inductive OptimizerClass :=
| Adam
| RMSprop
| OtherOptimizer.

(** An optimizer is known through its class and the variables behind
    [optimizer.weights]. *)
Record Optimizer := mkOptimizer { opt_class : OptimizerClass; opt_weights : list ref }.

(** A model is known through [model.weights], in the framework's order, and
    through [model.optimizer] ([None] until the model is compiled). *)
Record Model := mkModel { weights : list ref; optimizer : option Optimizer }.

(** [x] for a [tf.Variable], a [tf.Tensor] or a [numpy] array: only the first
    has an [assign] method. *)
Inductive Array :=
| Var (r : ref)
| Const (t : Tensor).

Definition tensor_of (a : Array) : M Tensor :=
  match a with
  | Var r => let* v := read_var r in ret (value v)
  | Const t => ret t
  end.

(** ** Floating-point formats

    Rounding to the nearest integer, ties to the even one. *)
Definition round_half_even (x : Q) : Z :=
  let f := Qfloor x in
  match (x - inject_Z f ?= 1 # 2)%Q with
  | Lt => f
  | Gt => (f + 1)%Z
  | Eq => if Z.even f then f else (f + 1)%Z
  end.

(** The value of [x] rounded to a binary format with [prec] bits of
    precision whose smallest positive number is [2 ^ emin]: the nearest
    number of the format, ties to even.  Numbers beyond the largest finite
    one of the format become infinite and are outside the model. *)
Definition round_to_format (prec emin : Z) (x : Q) : Q :=
  if Qeq_bool x 0 then 0%Q
  else
    let a := Qabs x in
    let e0 := (Z.log2 (Qnum a) - Z.log2 (Zpos (Qden a)))%Z in
    let e1 := if Qle_bool (2 ^ e0) a then e0 else (e0 - 1)%Z in
    let e := Z.max (e1 - prec + 1) emin in
    let m := round_half_even (a / 2 ^ e) in
    let r := (inject_Z m * 2 ^ e)%Q in
    Qred (if Qle_bool 0 x then r else - r).

(** The dtypes of [set_precision]'s policies, as conversions of a Python
    float.  A Python float is a [float64] already. *)
Definition float16 : Q → Q := round_to_format 11 (-24).
Definition float32 : Q → Q := round_to_format 24 (-149).
Definition float64 : Q → Q := λ x, x.

(** [saving_utils.is_hdf5_filepath]: the three suffixes by which the
    framework knows an h5 file. *)
Definition ends_with (suffix s : string) : bool :=
  String.prefix (String.rev suffix) (String.rev s).

Definition is_hdf5_filepath (filepath : string) : bool :=
  ends_with ".h5" filepath || ends_with ".keras" filepath || ends_with ".hdf5" filepath.

Section Framework.

Set Default Proof Using "Type".

(** The weight initialisers: the entries given to the variable created at
    reference [r] with shape [sh]. *)
Variable initializer : ref → list nat → list Q.

(** Creating a variable: it takes the next free reference. *)
Definition new_variable (nm : string) (sh : list nat) : M ref :=
  λ w, let r := length (vars w) in
       (Ok r, with_vars (λ vs, vs ++ [mkVar nm (mkTensor sh (initializer r sh))]) w).

(** [tf.keras.models.clone_model]: the same architecture over newly created,
    newly initialised variables; the clone is not compiled. *)
Definition keras_clone_model (m : Model) : M Model :=
  let* rs := map_each (λ r, let* v := read_var r in
                            new_variable (name v) (shape (value v)))
                      (weights m) in
  ret (mkModel rs None).

(** [model.load_weights(path)].  An h5 file is read whatever its name.  A
    path without a file is opened as an h5 file when it has one of the h5
    suffixes, which raises [FileNotFoundError], a subclass of [OSError]; any
    other such path is first tried as a TensorFlow checkpoint, which raises
    [tf.errors.NotFoundError].  A file that is no h5 file cannot be opened
    as one. *)
Definition load_weights (m : Model) (path : string) : M unit :=
  λ w, match files w !! path with
       | Some (H5Weights ts) =>
           if decide (length ts = length (weights m))
           then for_each (λ p, assign p.1 p.2) (zip (weights m) ts) w
           else (Raise ValueError, w)
       | Some (Pickled _) => (Raise OSError, w)
       | None =>
           if is_hdf5_filepath path
           then (Raise FileNotFoundError, w)
           else (Raise NotFoundError, w)
       end.

(** [model.save_weights(path, save_format="h5")] *)
Definition save_weights (m : Model) (path : string) : M unit :=
  let* ts := map_each (λ r, let* v := read_var r in ret (value v)) (weights m) in
  modify (with_files (<[path := H5Weights ts]>)).

(** [optimizer.get_weights()] *)
Definition get_weights (o : Optimizer) : M (list Tensor) :=
  map_each (λ r, let* v := read_var r in ret (value v)) (opt_weights o).

(** [OptimizerV2.set_weights(weights)]: the base class compares the number
    of weights, then every shape, and only then assigns. *)
Definition base_set_weights (o : Optimizer) (ws : list Tensor) : M unit :=
  if decide (length (opt_weights o) = length ws) then
    let* param_values := get_weights o in
    if decide (shape <$> param_values = shape <$> ws)
    then for_each (λ p, assign p.1 p.2) (zip (opt_weights o) ws)
    else raise ValueError
  else raise ValueError.

(** What the overriding classes do to the list before they hand it to the
    base class.  [Adam] takes a list of [3 * num_vars + 1] tensors for the
    state of a version-1 optimizer and cuts it to the length of its own
    weights, where [num_vars = int((len(params) - 1) / 2)]; [RMSprop] puts
    an iteration count of zero before a list that is one short. *)
Definition state_for (o : Optimizer) (ws : list Tensor) : list Tensor :=
  let params := opt_weights o in
  match opt_class o with
  | Adam =>
      let num_vars := Z.to_nat (Z.quot (Z.of_nat (length params) - 1) 2) in
      if decide (length ws = 3 * num_vars + 1) then take (length params) ws else ws
  | RMSprop =>
      if decide (length params = length ws + 1) then mkTensor [] [0%Q] :: ws else ws
  | OtherOptimizer => ws
  end.

(** [optimizer.set_weights(weights)] *)
Definition set_weights (o : Optimizer) (ws : list Tensor) : M unit :=
  base_set_weights o (state_for o ws).

(** [pickle.dump(ws, open(path, 'wb'))] and [pickle.load(open(path, 'rb'))] *)
Definition pickle_dump (ws : list Tensor) (path : string) : M unit :=
  modify (with_files (<[path := Pickled ws]>)).

Definition pickle_load (path : string) : M (list Tensor) :=
  λ w, match files w !! path with
       | Some (Pickled ws) => (Ok ws, w)
       | Some (H5Weights _) => (Raise UnpicklingError, w)
       | None => (Raise FileNotFoundError, w)
       end.

(** [os.path.dirname]: everything up to the last slash, without trailing
    slashes unless it consists of slashes only. *)
Definition is_slash (c : Ascii.ascii) : bool := Ascii.eqb c (Ascii.ascii_of_nat 47).

Fixpoint drop_while {A} (p : A → bool) (l : list A) : list A :=
  match l with
  | [] => []
  | x :: l' => if p x then drop_while p l' else l
  end.

Definition dirname (path : string) : string :=
  let head := drop_while (λ c, negb (is_slash c)) (rev (String.list_ascii_of_string path)) in
  String.string_of_list_ascii
    (rev (if forallb is_slash head then head else drop_while is_slash head)).

(** [os.makedirs(dirpath, exist_ok=True)] *)
Definition makedirs (dirpath : string) : M unit :=
  modify (with_dirs (λ ds, {[dirpath]} ∪ ds)).
(** ** modules/tf_helper/tf_utils.py *)

Definition set_policy (p : string) : M unit := modify (with_policy (Some p)).

Definition set_precision (precision : Z) : M unit :=
  print (SettingPrecision precision) >>
  let* policy :=
    if decide (precision = 16%Z) then ret "mixed_float16"
    else if decide (precision = 32%Z) then ret "float32"
    else if decide (precision = 64%Z) then ret "float64"
    else raise (NameError precision) in
  set_policy policy.

Definition set_all_weights_from_model (model source_model : Model) : M unit :=
  for_each (λ p,
      let* w1 := read_var p.1 in
      let* w2 := read_var p.2 in
      if decide (shape (value w1) = shape (value w2))
      then assign p.1 (value w2)
      else print (WarningSkipping (name w1) (shape (value w1)) (shape (value w2))))
    (zip (weights model) (weights source_model)).

Definition clone_model (model : Model) : M Model :=
  let* new_model := keras_clone_model model in
  set_all_weights_from_model new_model model >>
  ret new_model.

(** [kw in s] on Python strings. *)
Fixpoint contains (kw s : string) : bool :=
  String.prefix kw s ||
  match s with
  | EmptyString => false
  | String _ s' => contains kw s'
  end.

(** Truth value of a string: false for the empty one. *)
Definition nonempty (s : string) : bool := negb (String.eqb s "").

(** [skip_keyword and skip_keyword in w1.name] *)
Definition skips (skip_keyword : option string) (nm : string) : bool :=
  match skip_keyword with
  | Some kw => nonempty kw && contains kw nm
  | None => false
  end.

Definition reset_weights_to_checkpoint
    (model : Model) (ckp skip_keyword : option string) : M nat :=
  let* temp := keras_clone_model model in
  match ckp with
  | Some path => if nonempty path then load_weights temp path else ret tt
  | None => ret tt
  end >>
  let* skipped :=
    fold_each (λ skipped p,
        let* w1 := read_var p.1 in
        if skips skip_keyword (name w1) then ret (S skipped)
        else
          let* w2 := read_var p.2 in
          assign p.1 (value w2) >>
          ret skipped)
      (zip (weights model) (weights temp)) 0 in
  print (InfoReset skipped skip_keyword) >>
  ret skipped.

(** The tensors of a run have one dtype; [cast x] is the Python float [x]
    converted to it ([float32] for the weights of a model under the default
    policy). *)
Variable cast : Q → Q.

(** [tf.clip_by_value]: the bounds are converted to the dtype of the
    tensor; then, entry by entry, the minimum with the upper bound and the
    maximum of that with the lower one. *)
Definition clip_entry (clip_value_min clip_value_max x : Q) : Q :=
  Qmax (Qmin x clip_value_max) clip_value_min.

Definition clip_by_value (t : Tensor) (clip_value_min clip_value_max : Q) : Tensor :=
  mkTensor (shape t) (clip_entry (cast clip_value_min) (cast clip_value_max) <$> data t).

Definition clip_many (values : list Array) (clip_at : Q) (clip_from : option Q)
    (inplace : bool) : M (option (list Tensor)) :=
  let clip_from := default (- clip_at)%Q clip_from in
  if inplace then
    for_each (λ v,
        match v with
        | Var r =>
            let* t := tensor_of v in
            assign r (clip_by_value t clip_from clip_at)
        | Const _ => raise AttributeError
        end) values >>
    ret None
  else
    let* r :=
      fold_each (λ r v,
          let* t := tensor_of v in
          ret (r ++ [clip_by_value t clip_from clip_at])) values [] in
    ret (Some r).

Definition save_optimizer (optimizer : option Optimizer) (path : string) : M unit :=
  let dirpath := dirname path in
  (if nonempty dirpath then makedirs dirpath else ret tt) >>
  let* weights :=
    match optimizer with
    | Some o => get_weights o
    | None => raise AttributeError
    end in
  pickle_dump weights path.

Definition save_model (model : option Model) (path : string) : M unit :=
  let dirpath := dirname path in
  (if nonempty dirpath then makedirs dirpath else ret tt) >>
  match model with
  | Some m => save_weights m path
  | None => raise AttributeError
  end.

Definition update_optimizer (optimizer : Optimizer) (path : string) : M unit :=
  let* weights := pickle_load path in
  try_except_ValueError (set_weights optimizer weights)
    (λ e, print WarningEmptyOptimizer >> print (ExceptionText e)).

Record CheckpointAfterEpoch := mkCallback {
  epoch2path : gmap Z string;
  epoch2path_optim : gmap Z string;
  created_model_ckp : list string;
  created_optim_ckp : list string;
  model : option Model
}.

Definition CheckpointAfterEpoch_init (epoch2path epoch2path_optim : gmap Z string)
    : CheckpointAfterEpoch :=
  mkCallback epoch2path epoch2path_optim [] [] None.

(** The framework's [Callback.set_model], called before training starts. *)
Definition set_model (self : CheckpointAfterEpoch) (m : Model) : CheckpointAfterEpoch :=
  mkCallback (epoch2path self) (epoch2path_optim self)
    (created_model_ckp self) (created_optim_ckp self) (Some m).

Definition record_save (c : SaveCall) : M unit := modify (with_saves (λ l, l ++ [c])).

Definition on_epoch_end (self : CheckpointAfterEpoch) (epoch : Z) : M CheckpointAfterEpoch :=
  let next_epoch := (epoch + 1)%Z in
  let* self :=
    match epoch2path self !! next_epoch with
    | Some path =>
        save_model (model self) path >>
        record_save (SavedModel next_epoch path) >>
        ret (mkCallback (epoch2path self) (epoch2path_optim self)
               (created_model_ckp self ++ [path]) (created_optim_ckp self) (model self))
    | None => ret self
    end in
  match epoch2path_optim self !! next_epoch with
  | Some path =>
      let* m := match model self with Some m => ret m | None => raise AttributeError end in
      save_optimizer (optimizer m) path >>
      record_save (SavedOptimizer next_epoch path) >>
      ret (mkCallback (epoch2path self) (epoch2path_optim self)
             (created_model_ckp self) (created_optim_ckp self ++ [path]) (model self))
  | None => ret self
  end.

Inductive Loss :=
| SparseCategoricalCrossentropy (from_logits : bool).

Definition get_loss_fn_from_alias (alias : string) : M Loss :=
  if String.eqb alias "crossentropy"
  then ret (SparseCategoricalCrossentropy true)
  else raise (NotImplementedError alias).

(** The framework's training loop, as far as the callback sees it: epoch
    [epoch] trains (what training does to each variable is [train_epoch]) and
    then calls the hook with the epoch's index. *)
Variable train_epoch : Z → TfVariable → TfVariable.

Fixpoint run_epochs (cb : CheckpointAfterEpoch) (epoch : Z) (n : nat)
    : M CheckpointAfterEpoch :=
  match n with
  | O => ret cb
  | S n' =>
      modify (with_vars (fmap (train_epoch epoch))) >>
      let* cb' := on_epoch_end cb epoch in
      run_epochs cb' (epoch + 1)%Z n'
  end.

Definition fit (cb : CheckpointAfterEpoch) (epochs : nat) : M CheckpointAfterEpoch :=
  run_epochs cb 0%Z epochs.

(** ** training/models.py: how [ResNetStiff] settles its configuration *)

(** [n_classes]: one class count, or an ordered sequence of them. *)
Inductive Classes :=
| OneHead (n : Z)
| ManyHeads (ns : list Z).

(** [features]: a tuple of widths; the ['WRN-16-8'] branch wraps the tuple
    in another one. *)
Inductive Features :=
| Widths (fs : list Z)
| Wrapped (fs : list Z).

(** Lines 84 to 215: the graph is assembled from framework layers once the
    configuration is settled; the remaining keyword arguments of
    [ResNetStiff] are read there only. *)
Variable build_graph : list Z → Classes → Z → Features → M Model.

Definition ResNetStiff (dataset alias : option string) (input_shape : option (list Z))
    (n_classes : option Classes) (features : Features) (BLOCKS_IN_GROUP : Z) : M Model :=
  let* cfg :=
    if bool_decide (dataset = Some "cifar" ∨ dataset = Some "cifar10")
    then ret ([32; 32; 3]%Z, OneHead 10)
    else if bool_decide (dataset = Some "cifar100")
    then ret ([32; 32; 3]%Z, OneHead 100)
    else if bool_decide (dataset = Some "mnist")
    then ret ([28; 28; 1]%Z, OneHead 10)
    else
      match input_shape with
      | None => raise AssertionError
      | Some sh =>
          match n_classes with
          | None => raise AssertionError
          | Some n => ret (sh, n)
          end
      end in
  let* arch :=
    if bool_decide (alias = Some "WRN-16-8") then
      let N := 16%Z in
      let K := 8%Z in
      if bool_decide (((N - 4) `mod` 6)%Z = 0%Z)
      then ret ((N - 4) / 6, Wrapped [16 * K; 32 * K; 64 * K])%Z
      else raise AssertionError
    else ret (BLOCKS_IN_GROUP, features) in
  build_graph cfg.1 cfg.2 arch.1 arch.2.

(** ** modules/tf_helper/tf_utils.py: the helpers that only read *)

(** [CheckpointAfterEpoch.list_created_checkpoints]: the lines it prints, in
    order. *)
Definition list_created_checkpoints (self : CheckpointAfterEpoch) : list string :=
  ["CREATED MODEL CHECKPOINTS:"] ++ created_model_ckp self ++
  ["CREATED OPTIM CHECKPOINTS:"] ++ created_optim_ckp self.

(** [x.flatten()]: the entries as one vector. *)
Definition flatten (t : Tensor) : Tensor := mkTensor [length (data t)] (data t).

(** [np.concatenate(vectors, axis=0)]: it needs at least one vector. *)
Definition np_concatenate (ts : list Tensor) : M Tensor :=
  match ts with
  | [] => raise ValueError
  | _ :: _ =>
      let entries := concat (data <$> ts) in
      ret (mkTensor [length entries] entries)
  end.

(** Both branches of the comprehension read the array's entries and flatten
    them: [x.flatten()] for a numpy array, [x.numpy().flatten()] otherwise. *)
Definition concatenate_flattened (arrays : list Array) : M Tensor :=
  let* flat := map_each (λ x, let* t := tensor_of x in ret (flatten t)) arrays in
  np_concatenate flat.

(** A layer as the helpers look at it: the classes it is an instance of, the
    variable behind [layer.kernel] when the layer has one, and the
    attributes [bias], [beta] and [gamma], each of which may be missing,
    [None], or a variable. *)
Inductive Attribute :=
| Missing
| IsNone
| Holds (r : ref).

Record Layer := mkLayer {
  is_Dense : bool;
  is_Conv2D : bool;
  is_BatchNormalization : bool;
  is_Dropout : bool;
  kernel : option ref;
  bias : Attribute;
  beta : Attribute;
  gamma : Attribute
}.

(** [model.layers] and [model.trainable_weights]. *)
Record LayeredModel := mkLayered {
  layers : list Layer;
  trainable_weights : list ref
}.

Definition get_kernels (model : LayeredModel) : list ref :=
  omap kernel (layers model).

(** What [print_model_info] prints, one constructor per format string; the
    percentages of the last line are computed from the counts it carries. *)
Inductive InfoLine :=
| ModelInfo
| LayerCounts (layer_counts : list (string * nat))
| TrainableWeights (trainable_w : nat)
| Shares (kernels biases bn trainable_w : nat).

(** How [print_model_info] ends: it returns, or it raises
    [ZeroDivisionError] while formatting its last line. *)
Inductive InfoResult :=
| Printed (lines : list InfoLine)
| PrintedThenZeroDivisionError (lines : list InfoLine).

(** [shape.num_elements()] *)
Definition num_elements (sh : list nat) : nat := foldr Nat.mul 1 sh.

(** [layer_counts[key] += 1] on a [Counter], which keeps its keys in the
    order of their first use. *)
Definition count_up (key : string) (counts : list (string * nat)) : list (string * nat) :=
  if bool_decide (key ∈ counts.*1)
  then (λ kv, if String.eqb kv.1 key then (kv.1, S kv.2) else kv) <$> counts
  else counts ++ [(key, 1)].

Definition count_layer (counts : list (string * nat)) (layer : Layer) : list (string * nat) :=
  let counts := if is_Dense layer then count_up "Dense" counts else counts in
  let counts := if is_Conv2D layer then count_up "Conv2D" counts else counts in
  let counts := if is_BatchNormalization layer then count_up "BatchNorm" counts else counts in
  if is_Dropout layer then count_up "Dropout" counts else counts.

(** The elements of the variable at [r]; nothing for a reference outside
    the store. *)
Definition elements_of (vs : list TfVariable) (r : ref) : option nat :=
  (λ v, num_elements (shape (value v))) <$> vs !! r.

(** [hasattr(layer, a) and layer.a is not None]: then the attribute's
    elements are added, otherwise nothing is. *)
Definition attribute_elements (vs : list TfVariable) (a : Attribute) : option nat :=
  match a with
  | Holds r => elements_of vs r
  | Missing | IsNone => Some 0
  end.

Definition kernel_elements (vs : list TfVariable) (layer : Layer) : option nat :=
  match kernel layer with
  | Some r => elements_of vs r
  | None => Some 0
  end.

(** [print_model_info]: what it prints and how it ends, read off the store
    [vs]; nothing for a model with a reference outside the store. *)
Definition print_model_info (vs : list TfVariable) (model : LayeredModel)
    : option InfoResult :=
  let layer_counts := foldl count_layer [] (layers model) in
  trainable_w ← sum_list <$> mapM (elements_of vs) (trainable_weights model);
  bn ← sum_list <$> mapM (λ layer,
          b ← attribute_elements vs (beta layer);
          g ← attribute_elements vs (gamma layer);
          Some (b + g)) (layers model);
  biases ← sum_list <$> mapM (λ layer, attribute_elements vs (bias layer)) (layers model);
  kernels ← sum_list <$> mapM (kernel_elements vs) (layers model);
  let lines := [ModelInfo; LayerCounts layer_counts; TrainableWeights trainable_w] in
  Some (if decide (trainable_w = 0)
        then PrintedThenZeroDivisionError lines
        else Printed (lines ++ [Shares kernels biases bn trainable_w])).

(** The history of a training run: a dictionary from the name of a metric
    to its values, one per epoch, in the order of insertion. Iterating over
    it gives the keys in that order; [history[key]] gives the values of the
    first entry for [key] (a dictionary has one entry for each key). *)
Definition History := list (string * list Q).

Fixpoint history_lookup (history : History) (key : string) : option (list Q) :=
  match history with
  | [] => None
  | (k, xs) :: rest => if String.eqb k key then Some xs else history_lookup rest key
  end.

Inductive HistoryError :=
| KeyError (key : string)   (* history[key] for a missing key *)
| EmptySequence             (* ValueError: min() or max() of an empty list *)
| IndexError.               (* [-1] on an empty list *)

Definition and_then {E A B} (x : E + A) (k : A → E + B) : E + B :=
  match x with
  | inl e => inl e
  | inr a => k a
  end.

(** [history[key]] *)
Definition history_get (history : History) (key : string) : HistoryError + list Q :=
  match history_lookup history key with
  | Some xs => inr xs
  | None => inl (KeyError key)
  end.

(** [min(xs)] and [max(xs)]: the first of the smallest, respectively
    largest, entries. *)
Definition py_min (xs : list Q) : HistoryError + Q :=
  match xs with
  | [] => inl EmptySequence
  | x :: rest => inr (foldl (λ m y, if Qlt_le_dec y m then y else m) x rest)
  end.

Definition py_max (xs : list Q) : HistoryError + Q :=
  match xs with
  | [] => inl EmptySequence
  | x :: rest => inr (foldl (λ m y, if Qlt_le_dec m y then y else m) x rest)
  end.

(** [xs[-1]] *)
Definition py_last (xs : list Q) : HistoryError + Q :=
  match last xs with
  | Some x => inr x
  | None => inl IndexError
  end.

(** The attributes of the experiment that [log_from_history] reads or
    sets; [tensorboard_log] is [None] when the attribute is missing or
    [None]. *)
Record Experiment := mkExperiment {
  TIME : option string;
  ACC : option Q;
  FINAL_ACCU : option Q;
  VALID_LOSS : option Q;
  TRAIN_ACCU : option Q;
  TRAIN_LOSS : option Q;
  tensorboard_log : option string
}.

(** What is written through [tf.summary]. *)
Inductive Summary :=
| Scalar (logdir key : string) (value : Q) (step : nat)
| Text (logdir tag data : string) (step : nat).

(** What a successful call leaves: the experiment as updated (and
    returned), the best accuracy that was printed, the summaries written. *)
Record Logged := mkLogged {
  logged_exp : Experiment;
  printed_best_accuracy : Q;
  summaries : list Summary
}.

(** [for idx, value in enumerate(values): tf.summary.scalar(key, value, idx + 1)] *)
Definition scalars_of (logdir key : string) (values : list Q) : list Summary :=
  imap (λ idx value, Scalar logdir key value (idx + 1)) values.

(** [now] is [datetime.datetime.now().strftime(...)] and [str_exp] is [str]
    on experiments. *)
Definition log_from_history (now : string) (str_exp : Experiment → string)
    (history : History) (exp : Experiment) : HistoryError + Logged :=
  and_then (and_then (history_get history "val_loss") py_min) (λ min_loss,
  and_then (and_then (history_get history "val_accuracy") py_max) (λ max_acc,
  and_then (and_then (history_get history "val_accuracy") py_last) (λ final_acc,
  and_then (and_then (history_get history "loss") py_min) (λ min_tr_loss,
  and_then (and_then (history_get history "accuracy") py_max) (λ max_tr_acc,
  let exp' :=
    mkExperiment (Some now) (Some max_acc) (Some final_acc) (Some min_loss)
      (Some max_tr_acc) (Some min_tr_loss) (tensorboard_log exp) in
  let written :=
    match tensorboard_log exp with
    | Some logdir =>
        if nonempty logdir
        then flat_map (λ key, scalars_of logdir key (default [] (history_lookup history key)))
               history.*1
             ++ [Text logdir "experiment" (str_exp exp') 0]
        else []
    | None => []
    end in
  inr (mkLogged exp' max_acc written)))))).

(** ** The vocabulary of the statements *)

(** *** Stores and references *)

(** All references of [rs] point into the store. *)
Definition valid (vs : list TfVariable) (rs : list ref) : Prop :=
  Forall (λ r, r < length vs) rs.

(** What never changes in a variable: its name and its shape. *)
Definition signature (v : TfVariable) : string * list nat := (name v, shape (value v)).

(** *** The store after a loop of selective assignments *)

(** Both [set_all_weights_from_model] and [reset_weights_to_checkpoint] walk
    over pairs (destination, source) and, for the pairs that [sel] selects,
    give the destination the value of the source. *)
Definition copy_step (sel : TfVariable → TfVariable → bool)
    (vs : list TfVariable) (p : ref * ref) : list TfVariable :=
  match vs !! p.1, vs !! p.2 with
  | Some v1, Some v2 =>
      if sel v1 v2 then alter (λ v, mkVar (name v) (value v2)) p.1 vs else vs
  | _, _ => vs
  end.

Definition copy_pairs (sel : TfVariable → TfVariable → bool)
    (ps : list (ref * ref)) (vs : list TfVariable) : list TfVariable :=
  foldl (copy_step sel) vs ps.

(** *** [set_all_weights_from_model] as a loop of selective assignments *)

Definition same_shape (v1 v2 : TfVariable) : bool :=
  bool_decide (shape (value v1) = shape (value v2)).

(** The warnings of a walk over [ps]; they depend on names and shapes only. *)
Definition warnings (sg : list (string * list nat)) (ps : list (ref * ref)) : list Line :=
  flat_map (λ p,
      match sg !! p.1, sg !! p.2 with
      | Some s1, Some s2 =>
          if decide (s1.2 = s2.2) then [] else [WarningSkipping s1.1 s1.2 s2.2]
      | _, _ => []
      end) ps.

Definition assign_if_same_shape (p : ref * ref) : M unit :=
  let* w1 := read_var p.1 in
  let* w2 := read_var p.2 in
  if decide (shape (value w1) = shape (value w2))
  then assign p.1 (value w2)
  else print (WarningSkipping (name w1) (shape (value w1)) (shape (value w2))).

(** *** Cloning *)

Definition clone_variable (r : ref) : M ref :=
  let* v := read_var r in new_variable (name v) (shape (value v)).

(** Variables made from those behind [rs], the first of them at reference
    [n]: [mk] makes the new variable from its reference and its original. *)
Fixpoint build_vars (mk : ref → TfVariable → TfVariable)
    (vs : list TfVariable) (n : ref) (rs : list ref) : list TfVariable :=
  match rs with
  | [] => []
  | r :: rs' =>
      match vs !! r with
      | Some v => mk n v :: build_vars mk vs (S n) rs'
      | None => []
      end
  end.

(** What [tf.keras.models.clone_model] creates: same name, same shape, newly
    initialised entries. *)
Definition fresh_var (n : ref) (v : TfVariable) : TfVariable :=
  mkVar (name v) (mkTensor (shape (value v)) (initializer n (shape (value v)))).

Definition fresh_vars := build_vars fresh_var.

(** What [clone_model] ends with: copies of the originals. *)
Definition copied_vars (vs : list TfVariable) (rs : list ref) : list TfVariable :=
  build_vars (λ _ v, v) vs 0 rs.

(** The values behind [model.weights], in order. *)
Definition weight_values (w : World) (m : Model) : list (option Tensor) :=
  (λ r, value <$> vars w !! r) <$> weights m.

(** Two models are separate when the destination lists no variable twice
    and shares none with the source. *)
Definition separate (model source_model : Model) : Prop :=
  NoDup (weights model) ∧ ∀ r, r ∈ weights model → r ∉ weights source_model.

(** *** [reset_weights_to_checkpoint] *)

Definition reset_step (skip_keyword : option string) (skipped : nat) (p : ref * ref)
    : M nat :=
  let* w1 := read_var p.1 in
  if skips skip_keyword (name w1) then ret (S skipped)
  else
    let* w2 := read_var p.2 in
    assign p.1 (value w2) >>
    ret skipped.

(** The pairs that the loop does not skip. *)
Definition not_skipped (skip_keyword : option string) (v1 v2 : TfVariable) : bool :=
  negb (skips skip_keyword (name v1)).

(** How many of the references [rs] the loop skips, by the names in [sg]. *)
Definition skipped_ref (sg : list (string * list nat)) (skip_keyword : option string)
    (r : ref) : bool :=
  match sg !! r with
  | Some s => skips skip_keyword s.1
  | None => false
  end.

Definition skipped_count (sg : list (string * list nat)) (skip_keyword : option string)
    (rs : list ref) : nat :=
  length (List.filter (skipped_ref sg skip_keyword) rs).

(** A checkpoint fits a model when it has one tensor per weight, of the
    weight's shape. *)
Definition compatible (w : World) (m : Model) (ts : list Tensor) : Prop :=
  Forall2 (λ r t, ∃ v, vars w !! r = Some v ∧ shape (value v) = shape t) (weights m) ts.

(** A weight's name contains the keyword, when there is one. *)
Definition name_contains (skip_keyword : option string) (nm : string) : bool :=
  match skip_keyword with
  | Some kw => contains kw nm
  | None => false
  end.

(** The weights of [rs] whose name contains the keyword. *)
Definition named_with (w : World) (skip_keyword : option string) (rs : list ref)
    : list ref :=
  List.filter (λ r, match vars w !! r with
                    | Some v => name_contains skip_keyword (name v)
                    | None => false
                    end) rs.

(** *** [clip_many] *)

(** Every entry of [t] lies in the interval. *)
Definition within (lo hi : Q) (t : Tensor) : Prop :=
  Forall (λ x, (lo <= x)%Q ∧ (x <= hi)%Q) (data t).

(** [y] is [x] clipped to the interval: an entry inside it is kept, one
    below it becomes the lower bound, one above it the upper bound. *)
Definition clipped_entry (lo hi x y : Q) : Prop :=
  ((lo <= x)%Q ∧ (x <= hi)%Q ∧ y = x) ∨ ((x < lo)%Q ∧ y = lo) ∨ ((hi < x)%Q ∧ y = hi).

(** [t'] is [t] clipped to the interval: the same shape and, entry by
    entry, the clipped entry. *)
Definition clipped (lo hi : Q) (t t' : Tensor) : Prop :=
  shape t' = shape t ∧ Forall2 (clipped_entry lo hi) (data t) (data t').

(** Every entry of [t] is a value of the dtype: converting it changes
    nothing. *)
Definition representable (t : Tensor) : Prop :=
  Forall (λ x, (cast x == x)%Q) (data t).

(** What one in-place step does to the variable it visits. *)
Definition clip_var (lo hi : Q) (v : TfVariable) : TfVariable :=
  mkVar (name v) (clip_by_value (value v) lo hi).

(** The store after the in-place loop over the variables [rs]. *)
Definition clip_refs (lo hi : Q) (rs : list ref) (vs : list TfVariable) : list TfVariable :=
  foldl (λ vs r, alter (clip_var lo hi) r vs) vs rs.

(** The tensor behind an array, if its reference is in the store. *)
Definition array_value (vs : list TfVariable) (a : Array) : option Tensor :=
  match a with
  | Var r => value <$> vs !! r
  | Const t => Some t
  end.

Definition valid_arrays (vs : list TfVariable) (values : list Array) : Prop :=
  Forall (λ a, is_Some (array_value vs a)) values.

Fixpoint tensors_of (vs : list TfVariable) (values : list Array) : list Tensor :=
  match values with
  | [] => []
  | a :: rest =>
      match array_value vs a with
      | Some t => t :: tensors_of vs rest
      | None => []
      end
  end.

(** *** Optimizer state *)

(** The values behind references [rs], in order. *)
Definition values_at (vs : list TfVariable) (rs : list ref) : list Tensor :=
  value <$> copied_vars vs rs.

(** The optimizer rejects a state when the list, as the optimizer's class
    hands it to the base class, has another length than the optimizer's
    weights (an optimizer that was never applied has no weights at all) or
    holds a tensor of another shape. *)
Definition rejects (w : World) (o : Optimizer) (ws : list Tensor) : Prop :=
  length (opt_weights o) ≠ length (state_for o ws) ∨
  shape <$> values_at (vars w) (opt_weights o) ≠ shape <$> state_for o ws.

(** *** The checkpointing callback *)

(** The world once the directory of [path] exists. *)
Definition with_parent_dir (path : string) (w : World) : World :=
  if nonempty (dirname path)
  then with_dirs (λ ds, {[dirname path]} ∪ ds) w
  else w.

(** The callback is attached to a compiled model whose variables, and those
    of its optimizer, are in the store. *)
Definition attached (cb : CheckpointAfterEpoch) (vs : list TfVariable) : Prop :=
  ∃ m o, model cb = Some m ∧ optimizer m = Some o ∧
         valid vs (weights m) ∧ valid vs (opt_weights o).

(** The saves that the hook makes for the upcoming epoch [k]. *)
Definition epoch_saves (e2p e2p_optim : gmap Z string) (k : Z) : list SaveCall :=
  match e2p !! k with Some path => [SavedModel k path] | None => [] end ++
  match e2p_optim !! k with Some path => [SavedOptimizer k path] | None => [] end.

Definition model_paths (l : list SaveCall) : list string :=
  flat_map (λ c, match c with SavedModel _ p => [p] | SavedOptimizer _ _ => [] end) l.

Definition optimizer_paths (l : list SaveCall) : list string :=
  flat_map (λ c, match c with SavedOptimizer _ p => [p] | SavedModel _ _ => [] end) l.

(** The upcoming-epoch keys that the hook looks up during [n] epochs
    starting with epoch [epoch]. *)
Fixpoint hook_keys (epoch : Z) (n : nat) : list Z :=
  match n with
  | O => []
  | S n' => (epoch + 1)%Z :: hook_keys (epoch + 1) n'
  end.

Definition is_model_save (k : Z) (c : SaveCall) : bool :=
  match c with
  | SavedModel k' _ => bool_decide (k' = k)
  | SavedOptimizer _ _ => false
  end.

Definition is_optimizer_save (k : Z) (c : SaveCall) : bool :=
  match c with
  | SavedOptimizer k' _ => bool_decide (k' = k)
  | SavedModel _ _ => false
  end.

(** How many times the model, respectively the optimizer, was saved for
    key [k]. *)
Definition model_saves_for (k : Z) (l : list SaveCall) : nat :=
  length (List.filter (is_model_save k) l).

Definition optimizer_saves_for (k : Z) (l : list SaveCall) : nat :=
  length (List.filter (is_optimizer_save k) l).

(** *** A small world to run the helpers in *)

Definition tensor (sh : list nat) (xs : list Q) : Tensor := mkTensor sh xs.

(** An initialiser that fills a new variable with its own reference. *)
Definition init0 (r : ref) (sh : list nat) : list Q :=
  replicate (foldr Nat.mul 1 sh) (Z.of_nat r # 1)%Q.

(** A dense layer's kernel and bias, and the step counter of an optimizer;
    a checkpoint that fits the layer and a pickled optimizer state that does
    not fit the optimizer. *)
Definition w0 : World :=
  mkWorld
    [ mkVar "dense/kernel:0" (tensor [2] [3; -2]%Q);
      mkVar "dense/bias:0" (tensor [1] [1 # 2]%Q);
      mkVar "Adam/iter:0" (tensor [] [7]%Q) ]
    {[ "ckp/e1.h5" := H5Weights [tensor [2] [5; 6]%Q; tensor [1] [9]%Q];
       "opt.pkl" := Pickled [tensor [3] [0; 0; 0]%Q] ]}
    ∅ [] None [].

Definition adam : Optimizer := mkOptimizer Adam [2].
Definition m0 : Model := mkModel [0; 1] (Some adam).

(** Two models of different lengths with no variable in common. *)
Definition short_model : Model := mkModel [1] None.
Definition long_model : Model := mkModel [0; 2] None.

Definition cb0 : CheckpointAfterEpoch :=
  set_model (CheckpointAfterEpoch_init
               {[ 0%Z := "ckp/e0.h5"; 2%Z := "ckp/e2.h5"; 5%Z := "ckp/e5.h5" ]}
               {[ 1%Z := "opt/e1.pkl" ]}) m0.

Definition train0 (epoch : Z) (v : TfVariable) : TfVariable := v.

(** Two variables of one shape, and two models of different lengths: the
    second weight of the longer one is the only weight of the shorter. *)
Definition w_shared : World :=
  mkWorld
    [ mkVar "a/kernel:0" (tensor [2] [1; 2]%Q);
      mkVar "b/kernel:0" (tensor [2] [5; 6]%Q) ]
    ∅ ∅ [] None [].

Definition one_weight : Model := mkModel [0] None.
Definition two_weights : Model := mkModel [1; 0] None.

(** The Python float [0.1]. *)
Definition python_tenth : Q := 3602879701896397 # 36028797018963968.

Definition no_graph (input_shape : list Z) (n_classes : Classes)
    (BLOCKS_IN_GROUP : Z) (features : Features) : M Model :=
  ret (mkModel [] None).

(** *** Assigning a list of tensors *)

(** The store after [r.assign(t)] for each pair of [ps] in turn. *)
Definition write_step (vs : list TfVariable) (p : ref * Tensor) : list TfVariable :=
  alter (λ v, mkVar (name v) p.2) p.1 vs.

Definition write_all (ps : list (ref * Tensor)) (vs : list TfVariable) : list TfVariable :=
  foldl write_step vs ps.

(** The tensors [ts] fit the variables [rs]: one tensor per variable, of the
    variable's shape. *)
Definition fits (vs : list TfVariable) (rs : list ref) (ts : list Tensor) : Prop :=
  Forall2 (λ r t, ∃ v, vs !! r = Some v ∧ shape (value v) = shape t) rs ts.

(** *** Training runs *)

(** The store after [n] epochs of training that start with epoch [epoch]. *)
Fixpoint trained (epoch : Z) (n : nat) (vs : list TfVariable) : list TfVariable :=
  match n with
  | O => vs
  | S n' => trained (epoch + 1) n' (train_epoch epoch <$> vs)
  end.

(** The files after the hook has run for the upcoming epoch [k] on the store
    [vs]: the model's file first, the optimizer's second. *)
Definition hook_files (m : Model) (o : Optimizer) (e2p e2p_optim : gmap Z string)
    (vs : list TfVariable) (k : Z) (fs : gmap string File) : gmap string File :=
  let fs1 :=
    match e2p !! k with
    | Some path => <[path := H5Weights (values_at vs (weights m))]> fs
    | None => fs
    end in
  match e2p_optim !! k with
  | Some path => <[path := Pickled (values_at vs (opt_weights o))]> fs1
  | None => fs1
  end.

(** The files after [n] epochs, each trained and then followed by the hook. *)
Fixpoint run_files (m : Model) (o : Optimizer) (e2p e2p_optim : gmap Z string)
    (epoch : Z) (n : nat) (vs : list TfVariable) (fs : gmap string File)
    : gmap string File :=
  match n with
  | O => fs
  | S n' =>
      let vs1 := train_epoch epoch <$> vs in
      run_files m o e2p e2p_optim (epoch + 1) n' vs1
        (hook_files m o e2p e2p_optim vs1 (epoch + 1) fs)
  end.

(** *** Flattening *)

(** The entries of the arrays, one array after the other. *)
Definition all_entries (vs : list TfVariable) (values : list Array) : list Q :=
  concat (data <$> tensors_of vs values).

(** *** Layers *)

Definition attribute_valid (vs : list TfVariable) (a : Attribute) : Prop :=
  match a with
  | Holds r => r < length vs
  | Missing | IsNone => True
  end.

(** Every variable that the layers and the list of trainable weights refer
    to is in the store. *)
Definition layered_valid (vs : list TfVariable) (model : LayeredModel) : Prop :=
  valid vs (trainable_weights model) ∧
  valid vs (get_kernels model) ∧
  Forall (λ layer, attribute_valid vs (bias layer) ∧ attribute_valid vs (beta layer) ∧
                   attribute_valid vs (gamma layer)) (layers model).

(** *** Histories *)

(** The four metrics that [log_from_history] reads. *)
Definition read_metrics : list string := ["val_loss"; "val_accuracy"; "loss"; "accuracy"].

(** *** More of the small world *)

(** Training that adds the number of the epoch, counted from one, to every
    entry and keeps names and shapes. *)
Definition train1 (epoch : Z) (v : TfVariable) : TfVariable :=
  mkVar (name v)
    (mkTensor (shape (value v)) ((λ x, x + inject_Z (epoch + 1))%Q <$> data (value v))).

(** The world after one such epoch that no callback followed. *)
Definition after_training (w : World) : World :=
  mkWorld (train1 0 <$> vars w) (files w) (dirs w) (stdout w) (policy w) (saves w).

(** The small world with a pickled optimizer state that fits [adam]. *)
Definition w1 : World :=
  mkWorld (vars w0) {[ "opt/ok.pkl" := Pickled [tensor [] [9]%Q] ]} ∅ [] None [].

(** The dense layer of the small world followed by a dropout layer. *)
Definition dense_dropout : LayeredModel :=
  mkLayered
    [ mkLayer true false false false (Some 0) (Holds 1) Missing Missing;
      mkLayer false false false true None Missing Missing Missing ]
    [0; 1].

(** The history of a run of three epochs, and two experiments, one of them
    with a log for tensorboard. *)
Definition history0 : History :=
  [ ("loss", [3; 2; 1]%Q); ("accuracy", [1 # 2; 3 # 4; 3 # 4]%Q);
    ("val_loss", [4; 2; 3]%Q); ("val_accuracy", [1 # 2; 7 # 10; 3 # 5]%Q) ].

Definition exp0 : Experiment := mkExperiment None None None None None None None.
Definition exp1 : Experiment :=
  mkExperiment None None None None None None (Some "logs/run1").

Definition show_exp (exp : Experiment) : string := default "no time" (TIME exp).

(** ** Lemmas *)

(** *** Reasoning about runs *)

Lemma bind_ok {A B} (m : M A) (k : A → M B) w a w' :
  m w = (Ok a, w') → bind m k w = k a w'.
Proof. intros H. unfold bind. by rewrite H. Qed.

Lemma bind_raise {A B} (m : M A) (k : A → M B) w e w' :
  m w = (Raise e, w') → bind m k w = (Raise e, w').
Proof. intros H. unfold bind. by rewrite H. Qed.

Lemma bind_ret {A B} (a : A) (k : A → M B) w : bind (ret a) k w = k a w.
Proof. reflexivity. Qed.

Lemma bind_modify {B} f (k : unit → M B) w : bind (modify f) k w = k tt (f w).
Proof. reflexivity. Qed.

Lemma read_var_ok w r v : vars w !! r = Some v → read_var r w = (Ok v, w).
Proof. intros H. unfold read_var. by rewrite H. Qed.

Lemma assign_ok w r v t :
  vars w !! r = Some v → shape (value v) = shape t →
  assign r t w = (Ok tt, with_vars (alter (λ v, mkVar (name v) t) r) w).
Proof.
  intros Hv Hs. unfold assign. rewrite (bind_ok _ _ _ _ _ (read_var_ok _ _ _ Hv)).
  by rewrite decide_True.
Qed.

Lemma assign_mismatch w r v t :
  vars w !! r = Some v → shape (value v) ≠ shape t →
  assign r t w = (Raise ValueError, w).
Proof.
  intros Hv Hs. unfold assign. rewrite (bind_ok _ _ _ _ _ (read_var_ok _ _ _ Hv)).
  by rewrite decide_False.
Qed.

Lemma valid_lookup vs rs r : valid vs rs → r ∈ rs → is_Some (vs !! r).
Proof.
  intros Hv Hr. apply lookup_lt_is_Some.
  unfold valid in Hv. rewrite Forall_forall in Hv. by apply Hv.
Qed.

Lemma valid_same_length vs vs' rs : length vs' = length vs → valid vs rs → valid vs' rs.
Proof. intros Hl. unfold valid. by rewrite Hl. Qed.

Lemma signature_alter (vs : list TfVariable) (r : ref) t v :
  vs !! r = Some v → shape (value v) = shape t →
  signature <$> alter (λ v, mkVar (name v) t) r vs = signature <$> vs.
Proof.
  intros Hv Hs. apply list_eq. intros i. rewrite !list_lookup_fmap, list_lookup_alter.
  destruct (decide (r = i)) as [->|]; [|done].
  rewrite Hv. simpl. unfold signature. simpl. by rewrite Hs.
Qed.

Lemma signature_lookup (vs vs' : list TfVariable) (r : ref) v :
  signature <$> vs = signature <$> vs' → vs !! r = Some v →
  ∃ v', vs' !! r = Some v' ∧ name v' = name v ∧ shape (value v') = shape (value v).
Proof.
  intros Hs Hv. assert (H : (signature <$> vs') !! r = Some (signature v)).
  { rewrite <- Hs, list_lookup_fmap, Hv. done. }
  rewrite list_lookup_fmap in H. destruct (vs' !! r) as [v'|]; [|done].
  exists v'. simpl in H. unfold signature in H. by simplify_eq.
Qed.

(** *** The store after a loop of selective assignments *)

Lemma copy_step_length sel vs p : length (copy_step sel vs p) = length vs.
Proof.
  unfold copy_step. repeat case_match; try done. by rewrite length_alter.
Qed.

Lemma copy_pairs_length sel ps vs : length (copy_pairs sel ps vs) = length vs.
Proof.
  revert vs. induction ps as [|p ps IH]; intros vs; [done|].
  unfold copy_pairs in *. simpl. by rewrite IH, copy_step_length.
Qed.

Lemma copy_step_other sel vs p (r : ref) : r ≠ p.1 → copy_step sel vs p !! r = vs !! r.
Proof.
  intros Hr. unfold copy_step. repeat case_match; try done.
  by rewrite list_lookup_alter_ne.
Qed.

Lemma copy_pairs_other sel ps vs (r : ref) :
  r ∉ ps.*1 → copy_pairs sel ps vs !! r = vs !! r.
Proof.
  revert vs. induction ps as [|p ps IH]; intros vs Hr; [done|].
  rewrite fmap_cons, not_elem_of_cons in Hr. destruct Hr as [Hr1 Hr2].
  unfold copy_pairs in *. simpl. rewrite IH by done. by apply copy_step_other.
Qed.

Lemma copy_pairs_selected sel ps (vs : list TfVariable) (i : nat) (r1 r2 : ref) v1 v2 :
  NoDup ps.*1 → (∀ r, r ∈ ps.*1 → r ∉ ps.*2) →
  ps !! i = Some (r1, r2) → vs !! r1 = Some v1 → vs !! r2 = Some v2 →
  copy_pairs sel ps vs !! r1
  = Some (if sel v1 v2 then mkVar (name v1) (value v2) else v1).
Proof.
  revert vs i. induction ps as [|p ps IH]; intros vs i Hnd Hdisj Hi H1 H2; [done|].
  rewrite fmap_cons in Hnd. apply NoDup_cons in Hnd as [Hp Hnd].
  unfold copy_pairs in *. simpl. destruct i as [|i]; simpl in Hi.
  - simplify_eq. fold (copy_pairs sel ps (copy_step sel vs (r1, r2))).
    rewrite copy_pairs_other by done.
    unfold copy_step. simpl. rewrite H1, H2.
    destruct (sel v1 v2); [|done].
    rewrite list_lookup_alter, decide_True by done. by rewrite H1.
  - assert (Hin1 : r1 ∈ ps.*1).
    { apply list_elem_of_fmap. exists (r1, r2). split; [done|].
      by eapply list_elem_of_lookup_2. }
    assert (Hin2 : r2 ∈ ps.*2).
    { apply list_elem_of_fmap. exists (r1, r2). split; [done|].
      by eapply list_elem_of_lookup_2. }
    assert (Hne1 : r1 ≠ p.1) by (intros ->; done).
    assert (Hne2 : r2 ≠ p.1).
    { intros ->. apply (Hdisj p.1); rewrite !fmap_cons; [left|by right]. }
    eapply IH; [done| |done|by rewrite copy_step_other..].
    intros r Hr Hr'. apply (Hdisj r); rewrite fmap_cons; by right.
Qed.

(** *** [set_all_weights_from_model] as a loop of selective assignments *)

Lemma set_all_weights_from_model_unfold model source_model :
  set_all_weights_from_model model source_model
  = for_each assign_if_same_shape (zip (weights model) (weights source_model)).
Proof. reflexivity. Qed.

Lemma assign_if_same_shape_run ps w :
  valid (vars w) ps.*1 → valid (vars w) ps.*2 →
  for_each assign_if_same_shape ps w
  = (Ok tt, mkWorld (copy_pairs same_shape ps (vars w)) (files w) (dirs w)
              (stdout w ++ warnings (signature <$> vars w) ps) (policy w) (saves w)).
Proof.
  revert w. induction ps as [|[r1 r2] ps IH]; intros w Hv1 Hv2.
  { simpl. unfold ret. rewrite app_nil_r. by destruct w. }
  rewrite fmap_cons in Hv1, Hv2.
  apply Forall_cons in Hv1 as [Hr1 Hv1]. apply Forall_cons in Hv2 as [Hr2 Hv2].
  apply lookup_lt_is_Some in Hr1 as [v1 Hr1]. apply lookup_lt_is_Some in Hr2 as [v2 Hr2].
  simpl in Hr1, Hr2.
  assert (Hsg1 : (signature <$> vars w) !! r1 = Some (signature v1))
    by (by rewrite list_lookup_fmap, Hr1).
  assert (Hsg2 : (signature <$> vars w) !! r2 = Some (signature v2))
    by (by rewrite list_lookup_fmap, Hr2).
  cbn [for_each]. unfold assign_if_same_shape at 1. cbn [fst snd].
  rewrite (bind_ok _ _ w tt
    (if decide (shape (value v1) = shape (value v2))
     then with_vars (alter (λ v, mkVar (name v) (value v2)) r1) w
     else with_stdout (λ o, o ++ [WarningSkipping (name v1) (shape (value v1))
                                    (shape (value v2))]) w)).
  2:{ rewrite (bind_ok _ _ _ _ _ (read_var_ok _ _ _ Hr1)).
      rewrite (bind_ok _ _ _ _ _ (read_var_ok _ _ _ Hr2)).
      destruct (decide _) as [Hs|Hs]; [by apply (assign_ok _ _ v1)|done]. }
  unfold copy_pairs, warnings. cbn [foldl flat_map fst snd].
  unfold copy_step at 2. cbn [fst snd]. rewrite Hr1, Hr2, Hsg1, Hsg2.
  unfold same_shape, signature at 1 2 3. cbn [fst snd].
  destruct (decide (shape (value v1) = shape (value v2))) as [Hs|Hs].
  - rewrite bool_decide_eq_true_2 by done.
    rewrite IH; cbn [with_vars vars files dirs stdout policy saves].
    + by rewrite (signature_alter _ _ _ _ Hr1 Hs).
    + unfold valid. by rewrite length_alter.
    + unfold valid. by rewrite length_alter.
  - rewrite bool_decide_eq_false_2 by done.
    rewrite IH by done. cbn [with_stdout vars files dirs stdout policy saves].
    by rewrite <- app_assoc.
Qed.

(** *** Cloning *)

Lemma keras_clone_model_unfold m :
  keras_clone_model m
  = let* rs := map_each clone_variable (weights m) in ret (mkModel rs None).
Proof. reflexivity. Qed.

Lemma build_vars_app mk vs ext n rs :
  valid vs rs → build_vars mk (vs ++ ext) n rs = build_vars mk vs n rs.
Proof.
  revert n. induction rs as [|r rs IH]; intros n Hv; [done|].
  apply Forall_cons in Hv as [Hr Hv]. simpl.
  rewrite lookup_app_l by done. destruct (vs !! r); [|done]. by rewrite IH.
Qed.

Lemma build_vars_length mk vs n rs :
  valid vs rs → length (build_vars mk vs n rs) = length rs.
Proof.
  revert n. induction rs as [|r rs IH]; intros n Hv; [done|].
  apply Forall_cons in Hv as [Hr Hv]. simpl.
  apply lookup_lt_is_Some in Hr as [v ->]. simpl. by rewrite IH.
Qed.

Lemma build_vars_lookup mk vs n (rs : list ref) (i : nat) (r : ref) v :
  valid vs rs → rs !! i = Some r → vs !! r = Some v →
  build_vars mk vs n rs !! i = Some (mk (n + i) v).
Proof.
  revert n i. induction rs as [|r0 rs IH]; intros n i Hv Hi Hr; [done|].
  apply Forall_cons in Hv as [Hr0 Hv]. simpl.
  apply lookup_lt_is_Some in Hr0 as [v0 Hr0]. rewrite Hr0.
  destruct i as [|i]; simpl in *.
  - simplify_eq. by rewrite Nat.add_0_r.
  - rewrite (IH (S n) i Hv Hi Hr). by replace (n + S i) with (S n + i) by lia.
Qed.

Lemma clone_variables_run rs w :
  valid (vars w) rs →
  map_each clone_variable rs w
  = (Ok (seq (length (vars w)) (length rs)),
     with_vars (λ vs, vs ++ fresh_vars vs (length vs) rs) w).
Proof.
  revert w. induction rs as [|r rs IH]; intros w Hv.
  { simpl. unfold ret, with_vars. rewrite app_nil_r. by destruct w. }
  pose proof Hv as Hv'. apply Forall_cons in Hv' as [Hr Hv'].
  apply lookup_lt_is_Some in Hr as [v Hr].
  cbn [map_each]. unfold clone_variable at 1.
  rewrite (bind_ok _ _ w (length (vars w))
    (with_vars (λ vs, vs ++ [fresh_var (length (vars w)) v]) w)).
  2:{ by rewrite (bind_ok _ _ _ _ _ (read_var_ok _ _ _ Hr)). }
  assert (Hv1 : valid (vars (with_vars (λ vs, vs ++ [fresh_var (length (vars w)) v]) w)) rs).
  { unfold valid in *. cbn. rewrite length_app. eapply Forall_impl; [done|].
    cbn. intros; lia. }
  rewrite (bind_ok _ _ _ _ _ (IH _ Hv1)).
  unfold ret, with_vars, fresh_vars. cbn. rewrite Hr, length_app. cbn.
  rewrite build_vars_app by done. rewrite <- app_assoc. cbn.
  by rewrite Nat.add_1_r.
Qed.

Lemma keras_clone_model_run m w :
  valid (vars w) (weights m) →
  keras_clone_model m w
  = (Ok (mkModel (seq (length (vars w)) (length (weights m))) None),
     with_vars (λ vs, vs ++ fresh_vars vs (length vs) (weights m)) w).
Proof.
  intros Hv. rewrite keras_clone_model_unfold.
  by rewrite (bind_ok _ _ _ _ _ (clone_variables_run _ _ Hv)).
Qed.

Lemma warnings_nil sg ps :
  (∀ p s1 s2, p ∈ ps → sg !! p.1 = Some s1 → sg !! p.2 = Some s2 → s1.2 = s2.2) →
  warnings sg ps = [].
Proof.
  induction ps as [|p ps IH]; intros Hsame; [done|].
  unfold warnings in *. cbn [flat_map]. rewrite IH.
  - destruct (sg !! p.1) as [s1|] eqn:H1; [|done].
    destruct (sg !! p.2) as [s2|] eqn:H2; [|done].
    rewrite decide_True; [done|]. eapply (Hsame p); [left|done..].
  - intros p' s1 s2 Hp. apply Hsame. by right.
Qed.

Lemma zip_seq_lookup (n : nat) (rs : list ref) (i : nat) (r : ref) :
  rs !! i = Some r → zip (seq n (length rs)) rs !! i = Some (n + i, r).
Proof.
  intros Hi. apply lookup_zip_with_Some. exists (n + i), r. split; [done|].
  split; [|done]. apply lookup_seq. split; [done|]. by eapply lookup_lt_Some.
Qed.

Lemma zip_seq_elem (n : nat) (rs : list ref) p :
  p ∈ zip (seq n (length rs)) rs →
  ∃ i, rs !! i = Some p.2 ∧ p.1 = n + i.
Proof.
  intros Hp. apply list_elem_of_lookup in Hp as [i Hi].
  apply lookup_zip_with_Some in Hi as (x & r & -> & Hx & Hr).
  apply lookup_seq in Hx as [-> _]. by exists i.
Qed.

Lemma clone_model_run m w :
  valid (vars w) (weights m) →
  clone_model m w
  = (Ok (mkModel (seq (length (vars w)) (length (weights m))) None),
     with_vars (λ vs, vs ++ copied_vars vs (weights m)) w).
Proof.
  intros Hv. unfold clone_model.
  rewrite (bind_ok _ _ _ _ _ (keras_clone_model_run _ _ Hv)).
  rewrite set_all_weights_from_model_unfold. cbn [weights].
  set (n := length (vars w)). set (rs := weights m) in *.
  set (ps := zip (seq n (length rs)) rs).
  assert (Hps1 : ps.*1 = seq n (length rs)) by (apply fst_zip; by rewrite length_seq).
  assert (Hps2 : ps.*2 = rs) by (apply snd_zip; by rewrite length_seq).
  set (w1 := with_vars (λ vs, vs ++ fresh_vars vs (length vs) rs) w).
  assert (Hv1 : valid (vars w1) ps.*1).
  { rewrite Hps1. cbn. unfold valid. rewrite length_app.
    unfold fresh_vars. rewrite build_vars_length by done.
    apply Forall_forall. intros r Hr. apply elem_of_seq in Hr. fold n. lia. }
  assert (Hv2 : valid (vars w1) ps.*2).
  { rewrite Hps2. cbn. unfold valid. rewrite length_app.
    eapply Forall_impl; [exact Hv|]. cbn. intros; lia. }
  rewrite (bind_ok _ _ _ _ _ (assign_if_same_shape_run _ _ Hv1 Hv2)).
  subst w1.
  unfold ret, with_vars. cbn [vars files dirs stdout policy saves]. fold n rs.
  rewrite warnings_nil, app_nil_r.
  2:{ intros p s1 s2 Hp H1 H2. apply zip_seq_elem in Hp as (i & Hi & Hp1).
      destruct (valid_lookup _ _ p.2 Hv) as [v Hr]; [by eapply list_elem_of_lookup_2|].
      rewrite list_lookup_fmap, Hp1, lookup_app_r in H1 by (fold n; lia).
      replace (n + i - length (vars w)) with i in H1 by (fold n; lia).
      unfold fresh_vars in H1. rewrite (build_vars_lookup _ _ _ _ _ _ _ Hv Hi Hr) in H1.
      rewrite list_lookup_fmap, lookup_app_l in H2 by (by eapply lookup_lt_Some).
      rewrite Hr in H2. cbn in H1, H2. by simplify_eq. }
  do 2 f_equal. apply list_eq. intros j.
  destruct (decide (j < n)) as [Hj|Hj].
  - rewrite copy_pairs_other by (rewrite Hps1, elem_of_seq; lia).
    by rewrite !lookup_app_l.
  - rewrite (lookup_app_r (vars w)) by (fold n; lia). fold n.
    destruct (rs !! (j - n)) as [r|] eqn:Hi.
    + destruct (valid_lookup _ _ r Hv) as [v Hr]; [by eapply list_elem_of_lookup_2|].
      unfold copied_vars. rewrite (build_vars_lookup _ _ _ _ _ _ _ Hv Hi Hr).
      replace j with (n + (j - n)) at 1 by lia.
      rewrite (copy_pairs_selected _ ps _ (j - n) _ r (fresh_var (n + (j - n)) v) v).
      * unfold same_shape, fresh_var. cbn. rewrite bool_decide_eq_true_2 by done.
        by destruct v.
      * rewrite Hps1. apply NoDup_seq.
      * rewrite Hps1, Hps2. intros r' Hr1 Hr2. apply elem_of_seq in Hr1.
        unfold valid in Hv. rewrite Forall_forall in Hv. apply Hv in Hr2. fold n in Hr2. lia.
      * by apply zip_seq_lookup.
      * rewrite lookup_app_r by (fold n; lia). fold n.
        replace (n + (j - n) - n) with (j - n) by lia.
        unfold fresh_vars. by rewrite (build_vars_lookup _ _ _ _ _ _ _ Hv Hi Hr).
      * rewrite lookup_app_l by (by eapply lookup_lt_Some). done.
    + apply lookup_ge_None in Hi.
      trans (@None TfVariable); [|symmetry]; apply lookup_ge_None.
      * rewrite copy_pairs_length, length_app.
        unfold fresh_vars. rewrite build_vars_length by done. fold n. lia.
      * unfold copied_vars. by rewrite build_vars_length.
Qed.

Lemma zip_fst_take {A B} (l : list A) (k : list B) : (zip l k).*1 = take (length k) l.
Proof.
  revert k. induction l as [|x l IH]; intros [|y k]; cbn; try done.
  by rewrite IH.
Qed.

Lemma zip_snd_take {A B} (l : list A) (k : list B) : (zip l k).*2 = take (length l) k.
Proof.
  revert k. induction l as [|x l IH]; intros [|y k]; cbn; try done.
  by rewrite IH.
Qed.

Lemma valid_take vs n rs : valid vs rs → valid vs (take n rs).
Proof. apply Forall_take. Qed.

Lemma set_all_weights_from_model_run model source_model w :
  valid (vars w) (weights model) → valid (vars w) (weights source_model) →
  set_all_weights_from_model model source_model w
  = (Ok tt,
     mkWorld
       (copy_pairs same_shape (zip (weights model) (weights source_model)) (vars w))
       (files w) (dirs w)
       (stdout w ++ warnings (signature <$> vars w)
                      (zip (weights model) (weights source_model)))
       (policy w) (saves w)).
Proof.
  intros H1 H2. rewrite set_all_weights_from_model_unfold.
  apply assign_if_same_shape_run.
  - rewrite zip_fst_take. by apply valid_take.
  - rewrite zip_snd_take. by apply valid_take.
Qed.

Lemma clone_model_values m w :
  valid (vars w) (weights m) →
  ∃ m1 w1,
    clone_model m w = (Ok m1, w1) ∧
    valid (vars w1) (weights m1) ∧
    weight_values w1 m1 = weight_values w m ∧
    (∀ r : ref, r < length (vars w) → vars w1 !! r = vars w !! r) ∧
    stdout w1 = stdout w.
Proof.
  intros Hv. eexists _, _. split; [by apply clone_model_run|].
  cbn [weights with_vars vars stdout].
  assert (Hlen : length (copied_vars (vars w) (weights m)) = length (weights m))
    by (unfold copied_vars; by rewrite build_vars_length).
  split; [|split; [|split; [|done]]].
  - unfold valid. rewrite length_app, Hlen. apply Forall_forall.
    intros r Hr. apply elem_of_seq in Hr. lia.
  - unfold weight_values. cbn [weights vars]. apply list_eq. intros i.
    rewrite !list_lookup_fmap.
    destruct (weights m !! i) as [r|] eqn:Hi.
    + destruct (valid_lookup _ _ r Hv) as [v Hr]; [by eapply list_elem_of_lookup_2|].
      rewrite (proj2 (lookup_seq _ _ _ (length (vars w) + i))).
      2:{ split; [done|]. by eapply lookup_lt_Some. }
      cbn. rewrite lookup_app_r by lia.
      replace (length (vars w) + i - length (vars w)) with i by lia.
      unfold copied_vars. rewrite (build_vars_lookup _ _ _ _ _ _ _ Hv Hi Hr).
      by rewrite Hr.
    + apply lookup_ge_None in Hi. rewrite (proj2 (lookup_ge_None _ _)); [done|].
      by rewrite length_seq.
  - intros r Hr. by rewrite lookup_app_l.
Qed.

(** The clone, weight by weight. *)
Lemma clone_model_copy m w :
  valid (vars w) (weights m) →
  ∃ m1 w1,
    clone_model m w = (Ok m1, w1) ∧
    weights m1 = seq (length (vars w)) (length (weights m)) ∧
    length (vars w1) = length (vars w) + length (weights m) ∧
    (∀ (i : nat) (r : ref), weights m !! i = Some r →
       ∃ v, vars w !! r = Some v ∧ vars w1 !! (length (vars w) + i) = Some v) ∧
    (∀ r : ref, r < length (vars w) → vars w1 !! r = vars w !! r) ∧
    weight_values w1 m1 = weight_values w m ∧
    stdout w1 = stdout w.
Proof.
  intros Hv.
  destruct (clone_model_values m w Hv) as (m1 & w1 & Hrun & _ & Hvals & Hold & Hout).
  exists m1, w1. split; [done|].
  rewrite (clone_model_run m w Hv) in Hrun. injection Hrun as <- <-.
  cbn [weights with_vars vars] in *.
  assert (Hlen : length (copied_vars (vars w) (weights m)) = length (weights m))
    by (unfold copied_vars; by rewrite build_vars_length).
  split; [done|]. split; [by rewrite length_app, Hlen|]. split; [|done].
  intros i r Hi.
  destruct (valid_lookup _ _ r Hv) as [v Hr]; [by eapply list_elem_of_lookup_2|].
  exists v. split; [done|]. rewrite lookup_app_r by lia.
  replace (length (vars w) + i - length (vars w)) with i by lia.
  unfold copied_vars. by rewrite (build_vars_lookup _ _ _ _ _ _ _ Hv Hi Hr).
Qed.

(** [clone_model] is the framework's clone followed by
    [set_all_weights_from_model] on two separate models. *)
Lemma clone_model_steps m w :
  valid (vars w) (weights m) →
  ∃ new w0 w1,
    keras_clone_model m w = (Ok new, w0) ∧
    set_all_weights_from_model new m w0 = (Ok tt, w1) ∧
    clone_model m w = (Ok new, w1) ∧
    separate new m ∧
    valid (vars w0) (weights new) ∧ valid (vars w0) (weights m).
Proof.
  intros Hv. pose proof (keras_clone_model_run m w Hv) as Hk.
  set (new := mkModel (seq (length (vars w)) (length (weights m))) None) in *.
  set (w0 := with_vars (λ vs, vs ++ fresh_vars vs (length vs) (weights m)) w) in *.
  assert (Hv0 : valid (vars w0) (weights new)).
  { cbn. unfold valid. rewrite length_app. unfold fresh_vars.
    rewrite build_vars_length by done.
    apply Forall_forall. intros r Hr. apply elem_of_seq in Hr. lia. }
  assert (Hv0' : valid (vars w0) (weights m)).
  { cbn. unfold valid. rewrite length_app.
    eapply Forall_impl; [exact Hv|]. cbn. intros; lia. }
  pose proof (set_all_weights_from_model_run new m w0 Hv0 Hv0') as Hs.
  eexists new, w0, _. split; [done|]. split; [exact Hs|]. split.
  - unfold clone_model. rewrite (bind_ok _ _ _ _ _ Hk). by rewrite (bind_ok _ _ _ _ _ Hs).
  - split; [|done]. split; [apply NoDup_seq|].
    cbn. intros r Hr Hr'. apply elem_of_seq in Hr.
    unfold valid in Hv. rewrite Forall_forall in Hv. apply Hv in Hr'. lia.
Qed.

Lemma elem_of_warnings sg ps l :
  l ∈ warnings sg ps ↔
  ∃ p s1 s2, p ∈ ps ∧ sg !! p.1 = Some s1 ∧ sg !! p.2 = Some s2 ∧
             s1.2 ≠ s2.2 ∧ l = WarningSkipping s1.1 s1.2 s2.2.
Proof.
  unfold warnings. rewrite list_elem_of_In, in_flat_map. split.
  - intros (p & Hp & Hl). apply list_elem_of_In in Hp, Hl.
    destruct (sg !! p.1) as [s1|] eqn:H1; [|by apply elem_of_nil in Hl].
    destruct (sg !! p.2) as [s2|] eqn:H2; [|by apply elem_of_nil in Hl].
    destruct (decide (s1.2 = s2.2)); [by apply elem_of_nil in Hl|].
    apply list_elem_of_singleton in Hl. by exists p, s1, s2.
  - intros (p & s1 & s2 & Hp & H1 & H2 & Hne & ->). exists p.
    split; [by apply list_elem_of_In|]. rewrite H1, H2, decide_False by done.
    by left.
Qed.

Lemma separate_zip model source_model :
  separate model source_model →
  let ps := zip (weights model) (weights source_model) in
  NoDup ps.*1 ∧ ∀ r, r ∈ ps.*1 → r ∉ ps.*2.
Proof.
  intros [Hnd Hdisj]. cbn. rewrite zip_fst_take, zip_snd_take. split.
  - eapply sublist_NoDup; [done|]. apply sublist_take.
  - intros r H1 H2. apply elem_of_take in H1 as (i & H1 & _).
    apply elem_of_take in H2 as (j & H2 & _).
    eapply Hdisj; by eapply list_elem_of_lookup_2.
Qed.

(** *** [reset_weights_to_checkpoint] *)

Lemma reset_weights_to_checkpoint_unfold model ckp skip_keyword :
  reset_weights_to_checkpoint model ckp skip_keyword
  = let* temp := keras_clone_model model in
    match ckp with
    | Some path => if nonempty path then load_weights temp path else ret tt
    | None => ret tt
    end >>
    let* skipped :=
      fold_each (reset_step skip_keyword) (zip (weights model) (weights temp)) 0 in
    print (InfoReset skipped skip_keyword) >>
    ret skipped.
Proof. reflexivity. Qed.

Lemma reset_loop_run kw ps w c :
  valid (vars w) ps.*1 → valid (vars w) ps.*2 →
  (∀ p s1 s2, p ∈ ps → (signature <$> vars w) !! p.1 = Some s1 →
              (signature <$> vars w) !! p.2 = Some s2 → s1.2 = s2.2) →
  fold_each (reset_step kw) ps c w
  = (Ok (c + skipped_count (signature <$> vars w) kw ps.*1),
     mkWorld (copy_pairs (not_skipped kw) ps (vars w)) (files w) (dirs w) (stdout w)
       (policy w) (saves w)).
Proof.
  revert w c. induction ps as [|[r1 r2] ps IH]; intros w c Hv1 Hv2 Hsh.
  { cbn. unfold ret, skipped_count. cbn. rewrite Nat.add_0_r. by destruct w. }
  rewrite fmap_cons in Hv1, Hv2.
  apply Forall_cons in Hv1 as [Hr1 Hv1]. apply Forall_cons in Hv2 as [Hr2 Hv2].
  apply lookup_lt_is_Some in Hr1 as [v1 Hr1]. apply lookup_lt_is_Some in Hr2 as [v2 Hr2].
  cbn [fst snd] in Hr1, Hr2.
  assert (Hsg1 : (signature <$> vars w) !! r1 = Some (signature v1))
    by (by rewrite list_lookup_fmap, Hr1).
  assert (Hsg2 : (signature <$> vars w) !! r2 = Some (signature v2))
    by (by rewrite list_lookup_fmap, Hr2).
  assert (Hs : shape (value v1) = shape (value v2)).
  { apply (Hsh (r1, r2) (signature v1) (signature v2)); [left|done..]. }
  cbn [fold_each]. unfold skipped_count, copy_pairs.
  rewrite fmap_cons. cbn [List.filter foldl fst snd].
  unfold skipped_ref at 1. rewrite Hsg1. unfold signature at 1. cbn [fst].
  unfold copy_step at 2. cbn [fst snd]. rewrite Hr1, Hr2.
  unfold not_skipped at 2.
  destruct (skips kw (name v1)) eqn:Hskip; cbn [negb length].
  - rewrite (bind_ok _ _ w (S c) w).
    2:{ unfold reset_step. cbn [fst snd].
        rewrite (bind_ok _ _ _ _ _ (read_var_ok _ _ _ Hr1)). by rewrite Hskip. }
    rewrite IH; [|done|done|].
    + unfold skipped_count, copy_pairs. do 2 f_equal. lia.
    + intros p s1 s2 Hp. apply Hsh. by right.
  - rewrite (bind_ok _ _ w c (with_vars (alter (λ v, mkVar (name v) (value v2)) r1) w)).
    2:{ unfold reset_step. cbn [fst snd].
        rewrite (bind_ok _ _ _ _ _ (read_var_ok _ _ _ Hr1)). rewrite Hskip.
        rewrite (bind_ok _ _ _ _ _ (read_var_ok _ _ _ Hr2)).
        by rewrite (bind_ok _ _ _ _ _ (assign_ok _ _ v1 _ Hr1 Hs)). }
    rewrite IH; cbn [with_vars vars files dirs stdout policy saves].
    + by rewrite (signature_alter _ _ _ _ Hr1 Hs).
    + unfold valid. by rewrite length_alter.
    + unfold valid. by rewrite length_alter.
    + rewrite (signature_alter _ _ _ _ Hr1 Hs). intros p s1 s2 Hp. apply Hsh. by right.
Qed.

(** Loading a checkpoint into variables [new], which lie at the end of the
    store: each takes its tensor when all shapes agree. *)
Lemma load_loop_run vs new ts w :
  vars w = vs ++ new →
  Forall2 (λ v t, shape (value v) = shape t) new ts →
  for_each (λ p : ref * Tensor, assign p.1 p.2) (zip (seq (length vs) (length new)) ts) w
  = (Ok tt, mkWorld (vs ++ zip_with (λ v t, mkVar (name v) t) new ts)
              (files w) (dirs w) (stdout w) (policy w) (saves w)).
Proof.
  intros Hw Hsh. revert vs w Hw.
  induction Hsh as [|v t new ts Hs Hsh IH]; intros vs w Hw.
  { cbn. unfold ret. rewrite <- Hw. by destruct w. }
  cbn [length seq zip_with for_each fst snd].
  assert (Hv : vars w !! length vs = Some v).
  { rewrite Hw, lookup_app_r, Nat.sub_diag by done. done. }
  rewrite (bind_ok _ _ _ _ _ (assign_ok _ _ v t Hv Hs)).
  replace (S (length vs)) with (length (vs ++ [mkVar (name v) t]))
    by (rewrite length_app; cbn; lia).
  rewrite (IH (vs ++ [mkVar (name v) t])).
  - cbn. by rewrite <- app_assoc.
  - cbn. rewrite Hw. replace (length vs) with (length vs + 0) at 1 by lia.
    rewrite alter_app_r. cbn. by rewrite <- app_assoc.
Qed.

Lemma zip_with_seq_lookup (n : nat) (rs : list ref) (i : nat) (r : ref) :
  rs !! i = Some r → zip rs (seq n (length rs)) !! i = Some (r, n + i).
Proof.
  intros Hi. apply lookup_zip_with_Some. exists r, (n + i). split; [done|].
  split; [done|]. apply lookup_seq. split; [done|]. by eapply lookup_lt_Some.
Qed.

Lemma skipped_count_app vs ext kw rs :
  valid vs rs →
  skipped_count (signature <$> (vs ++ ext)) kw rs = skipped_count (signature <$> vs) kw rs.
Proof.
  intros Hv. unfold skipped_count. f_equal. apply List.filter_ext_in.
  intros r Hr. apply list_elem_of_In in Hr. unfold skipped_ref.
  destruct (valid_lookup _ _ r Hv Hr) as [v Hs].
  by rewrite !list_lookup_fmap, lookup_app_l by (by eapply lookup_lt_Some).
Qed.

(** The loop and the lines after it, run on a store that ends with the
    variables [tvs] of the temporary model. *)
Lemma reset_tail_run kw (rs : list ref) vs tvs w1 :
  vars w1 = vs ++ tvs → valid vs rs → length tvs = length rs →
  (∀ (i : nat) (r : ref) v t, rs !! i = Some r → vs !! r = Some v → tvs !! i = Some t →
                shape (value v) = shape (value t)) →
  (let* skipped :=
     fold_each (reset_step kw) (zip rs (seq (length vs) (length rs))) 0 in
   print (InfoReset skipped kw) >> ret skipped) w1
  = (Ok (skipped_count (signature <$> vs) kw rs),
     mkWorld (copy_pairs (not_skipped kw) (zip rs (seq (length vs) (length rs))) (vs ++ tvs))
       (files w1) (dirs w1)
       (stdout w1 ++ [InfoReset (skipped_count (signature <$> vs) kw rs) kw])
       (policy w1) (saves w1)).
Proof.
  intros Hw Hv Hlen Hsh.
  set (ps := zip rs (seq (length vs) (length rs))).
  assert (Hps1 : ps.*1 = rs) by (apply fst_zip; by rewrite length_seq).
  assert (Hps2 : ps.*2 = seq (length vs) (length rs)) by (apply snd_zip; by rewrite length_seq).
  assert (H1 : valid (vars w1) ps.*1).
  { rewrite Hps1, Hw. unfold valid in *. rewrite length_app.
    eapply Forall_impl; [done|]. cbn. intros; lia. }
  assert (H2 : valid (vars w1) ps.*2).
  { rewrite Hps2, Hw. unfold valid. rewrite length_app, Hlen.
    apply Forall_forall. intros r Hr. apply elem_of_seq in Hr. lia. }
  assert (H3 : ∀ p s1 s2, p ∈ ps → (signature <$> vars w1) !! p.1 = Some s1 →
                 (signature <$> vars w1) !! p.2 = Some s2 → s1.2 = s2.2).
  { intros p s1 s2 Hp Hs1 Hs2. apply list_elem_of_lookup in Hp as [i Hi].
    apply lookup_zip_with_Some in Hi as (r & x & -> & Hr & Hx).
    apply lookup_seq in Hx as [-> Hi]. cbn [fst snd] in *.
    destruct (valid_lookup _ _ r Hv) as [v Hrv]; [by eapply list_elem_of_lookup_2|].
    destruct (lookup_lt_is_Some_2 tvs i) as [t Ht]; [lia|].
    rewrite Hw, list_lookup_fmap, lookup_app_l, Hrv in Hs1 by (by eapply lookup_lt_Some).
    rewrite Hw, list_lookup_fmap, lookup_app_r in Hs2 by lia.
    replace (length vs + i - length vs) with i in Hs2 by lia. rewrite Ht in Hs2.
    cbn in Hs1, Hs2. simplify_eq. cbn. by eapply Hsh. }
  rewrite (bind_ok _ _ _ _ _ (reset_loop_run kw ps w1 0 H1 H2 H3)).
  rewrite Hps1, Hw, skipped_count_app by done. done.
Qed.

Lemma reset_tail_lookup kw (rs : list ref) vs tvs (i : nat) (r : ref) v t :
  valid vs rs → NoDup rs →
  rs !! i = Some r → vs !! r = Some v → tvs !! i = Some t →
  copy_pairs (not_skipped kw) (zip rs (seq (length vs) (length rs))) (vs ++ tvs) !! r
  = Some (if skips kw (name v) then v else mkVar (name v) (value t)).
Proof.
  intros Hv Hnd Hi Hr Ht.
  rewrite (copy_pairs_selected _ _ _ i r (length vs + i) v t).
  - unfold not_skipped. by destruct (skips kw (name v)).
  - by rewrite fst_zip by (by rewrite length_seq).
  - rewrite fst_zip, snd_zip by (by rewrite length_seq).
    intros r' H1 H2. apply elem_of_seq in H2.
    unfold valid in Hv. rewrite Forall_forall in Hv. apply Hv in H1. lia.
  - by apply zip_with_seq_lookup.
  - by rewrite lookup_app_l by (by eapply lookup_lt_Some).
  - rewrite lookup_app_r by lia.
    by replace (length vs + i - length vs) with i by lia.
Qed.

(** The run without a checkpoint to load: no path, or the empty one. *)
Lemma reset_without_load_run model ckp kw w :
  valid (vars w) (weights model) → ckp = None ∨ ckp = Some "" →
  let vs := vars w in
  let n := length vs in
  let rs := weights model in
  let skipped := skipped_count (signature <$> vs) kw rs in
  reset_weights_to_checkpoint model ckp kw w
  = (Ok skipped,
     mkWorld (copy_pairs (not_skipped kw) (zip rs (seq n (length rs)))
                (vs ++ fresh_vars vs n rs))
       (files w) (dirs w) (stdout w ++ [InfoReset skipped kw]) (policy w) (saves w)).
Proof.
  intros Hv Hckp vs n rs skipped. rewrite reset_weights_to_checkpoint_unfold.
  rewrite (bind_ok _ _ _ _ _ (keras_clone_model_run _ _ Hv)). cbn [weights].
  set (w1 := with_vars (λ vs, vs ++ fresh_vars vs (length vs) (weights model)) w).
  rewrite (bind_ok _ _ w1 tt w1) by (by destruct Hckp as [->| ->]).
  apply (reset_tail_run kw rs vs (fresh_vars vs n rs) w1); try done.
  - unfold fresh_vars. by rewrite build_vars_length.
  - intros i r v t Hi Hr Ht. unfold fresh_vars in Ht.
    rewrite (build_vars_lookup _ _ _ _ _ _ _ Hv Hi Hr) in Ht. by simplify_eq.
Qed.

Lemma compatible_valid w m ts : compatible w m ts → valid (vars w) (weights m).
Proof.
  intros Hc. apply Forall_forall. intros r Hr.
  apply list_elem_of_lookup in Hr as [i Hi].
  destruct (Forall2_lookup_l _ _ _ _ _ Hc Hi) as (t & _ & v & Hv & _).
  by eapply lookup_lt_Some.
Qed.

(** The run with a checkpoint that fits the model. *)
Lemma reset_with_load_run model path kw ts w :
  nonempty path = true → files w !! path = Some (H5Weights ts) →
  compatible w model ts →
  let vs := vars w in
  let n := length vs in
  let rs := weights model in
  let skipped := skipped_count (signature <$> vs) kw rs in
  reset_weights_to_checkpoint model (Some path) kw w
  = (Ok skipped,
     mkWorld (copy_pairs (not_skipped kw) (zip rs (seq n (length rs)))
                (vs ++ zip_with (λ v t, mkVar (name v) t) (fresh_vars vs n rs) ts))
       (files w) (dirs w) (stdout w ++ [InfoReset skipped kw]) (policy w) (saves w)).
Proof.
  intros Hpath Hfile Hc vs n rs skipped.
  pose proof (compatible_valid _ _ _ Hc) as Hv.
  pose proof (Forall2_length _ _ _ Hc) as Hlen.
  assert (Hfl : length (fresh_vars vs n rs) = length rs)
    by (unfold fresh_vars; by rewrite build_vars_length).
  rewrite reset_weights_to_checkpoint_unfold.
  rewrite (bind_ok _ _ _ _ _ (keras_clone_model_run _ _ Hv)). cbn [weights].
  set (w1 := with_vars (λ vs, vs ++ fresh_vars vs (length vs) (weights model)) w).
  rewrite Hpath.
  rewrite (bind_ok _ _ w1 tt
    (mkWorld (vs ++ zip_with (λ v t, mkVar (name v) t) (fresh_vars vs n rs) ts)
       (files w) (dirs w) (stdout w) (policy w) (saves w))).
  2:{ unfold load_weights. cbn [files w1 with_vars weights]. rewrite Hfile.
      rewrite length_seq, decide_True by done.
      fold rs. rewrite <- Hfl.
      apply (load_loop_run vs (fresh_vars vs n rs) ts w1); [done|].
      apply Forall2_same_length_lookup_2; [by rewrite Hfl|]. intros i x t Hx Ht.
      destruct (lookup_lt_is_Some_2 rs i) as [r Hr]; [rewrite <- Hfl; by eapply lookup_lt_Some|].
      destruct (Forall2_lookup_lr _ _ _ _ _ _ Hc Hr Ht) as (v & Hrv & Hs).
      unfold fresh_vars in Hx. rewrite (build_vars_lookup _ _ _ _ _ _ _ Hv Hr Hrv) in Hx.
      by simplify_eq. }
  apply (reset_tail_run kw rs vs
           (zip_with (λ v t, mkVar (name v) t) (fresh_vars vs n rs) ts)
           (mkWorld (vs ++ zip_with (λ v t, mkVar (name v) t) (fresh_vars vs n rs) ts)
              (files w) (dirs w) (stdout w) (policy w) (saves w))); try done.
  - rewrite length_zip_with. fold rs in Hlen. lia.
  - intros i r v t Hi Hr Ht.
    apply lookup_zip_with_Some in Ht as (x & t' & -> & Hx & Ht). cbn.
    destruct (Forall2_lookup_lr _ _ _ _ _ _ Hc Hi Ht) as (v' & Hrv & Hs).
    fold vs in Hrv. by simplify_eq.
Qed.

Lemma skips_name_contains kw nm : kw ≠ Some "" → skips kw nm = name_contains kw nm.
Proof.
  intros Hkw. destruct kw as [kw|]; [|done]. cbn. unfold nonempty.
  destruct (String.eqb_spec kw ""); [congruence|done].
Qed.

Lemma skipped_count_named w kw rs :
  kw ≠ Some "" →
  skipped_count (signature <$> vars w) kw rs = length (named_with w kw rs).
Proof.
  intros Hkw. unfold skipped_count, named_with. f_equal.
  apply List.filter_ext. intros r. unfold skipped_ref.
  rewrite list_lookup_fmap. destruct (vars w !! r) as [v|]; [|done].
  cbn. by apply skips_name_contains.
Qed.

(** *** [clip_many] *)

Lemma Qmin_cases x y : (Qmin x y = x ∧ (x <= y)%Q) ∨ (Qmin x y = y ∧ (y < x)%Q).
Proof.
  unfold Qmin, GenericMinMax.gmin. destruct (x ?= y)%Q eqn:E.
  - left. split; [done|]. apply Qeq_alt in E. lra.
  - left. split; [done|]. apply Qlt_alt in E. lra.
  - right. split; [done|]. apply Qgt_alt in E. lra.
Qed.

Lemma Qmax_cases x y : (Qmax x y = x ∧ (y <= x)%Q) ∨ (Qmax x y = y ∧ (x < y)%Q).
Proof.
  unfold Qmax, GenericMinMax.gmax. destruct (x ?= y)%Q eqn:E.
  - left. split; [done|]. apply Qeq_alt in E. lra.
  - right. split; [done|]. apply Qlt_alt in E. lra.
  - left. split; [done|]. apply Qgt_alt in E. lra.
Qed.

(** Clipping selects one of the entry and the two bounds, so a clipped entry
    is clipped to itself, whatever the bounds. *)
Lemma clip_entry_idem lo hi x : clip_entry lo hi (clip_entry lo hi x) = clip_entry lo hi x.
Proof.
  unfold clip_entry.
  destruct (Qmin_cases x hi) as [[-> H1]|[-> H1]];
  destruct (Qmax_cases x lo) as [[E2 H2]|[E2 H2]];
  destruct (Qmax_cases hi lo) as [[E3 H3]|[E3 H3]];
  rewrite ?E2, ?E3;
  destruct (Qmin_cases x hi) as [[E4 H4]|[E4 H4]];
  destruct (Qmin_cases hi hi) as [[E5 H5]|[E5 H5]];
  destruct (Qmin_cases lo hi) as [[E6 H6]|[E6 H6]];
  rewrite ?E4, ?E5, ?E6, ?E2, ?E3; try reflexivity; try lra.
  all: destruct (Qmax_cases lo lo) as [[E7 H7]|[E7 H7]];
    rewrite ?E7; try reflexivity; try lra.
Qed.

Lemma clip_entry_bounds lo hi x :
  (lo <= hi)%Q → (lo <= clip_entry lo hi x)%Q ∧ (clip_entry lo hi x <= hi)%Q.
Proof.
  intros H. unfold clip_entry. split.
  - apply Q.le_max_r.
  - apply Q.max_lub; [apply Q.le_min_r | done].
Qed.

Lemma clip_by_value_idem t lo hi :
  clip_by_value (clip_by_value t lo hi) lo hi = clip_by_value t lo hi.
Proof.
  unfold clip_by_value. cbn. f_equal. rewrite <- list_fmap_compose.
  apply list_fmap_ext. intros i x _. cbn. apply clip_entry_idem.
Qed.

Lemma clip_by_value_within t lo hi :
  (cast lo <= cast hi)%Q → within (cast lo) (cast hi) (clip_by_value t lo hi).
Proof.
  intros H. unfold within, clip_by_value. cbn. apply Forall_fmap, Forall_forall.
  intros x _. cbn. by apply clip_entry_bounds.
Qed.

Lemma clip_entry_clipped lo hi x : (lo <= hi)%Q → clipped_entry lo hi x (clip_entry lo hi x).
Proof.
  intros H. unfold clipped_entry, clip_entry.
  destruct (Qmin_cases x hi) as [[-> H1]|[-> H1]].
  - destruct (Qmax_cases x lo) as [[-> H2]|[-> H2]]; [by left|by right; left].
  - right; right. split; [done|].
    by destruct (Qmax_cases hi lo) as [[-> H2]|[-> H2]]; [|lra].
Qed.

Lemma clip_by_value_clipped t lo hi :
  (cast lo <= cast hi)%Q → clipped (cast lo) (cast hi) t (clip_by_value t lo hi).
Proof.
  intros H. split; [done|]. unfold clip_by_value. cbn.
  apply Forall2_fmap_r, Forall_Forall2_diag, Forall_forall.
  intros x _. by apply clip_entry_clipped.
Qed.

Lemma clip_refs_length lo hi rs vs : length (clip_refs lo hi rs vs) = length vs.
Proof.
  revert vs. induction rs as [|r rs IH]; intros vs; [done|].
  unfold clip_refs in *. cbn. by rewrite IH, length_alter.
Qed.

Lemma clip_refs_lookup lo hi (rs : list ref) vs (r : ref) :
  clip_refs lo hi rs vs !! r
  = if decide (r ∈ rs) then clip_var lo hi <$> vs !! r else vs !! r.
Proof.
  revert vs. induction rs as [|r0 rs IH]; intros vs.
  { cbn. rewrite decide_False; [done|]. apply not_elem_of_nil. }
  unfold clip_refs in *. cbn [foldl]. rewrite IH, list_lookup_alter.
  destruct (decide (r0 = r)) as [->|Hne].
  - rewrite (decide_True (P := r ∈ r :: rs)) by left.
    destruct (decide (r ∈ rs)); [|done].
    destruct (vs !! r) as [v|]; [|done]. cbn. unfold clip_var. cbn.
    by rewrite clip_by_value_idem.
  - destruct (decide (r ∈ rs)) as [Hin|Hin].
    + by rewrite decide_True by (by right).
    + rewrite decide_False; [done|]. by apply not_elem_of_cons.
Qed.

Lemma clip_refs_idem lo hi rs vs :
  clip_refs lo hi rs (clip_refs lo hi rs vs) = clip_refs lo hi rs vs.
Proof.
  apply list_eq. intros r. rewrite !clip_refs_lookup.
  destruct (decide (r ∈ rs)); [|done].
  destruct (vs !! r) as [v|]; [|done]. cbn. unfold clip_var. cbn.
  by rewrite clip_by_value_idem.
Qed.

Lemma alter_clip_var lo hi (r : ref) v (vs : list TfVariable) :
  vs !! r = Some v →
  alter (λ v0, mkVar (name v0) (clip_by_value (value v) lo hi)) r vs
  = alter (clip_var lo hi) r vs.
Proof.
  intros Hr. apply list_eq. intros i. rewrite !list_lookup_alter.
  destruct (decide (r = i)) as [->|]; [|done]. by rewrite Hr.
Qed.

Lemma clip_many_inplace_run (rs : list ref) clip_at clip_from w :
  valid (vars w) rs →
  clip_many (Var <$> rs) clip_at clip_from true w
  = (Ok None,
     mkWorld (clip_refs (default (- clip_at)%Q clip_from) clip_at rs (vars w))
       (files w) (dirs w) (stdout w) (policy w) (saves w)).
Proof.
  intros Hv. unfold clip_many. set (lo := default (- clip_at)%Q clip_from).
  match goal with
  | |- bind ?m _ _ = _ =>
      assert (Hloop : m w = (Ok tt, mkWorld (clip_refs lo clip_at rs (vars w))
                                     (files w) (dirs w) (stdout w) (policy w) (saves w)))
  end.
  { revert w Hv. induction rs as [|r rs IH]; intros w Hv.
    { cbn. unfold ret. by destruct w. }
    apply Forall_cons in Hv as [Hr Hv]. apply lookup_lt_is_Some in Hr as [v Hr].
    cbn [fmap list_fmap for_each].
    rewrite (bind_ok _ _ w tt (with_vars (alter (clip_var lo clip_at) r) w)).
    2:{ unfold tensor_of. rewrite (bind_ok _ _ w (value v) w).
        - rewrite (assign_ok _ _ v) by done. unfold with_vars.
          by rewrite (alter_clip_var _ _ _ _ _ Hr).
        - by rewrite (bind_ok _ _ _ _ _ (read_var_ok _ _ _ Hr)). }
    rewrite IH; [done|]. cbn. unfold valid. by rewrite length_alter. }
  by rewrite (bind_ok _ _ _ _ _ Hloop).
Qed.

Lemma for_each_app {A} (body : A → M unit) l1 l2 w w1 :
  for_each body l1 w = (Ok tt, w1) →
  for_each body (l1 ++ l2) w = for_each body l2 w1.
Proof.
  revert w. induction l1 as [|x l1 IH]; intros w Hrun.
  { cbn in *. unfold ret in Hrun. by simplify_eq. }
  cbn [for_each app] in *. unfold bind in *.
  destruct (body x w) as [[[]|e] w']; [|done]. by apply IH.
Qed.

Lemma tensors_of_length vs values :
  valid_arrays vs values → length (tensors_of vs values) = length values.
Proof.
  induction 1 as [|a values [t Ht] _ IH]; [done|]. cbn. rewrite Ht. cbn. by rewrite IH.
Qed.

Lemma tensors_of_Const vs ts : tensors_of vs (Const <$> ts) = ts.
Proof. induction ts as [|t ts IH]; [done|]. cbn. by rewrite IH. Qed.

Lemma valid_arrays_Const vs ts : valid_arrays vs (Const <$> ts).
Proof. apply Forall_fmap, Forall_forall. intros t _. by eexists. Qed.

Lemma tensor_of_run w a t : array_value (vars w) a = Some t → tensor_of a w = (Ok t, w).
Proof.
  destruct a as [r|t']; cbn; intros H.
  - destruct (vars w !! r) as [v|] eqn:Hr; [|done]. cbn in H. simplify_eq.
    by rewrite (bind_ok _ _ _ _ _ (read_var_ok _ _ _ Hr)).
  - by simplify_eq.
Qed.

Lemma clip_many_value_run values clip_at clip_from w :
  valid_arrays (vars w) values →
  clip_many values clip_at clip_from false w
  = (Ok (Some ((λ t, clip_by_value t (default (- clip_at)%Q clip_from) clip_at)
                 <$> tensors_of (vars w) values)), w).
Proof.
  intros Hv. unfold clip_many. set (lo := default (- clip_at)%Q clip_from).
  match goal with
  | |- bind (fold_each ?body _ _) _ _ = _ =>
      assert (Hloop : ∀ acc,
        fold_each body values acc w
        = (Ok (acc ++ ((λ t, clip_by_value t lo clip_at) <$> tensors_of (vars w) values)), w))
  end.
  { induction Hv as [|a values [t Ht] _ IH]; intros acc.
    { cbn. by rewrite app_nil_r. }
    cbn [fold_each tensors_of]. rewrite Ht.
    rewrite (bind_ok _ _ w (acc ++ [clip_by_value t lo clip_at]) w).
    2:{ by rewrite (bind_ok _ _ _ _ _ (tensor_of_run _ _ _ Ht)). }
    rewrite IH. cbn. by rewrite <- app_assoc. }
  by rewrite (bind_ok _ _ _ _ _ (Hloop [])).
Qed.

(** *** Optimizer state *)

Lemma read_values_run rs w :
  valid (vars w) rs →
  map_each (λ r, let* v := read_var r in ret (value v)) rs w
  = (Ok (values_at (vars w) rs), w).
Proof.
  unfold values_at, copied_vars. generalize 0.
  induction rs as [|r rs IH]; intros n Hv; [reflexivity|].
  apply Forall_cons in Hv as [Hr Hv]. apply lookup_lt_is_Some in Hr as [v Hr].
  cbn [map_each build_vars]. rewrite Hr.
  rewrite (bind_ok _ _ w (value v) w)
    by (by rewrite (bind_ok _ _ _ _ _ (read_var_ok _ _ _ Hr))).
  by rewrite (bind_ok _ _ _ _ _ (IH (S n) Hv)).
Qed.

Lemma get_weights_run o w :
  valid (vars w) (opt_weights o) →
  get_weights o w = (Ok (values_at (vars w) (opt_weights o)), w).
Proof. apply read_values_run. Qed.

Lemma set_weights_rejects o ws w :
  valid (vars w) (opt_weights o) → rejects w o ws →
  set_weights o ws w = (Raise ValueError, w).
Proof.
  intros Hv Hrej. unfold set_weights, base_set_weights.
  destruct (decide (length (opt_weights o) = length (state_for o ws))) as [Hlen|]; [|done].
  rewrite (bind_ok _ _ _ _ _ (get_weights_run _ _ Hv)).
  destruct Hrej as [?|Hsh]; [done|]. by rewrite decide_False.
Qed.

(** *** The checkpointing callback *)

Lemma save_model_run m path w :
  valid (vars w) (weights m) →
  save_model (Some m) path w
  = (Ok tt, with_files (<[path := H5Weights (values_at (vars w) (weights m))]>)
              (with_parent_dir path w)).
Proof.
  intros Hv. unfold save_model, with_parent_dir, save_weights, makedirs.
  destruct (nonempty (dirname path)).
  - rewrite bind_modify. set (w1 := with_dirs _ w).
    by rewrite (bind_ok _ _ _ _ _ (read_values_run _ w1 Hv)).
  - rewrite bind_ret.
    by rewrite (bind_ok _ _ _ _ _ (read_values_run _ _ Hv)).
Qed.

Lemma save_optimizer_run o path w :
  valid (vars w) (opt_weights o) →
  save_optimizer (Some o) path w
  = (Ok tt, with_files (<[path := Pickled (values_at (vars w) (opt_weights o))]>)
              (with_parent_dir path w)).
Proof.
  intros Hv. unfold save_optimizer, with_parent_dir, makedirs.
  destruct (nonempty (dirname path)).
  - rewrite bind_modify. set (w1 := with_dirs _ w).
    by rewrite (bind_ok _ _ _ _ _ (get_weights_run _ w1 Hv)).
  - rewrite bind_ret.
    by rewrite (bind_ok _ _ _ _ _ (get_weights_run _ _ Hv)).
Qed.

Lemma on_epoch_end_run cb epoch w :
  attached cb (vars w) →
  let new := epoch_saves (epoch2path cb) (epoch2path_optim cb) (epoch + 1) in
  ∃ cb' w',
    on_epoch_end cb epoch w = (Ok cb', w') ∧
    vars w' = vars w ∧ saves w' = saves w ++ new ∧
    epoch2path cb' = epoch2path cb ∧ epoch2path_optim cb' = epoch2path_optim cb ∧
    model cb' = model cb ∧
    created_model_ckp cb' = created_model_ckp cb ++ model_paths new ∧
    created_optim_ckp cb' = created_optim_ckp cb ++ optimizer_paths new.
Proof.
  intros (m & o & Hm & Ho & Hvm & Hvo) new. subst new.
  unfold on_epoch_end, epoch_saves. cbv zeta.
  destruct (epoch2path cb !! (epoch + 1)%Z) as [p1|] eqn:H1.
  - rewrite Hm.
    rewrite (bind_ok _ _ w
      (mkCallback (epoch2path cb) (epoch2path_optim cb) (created_model_ckp cb ++ [p1])
         (created_optim_ckp cb) (Some m))
      (with_saves (λ l, l ++ [SavedModel (epoch + 1) p1])
         (with_files (<[p1 := H5Weights (values_at (vars w) (weights m))]>)
            (with_parent_dir p1 w)))).
    2:{ rewrite (bind_ok _ _ _ _ _ (save_model_run _ _ _ Hvm)).
        unfold record_save. by rewrite bind_modify. }
    cbn [epoch2path_optim model created_model_ckp created_optim_ckp epoch2path].
    destruct (epoch2path_optim cb !! (epoch + 1)%Z) as [p2|] eqn:H2.
    + rewrite bind_ret, Ho.
      set (w1 := with_saves _ _).
      assert (Hv1 : valid (vars w1) (opt_weights o)).
      { subst w1. unfold with_parent_dir. by destruct (nonempty (dirname p1)). }
      rewrite (bind_ok _ _ _ _ _ (save_optimizer_run _ _ _ Hv1)).
      unfold record_save. rewrite bind_modify.
      eexists _, _. split; [reflexivity|]. subst w1. unfold with_parent_dir.
      destruct (nonempty (dirname p1)), (nonempty (dirname p2)); cbn;
        rewrite <- ?app_assoc, ?app_nil_r; by rewrite ?Hm.
    + eexists _, _. split; [reflexivity|]. unfold with_parent_dir.
      destruct (nonempty (dirname p1)); cbn;
        rewrite <- ?app_assoc, ?app_nil_r; by rewrite ?Hm.
  - rewrite (bind_ok _ _ w cb w) by done.
    destruct (epoch2path_optim cb !! (epoch + 1)%Z) as [p2|] eqn:H2.
    + rewrite Hm, bind_ret, Ho.
      rewrite (bind_ok _ _ _ _ _ (save_optimizer_run _ _ _ Hvo)).
      unfold record_save. rewrite bind_modify.
      eexists _, _. split; [reflexivity|]. unfold with_parent_dir.
      destruct (nonempty (dirname p2)); cbn;
        rewrite <- ?app_assoc, ?app_nil_r; by rewrite ?Hm.
    + eexists _, _. split; [reflexivity|]. cbn. by rewrite !app_nil_r.
Qed.

Lemma elem_of_hook_keys epoch n k :
  k ∈ hook_keys epoch n ↔ (epoch + 1 ≤ k ≤ epoch + Z.of_nat n)%Z.
Proof.
  revert epoch. induction n as [|n IH]; intros epoch; cbn [hook_keys].
  - rewrite elem_of_nil. lia.
  - rewrite elem_of_cons, IH. lia.
Qed.

Lemma NoDup_hook_keys epoch n : NoDup (hook_keys epoch n).
Proof.
  revert epoch. induction n as [|n IH]; intros epoch; cbn [hook_keys].
  - apply NoDup_nil_2.
  - apply NoDup_cons. split; [|apply IH]. rewrite elem_of_hook_keys. lia.
Qed.

Lemma run_epochs_run cb epoch n w :
  attached cb (vars w) →
  let new := flat_map (epoch_saves (epoch2path cb) (epoch2path_optim cb))
               (hook_keys epoch n) in
  ∃ cb' w',
    run_epochs cb epoch n w = (Ok cb', w') ∧
    saves w' = saves w ++ new ∧
    created_model_ckp cb' = created_model_ckp cb ++ model_paths new ∧
    created_optim_ckp cb' = created_optim_ckp cb ++ optimizer_paths new.
Proof.
  revert cb epoch w. induction n as [|n IH]; intros cb epoch w Hatt new; subst new.
  { exists cb, w. cbn. by rewrite !app_nil_r. }
  cbn [run_epochs hook_keys flat_map]. rewrite bind_modify.
  set (w0 := with_vars (fmap (train_epoch epoch)) w).
  assert (Hatt0 : attached cb (vars w0)).
  { destruct Hatt as (m & o & Hm & Ho & Hvm & Hvo). exists m, o.
    repeat split; try done; unfold valid; cbn; by rewrite length_fmap. }
  destruct (on_epoch_end_run cb epoch w0 Hatt0)
    as (cb1 & w1 & Hrun & Hvars & Hsaves & He1 & He2 & Hmod & Hc1 & Hc2).
  rewrite (bind_ok _ _ _ _ _ Hrun).
  assert (Hatt1 : attached cb1 (vars w1)).
  { destruct Hatt0 as (m & o & Hm & Ho & Hvm & Hvo). exists m, o.
    rewrite Hmod, Hvars. done. }
  destruct (IH cb1 (epoch + 1)%Z w1 Hatt1) as (cb2 & w2 & Hrun2 & Hsaves2 & Hc1' & Hc2').
  exists cb2, w2. split; [done|].
  rewrite Hsaves2, Hsaves, Hc1', Hc2', Hc1, Hc2, He1, He2. cbn [saves w0 with_vars].
  unfold model_paths, optimizer_paths. rewrite !flat_map_app, <- !app_assoc. done.
Qed.

Lemma model_saves_for_keys e2p e2p_optim keys k :
  NoDup keys →
  model_saves_for k (flat_map (epoch_saves e2p e2p_optim) keys)
  = if bool_decide (k ∈ keys ∧ is_Some (e2p !! k)) then 1 else 0.
Proof.
  unfold model_saves_for. induction 1 as [|k0 keys Hk0 Hnd IH].
  { cbn. rewrite bool_decide_eq_false_2; [done|]. intros [H _]. by apply elem_of_nil in H. }
  cbn [flat_map]. rewrite List.filter_app, length_app, IH. unfold epoch_saves.
  rewrite List.filter_app, length_app.
  assert (Hopt : length (List.filter (is_model_save k)
            match e2p_optim !! k0 with
            | Some path => [SavedOptimizer k0 path] | None => [] end) = 0)
    by (by destruct (e2p_optim !! k0)).
  rewrite Hopt, Nat.add_0_r.
  destruct (decide (k0 = k)) as [->|Hne].
  - rewrite (bool_decide_eq_false_2 (k ∈ keys ∧ _)) by (by intros [? _]).
    destruct (e2p !! k) as [p|] eqn:Hp; cbn.
    + rewrite !bool_decide_eq_true_2; [done| |done]. split; [left|by eexists].
    + rewrite bool_decide_eq_false_2; [done|]. intros [_ [? ?]]. done.
  - assert (Hmod : length (List.filter (is_model_save k)
            match e2p !! k0 with
            | Some path => [SavedModel k0 path] | None => [] end) = 0).
    { destruct (e2p !! k0); [|done]. cbn. by rewrite bool_decide_eq_false_2. }
    rewrite Hmod. cbn. apply f_equal with (f := λ b : bool, if b then 1 else 0).
    apply bool_decide_ext. rewrite elem_of_cons.
    split; intros [H1 H2]; (split; [|done]);
      first [by right | destruct H1 as [?|?]; [congruence|done]].
Qed.

Lemma optimizer_saves_for_keys e2p e2p_optim keys k :
  NoDup keys →
  optimizer_saves_for k (flat_map (epoch_saves e2p e2p_optim) keys)
  = if bool_decide (k ∈ keys ∧ is_Some (e2p_optim !! k)) then 1 else 0.
Proof.
  unfold optimizer_saves_for. induction 1 as [|k0 keys Hk0 Hnd IH].
  { cbn. rewrite bool_decide_eq_false_2; [done|]. intros [H _]. by apply elem_of_nil in H. }
  cbn [flat_map]. rewrite List.filter_app, length_app, IH. unfold epoch_saves.
  rewrite List.filter_app, length_app.
  assert (Hmod : length (List.filter (is_optimizer_save k)
            match e2p !! k0 with
            | Some path => [SavedModel k0 path] | None => [] end) = 0)
    by (by destruct (e2p !! k0)).
  rewrite Hmod, Nat.add_0_l.
  destruct (decide (k0 = k)) as [->|Hne].
  - rewrite (bool_decide_eq_false_2 (k ∈ keys ∧ _)) by (by intros [? _]).
    destruct (e2p_optim !! k) as [p|] eqn:Hp; cbn.
    + rewrite !bool_decide_eq_true_2; [done| |done]. split; [left|by eexists].
    + rewrite bool_decide_eq_false_2; [done|]. intros [_ [? ?]]. done.
  - assert (Hopt : length (List.filter (is_optimizer_save k)
            match e2p_optim !! k0 with
            | Some path => [SavedOptimizer k0 path] | None => [] end) = 0).
    { destruct (e2p_optim !! k0); [|done]. cbn. by rewrite bool_decide_eq_false_2. }
    rewrite Hopt. cbn. apply f_equal with (f := λ b : bool, if b then 1 else 0).
    apply bool_decide_ext. rewrite elem_of_cons.
    split; intros [H1 H2]; (split; [|done]);
      first [by right | destruct H1 as [?|?]; [congruence|done]].
Qed.

(** ** The properties of the specification *)

(** C1, as the code has it. Over a training run of [epochs] epochs, whose
    hook is called with the indices [0] to [epochs - 1], the callback saves
    the model, respectively the optimizer, exactly once for every key of the
    corresponding mapping that lies between [1] and [epochs], and never for
    any other key; the paths it lists as created are those of these saves. *)
Theorem checkpoint_saves_once_per_reached_key cb (epochs : nat) w :
  attached cb (vars w) →
  ∃ cb' w' new,
    fit cb epochs w = (Ok cb', w') ∧
    saves w' = saves w ++ new ∧
    created_model_ckp cb' = created_model_ckp cb ++ model_paths new ∧
    created_optim_ckp cb' = created_optim_ckp cb ++ optimizer_paths new ∧
    ∀ k : Z,
      model_saves_for k new
      = (if bool_decide (is_Some (epoch2path cb !! k) ∧ (1 ≤ k ≤ Z.of_nat epochs)%Z)
         then 1 else 0) ∧
      optimizer_saves_for k new
      = (if bool_decide (is_Some (epoch2path_optim cb !! k) ∧ (1 ≤ k ≤ Z.of_nat epochs)%Z)
         then 1 else 0).
Proof.
  intros Hatt.
  destruct (run_epochs_run cb 0 epochs w Hatt) as (cb' & w' & Hrun & Hsaves & Hc1 & Hc2).
  eexists cb', w', _. repeat split; try done.
  - rewrite model_saves_for_keys by apply NoDup_hook_keys.
    apply f_equal with (f := λ b : bool, if b then 1 else 0).
    apply bool_decide_ext. rewrite elem_of_hook_keys.
    split; intros [? ?]; split; (done || lia).
  - rewrite optimizer_saves_for_keys by apply NoDup_hook_keys.
    apply f_equal with (f := λ b : bool, if b then 1 else 0).
    apply bool_decide_ext. rewrite elem_of_hook_keys.
    split; intros [? ?]; split; (done || lia).
Qed.

(** C2, as the code has it. With a non-empty path to a checkpoint that fits
    the model, [reset_weights_to_checkpoint] returns and, for a keyword that
    is absent or non-empty, gives every weight whose name does not contain
    the keyword the checkpoint's tensor, leaves every weight whose name
    contains it as it was, and returns the number of weights left; for the
    empty keyword it gives every weight the checkpoint's tensor and returns
    0, although every name contains the empty string. *)
Theorem reset_restores_checkpoint model path kw ts w :
  NoDup (weights model) →
  path ≠ "" →
  files w !! path = Some (H5Weights ts) →
  compatible w model ts →
  ∃ skipped w',
    reset_weights_to_checkpoint model (Some path) kw w = (Ok skipped, w') ∧
    (kw ≠ Some "" →
     skipped = length (named_with w kw (weights model)) ∧
     ∀ (i : nat) (r : ref) v t,
       weights model !! i = Some r → vars w !! r = Some v → ts !! i = Some t →
       vars w' !! r
       = Some (if name_contains kw (name v) then v else mkVar (name v) t)) ∧
    (kw = Some "" →
     skipped = 0 ∧
     ∀ (i : nat) (r : ref) v t,
       weights model !! i = Some r → vars w !! r = Some v → ts !! i = Some t →
       name_contains kw (name v) = true ∧
       vars w' !! r = Some (mkVar (name v) t)).
Proof.
  intros Hnd Hpath Hfile Hc.
  assert (Hne : nonempty path = true).
  { unfold nonempty. by destruct (String.eqb_spec path ""). }
  pose proof (compatible_valid _ _ _ Hc) as Hv.
  eexists _, _. split; [exact (reset_with_load_run _ _ kw _ _ Hne Hfile Hc)|].
  assert (Hlookup : ∀ (i : nat) (r : ref) v t,
            weights model !! i = Some r → vars w !! r = Some v → ts !! i = Some t →
            copy_pairs (not_skipped kw)
              (zip (weights model) (seq (length (vars w)) (length (weights model))))
              (vars w ++ zip_with (λ v t, mkVar (name v) t)
                           (fresh_vars (vars w) (length (vars w)) (weights model)) ts) !! r
            = Some (if skips kw (name v) then v else mkVar (name v) t)).
  { intros i r v t Hi Hr Ht.
    destruct (lookup_lt_is_Some_2 (fresh_vars (vars w) (length (vars w)) (weights model)) i)
      as [x Hx].
    { unfold fresh_vars. rewrite build_vars_length by done. by eapply lookup_lt_Some. }
    rewrite (reset_tail_lookup kw _ _ _ i r v (mkVar (name x) t) Hv Hnd Hi Hr); [done|].
    apply lookup_zip_with_Some. by exists x, t. }
  split.
  - intros Hkw. split; [by apply skipped_count_named|].
    intros i r v t Hi Hr Ht. cbn [vars].
    rewrite (Hlookup i r v t Hi Hr Ht). by rewrite skips_name_contains.
  - intros ->. split.
    + unfold skipped_count. rewrite (List.filter_ext _ (λ _, false)).
      * generalize (weights model). intros l. by induction l.
      * intros r. unfold skipped_ref. by destruct (_ !! r).
    + intros i r v t Hi Hr Ht. split.
      * cbn. by destruct (name v).
      * cbn [vars]. by rewrite (Hlookup i r v t Hi Hr Ht).
Qed.

(** C3. Cloning a model and then cloning the clone gives, each time, a
    model of its own over variables made for it, none of which existed
    before; weight by weight the clone and the clone of the clone hold the
    name and value of the original's variable, every variable that existed
    keeps its own, and no pair is skipped on the way.  The copying is that of
    [set_all_weights_from_model] on the framework's clone and the original,
    two separate models; and whenever it walks over two separate models, a
    pair of equal shapes is copied while a pair of different shapes is left
    alone and reported by a warning. *)
Theorem clone_of_clone_keeps_weights :
  (∀ m w, valid (vars w) (weights m) →
     ∃ m1 w1 m2 w2,
       clone_model m w = (Ok m1, w1) ∧
       clone_model m1 w1 = (Ok m2, w2) ∧
       (NoDup (weights m1) ∧ NoDup (weights m2) ∧
        length (weights m1) = length (weights m) ∧
        length (weights m2) = length (weights m)) ∧
       (∀ r : ref, r ∈ weights m1 → length (vars w) ≤ r < length (vars w1)) ∧
       (∀ r : ref, r ∈ weights m2 → length (vars w1) ≤ r < length (vars w2)) ∧
       (∀ r : ref, r < length (vars w) →
          vars w1 !! r = vars w !! r ∧ vars w2 !! r = vars w !! r) ∧
       (∀ (i : nat) (r r1 r2 : ref),
          weights m !! i = Some r → weights m1 !! i = Some r1 → weights m2 !! i = Some r2 →
          ∃ v, vars w !! r = Some v ∧
               vars w1 !! r1 = Some v ∧
               vars w2 !! r1 = Some v ∧ vars w2 !! r2 = Some v) ∧
       weight_values w1 m1 = weight_values w m ∧
       weight_values w2 m2 = weight_values w m ∧
       Forall is_Some (weight_values w m) ∧
       stdout w2 = stdout w)
  ∧
  (∀ m w, valid (vars w) (weights m) →
     ∃ new w0 w1,
       keras_clone_model m w = (Ok new, w0) ∧
       set_all_weights_from_model new m w0 = (Ok tt, w1) ∧
       clone_model m w = (Ok new, w1) ∧
       separate new m ∧
       valid (vars w0) (weights new) ∧ valid (vars w0) (weights m))
  ∧
  (∀ model source_model w (i : nat) (r1 r2 : ref) v1 v2,
     valid (vars w) (weights model) → valid (vars w) (weights source_model) →
     separate model source_model →
     weights model !! i = Some r1 → weights source_model !! i = Some r2 →
     vars w !! r1 = Some v1 → vars w !! r2 = Some v2 →
     ∃ w',
       set_all_weights_from_model model source_model w = (Ok tt, w') ∧
       if decide (shape (value v1) = shape (value v2))
       then vars w' !! r1 = Some (mkVar (name v1) (value v2))
       else vars w' !! r1 = Some v1 ∧
            WarningSkipping (name v1) (shape (value v1)) (shape (value v2))
              ∈ stdout w').
Proof.
  split; [|split].
  - intros m w Hv.
    destruct (clone_model_copy m w Hv)
      as (m1 & w1 & Hc1 & Hw1 & Hl1 & Hcopy1 & Hold1 & Hval1 & Ho1).
    assert (Hv1 : valid (vars w1) (weights m1)).
    { rewrite Hw1. apply Forall_forall. intros r Hr. apply elem_of_seq in Hr. lia. }
    destruct (clone_model_copy m1 w1 Hv1)
      as (m2 & w2 & Hc2 & Hw2 & Hl2 & Hcopy2 & Hold2 & Hval2 & Ho2).
    assert (Hlen1 : length (weights m1) = length (weights m)) by (by rewrite Hw1, length_seq).
    exists m1, w1, m2, w2. split; [done|]. split; [done|].
    split.
    { rewrite Hw1, Hw2, !length_seq. repeat split; try apply NoDup_seq. done. }
    split. { intros r Hr. rewrite Hw1 in Hr. apply elem_of_seq in Hr. lia. }
    split. { intros r Hr. rewrite Hw2 in Hr. apply elem_of_seq in Hr. lia. }
    split. { intros r Hr. split; [by apply Hold1|]. rewrite Hold2 by lia. by apply Hold1. }
    split.
    { intros i r r1 r2 Hi Hi1 Hi2.
      destruct (Hcopy1 i r Hi) as (v & Hr & Hr1).
      destruct (Hcopy2 i r1 Hi1) as (v' & Hr1' & Hr2).
      rewrite Hw1 in Hi1. apply lookup_seq in Hi1 as [-> _].
      rewrite Hw2 in Hi2. apply lookup_seq in Hi2 as [-> _].
      rewrite Hr1 in Hr1'. injection Hr1' as <-.
      exists v. split; [done|]. split; [done|]. split; [|done].
      rewrite Hold2; [done|]. by eapply lookup_lt_Some. }
    split; [done|]. split; [by rewrite Hval2|]. split; [|by rewrite Ho2].
    unfold weight_values. apply Forall_fmap, Forall_forall. intros r Hr. cbn.
    destruct (valid_lookup _ _ r Hv Hr) as [v ->]. by eexists.
  - intros m w Hv. by apply clone_model_steps.
  - intros model source_model w i r1 r2 v1 v2 Hv1 Hv2 Hsep Hi1 Hi2 Hr1 Hr2.
    eexists. split; [by apply set_all_weights_from_model_run|].
    cbn [vars stdout].
    destruct (separate_zip _ _ Hsep) as [Hnd Hdisj].
    assert (Hi : zip (weights model) (weights source_model) !! i = Some (r1, r2)).
    { apply lookup_zip_with_Some. by exists r1, r2. }
    rewrite (copy_pairs_selected _ _ _ i r1 r2 v1 v2 Hnd Hdisj Hi Hr1 Hr2).
    unfold same_shape. destruct (decide _) as [Hs|Hs].
    + by rewrite bool_decide_eq_true_2.
    + rewrite bool_decide_eq_false_2 by done. split; [done|].
      apply elem_of_app. right. apply elem_of_warnings.
      exists (r1, r2), (signature v1), (signature v2). cbn [fst snd].
      rewrite !list_lookup_fmap, Hr1, Hr2.
      repeat split; try done. by eapply list_elem_of_lookup_2.
Qed.

(** C4, as the code has it. [tf.clip_by_value] converts the bounds to the
    dtype of the tensors. When the converted bounds are in order,
    [clip_many] clips every tensor to them: shape and names are kept, an
    entry between the converted bounds is kept, an entry below them becomes
    the converted lower bound and one above them the converted upper bound;
    so every entry ends between the converted bounds, and a second
    application changes nothing: in place, on the variables of the
    collection and on no other, and in the value-returning mode, on the
    tensors it returns. *)
Theorem clip_many_bounds_and_idempotent (rs : list ref) values clip_at clip_from w :
  let low := cast (default (- clip_at)%Q clip_from) in
  let high := cast clip_at in
  (low <= high)%Q →
  valid (vars w) rs → valid_arrays (vars w) values →
  (∃ w',
     clip_many (Var <$> rs) clip_at clip_from true w = (Ok None, w') ∧
     (∀ (r : ref) v, r ∈ rs → vars w !! r = Some v →
        ∃ v', vars w' !! r = Some v' ∧ name v' = name v ∧
              clipped low high (value v) (value v') ∧
              within low high (value v')) ∧
     (∀ r : ref, r ∉ rs → vars w' !! r = vars w !! r) ∧
     clip_many (Var <$> rs) clip_at clip_from true w' = (Ok None, w'))
  ∧
  (∃ out,
     clip_many values clip_at clip_from false w = (Ok (Some out), w) ∧
     Forall2 (clipped low high) (tensors_of (vars w) values) out ∧
     Forall (within low high) out ∧
     clip_many (Const <$> out) clip_at clip_from false w = (Ok (Some out), w)).
Proof.
  intros low high Hle Hv Hva. split.
  - eexists. split; [by apply clip_many_inplace_run|]. cbn [vars]. split; [|split].
    + intros r v Hr Hrv. rewrite clip_refs_lookup, decide_True, Hrv by done.
      eexists. split; [done|]. split; [done|]. cbn.
      split; [by apply clip_by_value_clipped|by apply clip_by_value_within].
    + intros r Hr. by rewrite clip_refs_lookup, decide_False.
    + rewrite clip_many_inplace_run; cbn [vars files dirs stdout policy saves].
      * by rewrite clip_refs_idem.
      * unfold valid. by rewrite clip_refs_length.
  - eexists. split; [by apply clip_many_value_run|]. split; [|split].
    + apply Forall2_fmap_r, Forall_Forall2_diag, Forall_forall. intros t _.
      by apply clip_by_value_clipped.
    + apply Forall_fmap, Forall_forall. intros t _. cbn.
      by apply clip_by_value_within.
    + rewrite clip_many_value_run by apply valid_arrays_Const.
      rewrite tensors_of_Const. do 3 f_equal. rewrite <- list_fmap_compose.
      apply list_fmap_ext. intros i t _. cbn. apply clip_by_value_idem.
Qed.

(** C5. When the pickled state is one that the optimizer rejects, the
    list that its class hands to the base class having another length than
    the optimizer's weights or a tensor of another shape, [update_optimizer]
    returns normally: it prints its warning and the exception and leaves
    every variable, those of the optimizer included, as it was. *)
Theorem update_optimizer_rejected_only_warns o path ws w :
  valid (vars w) (opt_weights o) →
  files w !! path = Some (Pickled ws) →
  rejects w o ws →
  ∃ w',
    update_optimizer o path w = (Ok tt, w') ∧
    stdout w' = stdout w ++ [WarningEmptyOptimizer; ExceptionText ValueError] ∧
    vars w' = vars w ∧
    values_at (vars w') (opt_weights o) = values_at (vars w) (opt_weights o).
Proof.
  intros Hv Hfile Hrej. eexists. split; [|split; [|split]].
  - unfold update_optimizer.
    rewrite (bind_ok _ _ w ws w) by (unfold pickle_load; by rewrite Hfile).
    unfold try_except_ValueError. rewrite (set_weights_rejects _ _ _ Hv Hrej).
    reflexivity.
  - cbn. by rewrite <- app_assoc.
  - done.
  - done.
Qed.

(** C6. Called with a dataset name that it does not know and without an
    input shape or without a class count, [ResNetStiff] fails its assertion:
    no graph is built and nothing changes. *)
Theorem ResNetStiff_asserts_configuration
    dataset alias input_shape n_classes features BLOCKS_IN_GROUP w :
  dataset ≠ Some "cifar" → dataset ≠ Some "cifar10" →
  dataset ≠ Some "cifar100" → dataset ≠ Some "mnist" →
  input_shape = None ∨ n_classes = None →
  ResNetStiff dataset alias input_shape n_classes features BLOCKS_IN_GROUP w
  = (Raise AssertionError, w).
Proof.
  intros H1 H2 H3 H4 Hnone. unfold ResNetStiff.
  rewrite !bool_decide_eq_false_2 by (done || by intros [?|?]).
  destruct Hnone as [->| ->]; [done|]. by destruct input_shape.
Qed.

(** C7. A precision other than 16, 32 and 64 makes [set_precision] raise a
    name error after its announcement, the policy being left as it was; an
    alias other than ['crossentropy'] makes [get_loss_fn_from_alias] raise a
    not-implemented error. *)
Theorem unknown_precision_or_alias_raises :
  (∀ precision w,
     precision ≠ 16%Z → precision ≠ 32%Z → precision ≠ 64%Z →
     ∃ w',
       set_precision precision w = (Raise (NameError precision), w') ∧
       policy w' = policy w ∧
       w' = with_stdout (λ o, o ++ [SettingPrecision precision]) w)
  ∧
  (∀ alias w,
     alias ≠ "crossentropy" →
     get_loss_fn_from_alias alias w = (Raise (NotImplementedError alias), w)).
Proof.
  split.
  - intros precision w H16 H32 H64.
    exists (with_stdout (λ o, o ++ [SettingPrecision precision]) w). split; [|done].
    unfold set_precision.
    rewrite (bind_ok _ _ w tt (with_stdout (λ o, o ++ [SettingPrecision precision]) w)) by done.
    by rewrite !decide_False by done.
  - intros alias w Halias. unfold get_loss_fn_from_alias.
    by destruct (String.eqb_spec alias "crossentropy").
Qed.

(** C8. Without a checkpoint path, [reset_weights_to_checkpoint] gives every
    weight that it does not skip the newly initialised value of the matching
    variable of the temporary clone; the files play no part. *)
Theorem reset_without_checkpoint_reinitialises model kw w :
  valid (vars w) (weights model) → NoDup (weights model) →
  ∃ skipped w',
    reset_weights_to_checkpoint model None kw w = (Ok skipped, w') ∧
    (∀ (i : nat) (r : ref) v,
       weights model !! i = Some r → vars w !! r = Some v →
       skips kw (name v) = false →
       let temp_ref := length (vars w) + i in
       let init := mkTensor (shape (value v)) (initializer temp_ref (shape (value v))) in
       vars w' !! temp_ref = Some (mkVar (name v) init) ∧
       vars w' !! r = Some (mkVar (name v) init)) ∧
    (∀ fs, reset_weights_to_checkpoint model None kw (with_files (λ _, fs) w)
           = (Ok skipped, with_files (λ _, fs) w')).
Proof.
  intros Hv Hnd. eexists _, _. split; [|split].
  - apply reset_without_load_run; [done|by left].
  - intros i r v Hi Hr Hskip temp_ref init. cbn [vars].
    assert (Hx : fresh_vars (vars w) (length (vars w)) (weights model) !! i
                 = Some (fresh_var temp_ref v)).
    { unfold fresh_vars. by rewrite (build_vars_lookup _ _ _ _ _ _ _ Hv Hi Hr). }
    split.
    + rewrite copy_pairs_other.
      * rewrite lookup_app_r by (unfold temp_ref; lia).
        replace (temp_ref - length (vars w)) with i by (unfold temp_ref; lia).
        by rewrite Hx.
      * rewrite fst_zip by (by rewrite length_seq). intros Hin.
        unfold valid in Hv. rewrite Forall_forall in Hv. apply Hv in Hin.
        unfold temp_ref in Hin. lia.
    + rewrite (reset_tail_lookup kw _ _ _ i r v _ Hv Hnd Hi Hr Hx).
      by rewrite Hskip.
  - intros fs. by rewrite reset_without_load_run; [|done|by left].
Qed.

(** C9, as the code has it. When [set_all_weights_from_model] is given two
    models with different numbers of weights, it behaves as on the two weight
    lists cut to the shorter length; every variable that is not one of the
    destination's weights within that length keeps its value, so an excess
    weight of either model is left alone unless it is also such a weight, as
    it never is when the two models are separate; and every line printed is
    the warning of a pair within that length. *)
Theorem set_all_weights_ignores_excess model source_model w :
  valid (vars w) (weights model) → valid (vars w) (weights source_model) →
  let n := length (weights model) `min` length (weights source_model) in
  ∃ w' printed,
    set_all_weights_from_model model source_model w = (Ok tt, w') ∧
    set_all_weights_from_model
      (mkModel (take n (weights model)) (optimizer model))
      (mkModel (take n (weights source_model)) (optimizer source_model)) w
    = (Ok tt, w') ∧
    (∀ r : ref, r ∉ take n (weights model) → vars w' !! r = vars w !! r) ∧
    (separate model source_model →
     (∀ (i : nat) (r : ref), n ≤ i → weights model !! i = Some r →
        vars w' !! r = vars w !! r) ∧
     (∀ (i : nat) (r : ref), n ≤ i → weights source_model !! i = Some r →
        vars w' !! r = vars w !! r)) ∧
    stdout w' = stdout w ++ printed ∧
    (∀ l, l ∈ printed →
       ∃ (i : nat) (r1 r2 : ref) v1 v2,
         i < n ∧ weights model !! i = Some r1 ∧ weights source_model !! i = Some r2 ∧
         vars w !! r1 = Some v1 ∧ vars w !! r2 = Some v2 ∧
         shape (value v1) ≠ shape (value v2) ∧
         l = WarningSkipping (name v1) (shape (value v1)) (shape (value v2))).
Proof.
  intros Hv1 Hv2 n.
  set (ps := zip (weights model) (weights source_model)).
  exists (mkWorld (copy_pairs same_shape ps (vars w)) (files w) (dirs w)
            (stdout w ++ warnings (signature <$> vars w) ps) (policy w) (saves w)),
         (warnings (signature <$> vars w) ps).
  split; [by apply set_all_weights_from_model_run|].
  split.
  { rewrite set_all_weights_from_model_unfold. cbn [weights].
    rewrite zip_with_take_both' by done.
    rewrite <- set_all_weights_from_model_unfold.
    by apply set_all_weights_from_model_run. }
  cbn [vars stdout].
  assert (Hps1 : ps.*1 = take n (weights model)).
  { unfold ps. rewrite zip_fst_take. unfold n.
    destruct (Nat.min_spec (length (weights model)) (length (weights source_model)))
      as [[Hlt ->]|[Hle ->]]; [|done].
    by rewrite !firstn_all2 by lia. }
  assert (Hother : ∀ r : ref, r ∉ take n (weights model) →
            copy_pairs same_shape ps (vars w) !! r = vars w !! r).
  { intros r Hr. apply copy_pairs_other. by rewrite Hps1. }
  split; [exact Hother|]. split; [|split; [done|]].
  - intros [Hnd Hdisj]. split.
    + intros i r Hi Hr. apply Hother.
      intros Hin. apply elem_of_take in Hin as (j & Hj & Hjn).
      assert (i = j) by (eapply NoDup_lookup; done). lia.
    + intros i r Hi Hr. apply Hother.
      intros Hin. apply elem_of_take in Hin as (j & Hj & Hjn).
      eapply Hdisj; by eapply list_elem_of_lookup_2.
  - intros l Hl. apply elem_of_warnings in Hl
      as (p & s1 & s2 & Hp & H1 & H2 & Hne & ->).
    apply list_elem_of_lookup in Hp as [i Hi].
    pose proof (lookup_lt_Some _ _ _ Hi) as Hlt.
    apply lookup_zip_with_Some in Hi as (r1 & r2 & -> & Hx & Hy).
    cbn [fst snd] in *. rewrite list_lookup_fmap in H1, H2.
    destruct (vars w !! r1) as [v1|] eqn:Hr1; [|done].
    destruct (vars w !! r2) as [v2|] eqn:Hr2; [|done].
    cbn in H1, H2. simplify_eq. exists i, r1, r2, v1, v2.
    repeat split; try done.
    unfold ps in Hlt. rewrite length_zip_with in Hlt. done.
Qed.

(** X21. Without [inplace], [clip_many] returns a list as long as its input
    and changes nothing; with [inplace], on a collection of variables, it
    returns no value, and on a collection that holds anything else it raises
    an attribute error at the first such element. *)
Theorem clip_many_results (rs : list ref) values t rest clip_at clip_from w :
  valid (vars w) rs → valid_arrays (vars w) values →
  (∃ out,
     clip_many values clip_at clip_from false w = (Ok (Some out), w) ∧
     length out = length values)
  ∧ (∃ w', clip_many (Var <$> rs) clip_at clip_from true w = (Ok None, w'))
  ∧ (∃ w', clip_many ((Var <$> rs) ++ Const t :: rest) clip_at clip_from true w
           = (Raise AttributeError, w')).
Proof.
  intros Hv Hva. split; [|split].
  - eexists. split; [by apply clip_many_value_run|].
    by rewrite length_fmap, tensors_of_length.
  - eexists. by apply clip_many_inplace_run.
  - pose proof (clip_many_inplace_run rs clip_at clip_from w Hv) as Hrun.
    unfold clip_many in *. unfold bind in Hrun |- *.
    match type of Hrun with
    | context [for_each ?body ?l w] => destruct (for_each body l w) as [[[]|e] w1] eqn:Hloop
    end; [|done].
    rewrite (for_each_app _ _ _ _ _ Hloop). cbn. by eexists.
Qed.

(** ** Further properties of the helpers *)

(** *** Assigning a list of tensors *)

Lemma fits_valid vs rs ts : fits vs rs ts → valid vs rs.
Proof.
  intros Hf. apply Forall_forall. intros r Hr.
  apply list_elem_of_lookup in Hr as [i Hi].
  destruct (Forall2_lookup_l _ _ _ _ _ Hf Hi) as (t & _ & v & Hv & _).
  by eapply lookup_lt_Some.
Qed.

Lemma fits_alter vs (r0 : ref) v0 t0 rs ts :
  vs !! r0 = Some v0 → shape (value v0) = shape t0 →
  fits vs rs ts → fits (alter (λ v, mkVar (name v) t0) r0 vs) rs ts.
Proof.
  intros Hr0 Hs Hf. eapply Forall2_impl; [exact Hf|].
  intros r t (v & Hv & Hsh). cbn beta. rewrite list_lookup_alter.
  destruct (decide (r0 = r)) as [->|].
  - rewrite Hv. simplify_eq. cbn. eexists. split; [done|]. cbn. congruence.
  - by exists v.
Qed.

Lemma write_all_length ps vs : length (write_all ps vs) = length vs.
Proof.
  revert vs. induction ps as [|p ps IH]; intros vs; [done|].
  unfold write_all in *. cbn. rewrite IH. unfold write_step. by rewrite length_alter.
Qed.

Lemma write_all_other ps vs (r : ref) :
  r ∉ ps.*1 → write_all ps vs !! r = vs !! r.
Proof.
  revert vs. induction ps as [|p ps IH]; intros vs Hr; [done|].
  rewrite fmap_cons, not_elem_of_cons in Hr. destruct Hr as [Hr1 Hr2].
  unfold write_all in *. cbn. rewrite IH by done.
  unfold write_step. by rewrite list_lookup_alter_ne.
Qed.

Lemma write_all_written ps (vs : list TfVariable) (i : nat) (r : ref) t v :
  NoDup ps.*1 → ps !! i = Some (r, t) → vs !! r = Some v →
  write_all ps vs !! r = Some (mkVar (name v) t).
Proof.
  revert vs i. induction ps as [|p ps IH]; intros vs i Hnd Hi Hr; [done|].
  rewrite fmap_cons in Hnd. apply NoDup_cons in Hnd as [Hp Hnd].
  unfold write_all in *. cbn [foldl]. destruct i as [|i]; cbn in Hi.
  - simplify_eq. fold (write_all ps (write_step vs (r, t))).
    rewrite write_all_other by done. unfold write_step. cbn.
    by rewrite list_lookup_alter, decide_True, Hr by done.
  - assert (Hin : r ∈ ps.*1).
    { apply list_elem_of_fmap. exists (r, t). split; [done|].
      by eapply list_elem_of_lookup_2. }
    assert (Hr' : write_step vs p !! r = Some v).
    { unfold write_step. rewrite list_lookup_alter_ne; [done|].
      intros Heq. apply Hp. by rewrite Heq. }
    exact (IH _ i Hnd Hi Hr').
Qed.

Lemma assign_all_run rs ts w :
  fits (vars w) rs ts →
  for_each (λ p : ref * Tensor, assign p.1 p.2) (zip rs ts) w
  = (Ok tt, mkWorld (write_all (zip rs ts) (vars w)) (files w) (dirs w) (stdout w)
              (policy w) (saves w)).
Proof.
  intros Hf. revert w Hf.
  induction rs as [|r rs IH] in ts |- *; intros w Hf.
  { cbn. unfold ret. by destruct w. }
  destruct ts as [|t ts]; [by apply Forall2_cons_nil_inv in Hf|].
  apply Forall2_cons in Hf as [(v & Hv & Hs) Hf].
  cbn [zip_with for_each fst snd].
  rewrite (bind_ok _ _ _ _ _ (assign_ok _ _ v t Hv Hs)).
  rewrite IH; [done|]. cbn. by apply (fits_alter _ _ v).
Qed.

Lemma values_at_length vs rs : valid vs rs → length (values_at vs rs) = length rs.
Proof.
  intros Hv. unfold values_at, copied_vars. by rewrite length_fmap, build_vars_length.
Qed.

Lemma values_at_lookup vs (rs : list ref) (i : nat) (r : ref) v :
  valid vs rs → rs !! i = Some r → vs !! r = Some v →
  values_at vs rs !! i = Some (value v).
Proof.
  intros Hv Hi Hr. unfold values_at, copied_vars.
  by rewrite list_lookup_fmap, (build_vars_lookup _ _ _ _ _ _ _ Hv Hi Hr).
Qed.

Lemma fits_shapes vs rs ts :
  fits vs rs ts → shape <$> values_at vs rs = shape <$> ts.
Proof.
  intros Hf. pose proof (fits_valid _ _ _ Hf) as Hv.
  pose proof (Forall2_length _ _ _ Hf) as Hlen.
  apply list_eq. intros i. rewrite !list_lookup_fmap.
  destruct (rs !! i) as [r|] eqn:Hi.
  - destruct (Forall2_lookup_l _ _ _ _ _ Hf Hi) as (t & Ht & v & Hr & Hs).
    rewrite (values_at_lookup _ _ _ _ _ Hv Hi Hr), Ht. cbn. by rewrite Hs.
  - apply lookup_ge_None in Hi.
    rewrite (proj2 (lookup_ge_None (values_at vs rs) i))
      by (by rewrite values_at_length).
    by rewrite (proj2 (lookup_ge_None ts i)) by lia.
Qed.

Lemma shapes_fits vs vs0 rs :
  valid vs rs → valid vs0 rs →
  shape <$> values_at vs rs = shape <$> values_at vs0 rs →
  fits vs rs (values_at vs0 rs).
Proof.
  intros Hv Hv0 Hsh. apply Forall2_same_length_lookup_2.
  { by rewrite values_at_length. }
  intros i r t Hi Ht.
  destruct (valid_lookup _ _ r Hv) as [v Hr]; [by eapply list_elem_of_lookup_2|].
  exists v. split; [done|].
  assert (H : (shape <$> values_at vs rs) !! i = Some (shape (value v)))
    by (by rewrite list_lookup_fmap, (values_at_lookup _ _ _ _ _ Hv Hi Hr)).
  rewrite Hsh, list_lookup_fmap, Ht in H. cbn in H. by simplify_eq.
Qed.

Lemma values_at_write_all vs rs ts :
  NoDup rs → fits vs rs ts → values_at (write_all (zip rs ts) vs) rs = ts.
Proof.
  intros Hnd Hf. pose proof (fits_valid _ _ _ Hf) as Hv.
  pose proof (Forall2_length _ _ _ Hf) as Hlen.
  assert (Hv' : valid (write_all (zip rs ts) vs) rs)
    by (unfold valid; by rewrite write_all_length).
  apply list_eq. intros i. destruct (rs !! i) as [r|] eqn:Hi.
  - destruct (Forall2_lookup_l _ _ _ _ _ Hf Hi) as (t & Ht & v & Hr & Hs).
    rewrite (values_at_lookup _ _ _ _ (mkVar (name v) t) Hv' Hi); [by rewrite Ht|].
    apply (write_all_written _ _ i); [|by apply lookup_zip_with_Some; exists r, t|done].
    by rewrite fst_zip by lia.
  - apply lookup_ge_None in Hi.
    rewrite (proj2 (lookup_ge_None (values_at _ rs) i))
      by (by rewrite values_at_length).
    by rewrite (proj2 (lookup_ge_None ts i)) by lia.
Qed.

(** A state as long as the optimizer's weights goes to the base class as it
    is, whatever the class. *)
Lemma state_for_same_length o ws :
  length (opt_weights o) = length ws → state_for o ws = ws.
Proof.
  intros Hlen. unfold state_for. destruct (opt_class o); [|case_decide; [lia|done]|done].
  case_decide; [|done]. rewrite Hlen. apply firstn_all.
Qed.

Lemma set_weights_fits_run o ws w :
  fits (vars w) (opt_weights o) ws →
  set_weights o ws w
  = (Ok tt, mkWorld (write_all (zip (opt_weights o) ws) (vars w)) (files w) (dirs w)
              (stdout w) (policy w) (saves w)).
Proof.
  intros Hf. unfold set_weights, base_set_weights.
  rewrite state_for_same_length by (by eapply Forall2_length).
  rewrite decide_True by (by eapply Forall2_length).
  rewrite (bind_ok _ _ _ _ _ (get_weights_run _ _ (fits_valid _ _ _ Hf))).
  rewrite decide_True by (by apply fits_shapes).
  by apply assign_all_run.
Qed.

(** X1. When the pickled state fits the optimizer, [update_optimizer] gives
    the optimizer's variables the pickled tensors, prints nothing and touches
    neither another variable nor a file. *)
Theorem update_optimizer_loads_fitting_state o path ws w :
  NoDup (opt_weights o) →
  files w !! path = Some (Pickled ws) →
  fits (vars w) (opt_weights o) ws →
  ∃ w',
    update_optimizer o path w = (Ok tt, w') ∧
    values_at (vars w') (opt_weights o) = ws ∧
    (∀ r : ref, r ∉ opt_weights o → vars w' !! r = vars w !! r) ∧
    stdout w' = stdout w ∧ files w' = files w.
Proof.
  intros Hnd Hfile Hf.
  exists (mkWorld (write_all (zip (opt_weights o) ws) (vars w)) (files w) (dirs w)
            (stdout w) (policy w) (saves w)).
  split; [|split; [|split; [|done]]].
  - unfold update_optimizer.
    rewrite (bind_ok _ _ w ws w) by (unfold pickle_load; by rewrite Hfile).
    unfold try_except_ValueError. by rewrite (set_weights_fits_run _ _ _ Hf).
  - by apply values_at_write_all.
  - intros r Hr. cbn. apply write_all_other.
    by rewrite fst_zip by (by rewrite (Forall2_length _ _ _ Hf)).
Qed.

(** X2. What [save_optimizer] wrote, [update_optimizer] brings back: as long
    as the file is still the saved one and the optimizer's variables kept
    their shapes, the optimizer gets the values it had when it was saved,
    without a warning. *)
Theorem save_then_update_optimizer_restores o path w w2 :
  valid (vars w) (opt_weights o) → NoDup (opt_weights o) →
  files w2 !! path = files (save_optimizer (Some o) path w).2 !! path →
  valid (vars w2) (opt_weights o) →
  shape <$> values_at (vars w2) (opt_weights o)
  = shape <$> values_at (vars w) (opt_weights o) →
  ∃ w1 w3,
    save_optimizer (Some o) path w = (Ok tt, w1) ∧
    update_optimizer o path w2 = (Ok tt, w3) ∧
    values_at (vars w3) (opt_weights o) = values_at (vars w) (opt_weights o) ∧
    stdout w3 = stdout w2.
Proof.
  intros Hv Hnd Hfile Hv2 Hsh.
  rewrite (save_optimizer_run _ _ _ Hv) in Hfile. cbn in Hfile.
  rewrite lookup_insert_eq in Hfile.
  pose proof (shapes_fits _ _ _ Hv2 Hv Hsh) as Hf.
  eexists _, _. split; [by apply save_optimizer_run|].
  split; [|split].
  - unfold update_optimizer.
    rewrite (bind_ok _ _ w2 _ w2) by (unfold pickle_load; by rewrite Hfile).
    unfold try_except_ValueError. by rewrite (set_weights_fits_run _ _ _ Hf).
  - by apply values_at_write_all.
  - done.
Qed.

(** *** Saving a model and resetting to what was saved *)

(** X3. What [save_model] wrote, [reset_weights_to_checkpoint] brings back:
    as long as the file is still the saved one and the model's variables
    kept their shapes, every weight that is not skipped gets the value it had
    when the model was saved, and a skipped one keeps its current value. *)
Theorem save_then_reset_restores model path kw w w2 :
  valid (vars w) (weights model) → NoDup (weights model) → path ≠ "" →
  files w2 !! path = files (save_model (Some model) path w).2 !! path →
  valid (vars w2) (weights model) →
  shape <$> values_at (vars w2) (weights model)
  = shape <$> values_at (vars w) (weights model) →
  ∃ w1 skipped w3,
    save_model (Some model) path w = (Ok tt, w1) ∧
    reset_weights_to_checkpoint model (Some path) kw w2 = (Ok skipped, w3) ∧
    ∀ (i : nat) (r : ref) v0 v2,
      weights model !! i = Some r → vars w !! r = Some v0 → vars w2 !! r = Some v2 →
      vars w3 !! r
      = Some (if skips kw (name v2) then v2 else mkVar (name v2) (value v0)).
Proof.
  intros Hv Hnd Hpath Hfile Hv2 Hsh.
  rewrite (save_model_run _ _ _ Hv) in Hfile. cbn in Hfile.
  rewrite lookup_insert_eq in Hfile.
  pose proof (shapes_fits _ _ _ Hv2 Hv Hsh) as Hf.
  assert (Hne : nonempty path = true).
  { unfold nonempty. by destruct (String.eqb_spec path ""). }
  eexists _, _, _. split; [by apply save_model_run|].
  split; [exact (reset_with_load_run _ _ kw _ _ Hne Hfile Hf)|].
  intros i r v0 v2 Hi Hr0 Hr2. cbn [vars].
  destruct (lookup_lt_is_Some_2 (fresh_vars (vars w2) (length (vars w2)) (weights model)) i)
    as [x Hx].
  { unfold fresh_vars. rewrite build_vars_length by done. by eapply lookup_lt_Some. }
  rewrite (reset_tail_lookup kw _ _ _ i r v2 (mkVar (name x) (value v0)) Hv2 Hnd Hi Hr2).
  - done.
  - apply lookup_zip_with_Some. exists x, (value v0). split; [done|]. split; [done|].
    by apply (values_at_lookup _ _ _ r).
Qed.

Lemma assign_cases r t w :
  assign r t w = (Ok tt, with_vars (alter (λ v, mkVar (name v) t) r) w)
  ∨ ∃ e, assign r t w = (Raise e, w).
Proof.
  unfold assign, bind, read_var. destruct (vars w !! r) as [v|]; [|right; by eexists].
  destruct (decide _); [by left|right; by eexists].
Qed.

(** Whatever a loop of assignments ends with, it has touched nothing but
    the values of the variables it was given. *)
Lemma assign_all_frame rs ts w res w' :
  for_each (λ p : ref * Tensor, assign p.1 p.2) (zip rs ts) w = (res, w') →
  (∀ r : ref, r ∉ rs → vars w' !! r = vars w !! r) ∧
  signature <$> vars w' = signature <$> vars w ∧
  files w' = files w ∧ dirs w' = dirs w ∧ stdout w' = stdout w ∧
  policy w' = policy w ∧ saves w' = saves w.
Proof.
  revert ts w. induction rs as [|r rs IH]; intros ts w Hrun.
  { cbn in Hrun. unfold ret in Hrun. by simplify_eq. }
  destruct ts as [|t ts]; [cbn in Hrun; unfold ret in Hrun; by simplify_eq|].
  cbn [zip_with for_each fst snd] in Hrun. unfold bind in Hrun.
  destruct (assign_cases r t w) as [Hok|[e Herr]].
  - rewrite Hok in Hrun. apply IH in Hrun as (Hother & Hsig & Hrest). cbn in *.
    split; [|split; [|done]].
    + intros r' Hr'. apply not_elem_of_cons in Hr' as [Hne Hr'].
      rewrite Hother by done. by rewrite list_lookup_alter_ne.
    + rewrite Hsig. unfold assign, bind, read_var in Hok.
      destruct (vars w !! r) as [v|] eqn:Hr; [|done].
      destruct (decide (shape (value v) = shape t)) as [Hs|]; [|done].
      by apply (signature_alter _ _ _ v).
  - rewrite Herr in Hrun. by simplify_eq.
Qed.

(** X4. Whatever [reset_weights_to_checkpoint] ends with, it has written no
    file and has left alone every variable that existed before the call and
    is not a weight of the model; when it raises it has changed no variable
    at all and printed nothing.  It raises for a non-empty path without a
    file: [FileNotFoundError] when the path has one of the h5 suffixes, the
    framework's [NotFoundError] otherwise. *)
Theorem reset_touches_only_the_weights model ckp kw w :
  valid (vars w) (weights model) →
  (∀ res w',
     reset_weights_to_checkpoint model ckp kw w = (res, w') →
     files w' = files w ∧
     (∀ r : ref, r < length (vars w) → r ∉ weights model →
                 vars w' !! r = vars w !! r) ∧
     (∀ e, res = Raise e →
           stdout w' = stdout w ∧
           ∀ r : ref, r < length (vars w) → vars w' !! r = vars w !! r))
  ∧
  (∀ path, ckp = Some path → path ≠ "" → files w !! path = None →
           ∃ w', reset_weights_to_checkpoint model ckp kw w
                 = (Raise (if is_hdf5_filepath path
                           then FileNotFoundError else NotFoundError), w')).
Proof.
  intros Hv.
  set (n := length (vars w)). set (rs := weights model).
  set (w1 := with_vars (λ vs, vs ++ fresh_vars vs (length vs) rs) w).
  assert (Hfl : length (fresh_vars (vars w) n rs) = length rs)
    by (unfold fresh_vars; by rewrite build_vars_length).
  assert (Hold : ∀ r : ref, r < n → vars w1 !! r = vars w !! r)
    by (intros r Hr; cbn; by rewrite lookup_app_l).
  split.
  - intros res w' Hrun. rewrite reset_weights_to_checkpoint_unfold in Hrun.
    rewrite (bind_ok _ _ _ _ _ (keras_clone_model_run _ _ Hv)) in Hrun.
    cbn [weights] in Hrun. fold rs n w1 in Hrun.
    (* the optional load: some outcome on the world with the temporary model *)
    match type of Hrun with
    | bind ?load _ _ = _ => destruct (load w1) as [lres w2] eqn:Hload
    end.
    assert (Hframe : (∀ r : ref, r < n → vars w2 !! r = vars w !! r) ∧
              signature <$> vars w2 = signature <$> vars w1 ∧
              files w2 = files w ∧ stdout w2 = stdout w).
    { destruct ckp as [path|]; [destruct (nonempty path)|].
      - unfold load_weights in Hload. cbn [files w1 with_vars weights] in Hload.
        destruct (files w !! path) as [[ts|ts]|];
          [|by simplify_eq|destruct (is_hdf5_filepath path); by simplify_eq].
        destruct (decide _); [|by simplify_eq].
        apply assign_all_frame in Hload as (Hother & Hsig & Hfiles & _ & Hout & _).
        split; [|done]. intros r Hr. rewrite Hother; [by apply Hold|].
        rewrite elem_of_seq. fold n. lia.
      - unfold ret in Hload. by simplify_eq.
      - unfold ret in Hload. by simplify_eq. }
    destruct Hframe as (Hold2 & Hsig2 & Hfiles2 & Hout2).
    unfold bind in Hrun. rewrite Hload in Hrun.
    destruct lres as [[]|e0].
    + (* the loop runs on [w2] and cannot fail *)
      set (ps := zip rs (seq n (length rs))).
      assert (Hps1 : ps.*1 = rs) by (apply fst_zip; by rewrite length_seq).
      assert (Hps2 : ps.*2 = seq n (length rs)) by (apply snd_zip; by rewrite length_seq).
      assert (Hlen2 : length (vars w2) = n + length rs).
      { rewrite <- (length_fmap signature), Hsig2, length_fmap. cbn.
        rewrite length_app. fold n rs. by rewrite Hfl. }
      assert (H1 : valid (vars w2) ps.*1).
      { rewrite Hps1. unfold valid in *. rewrite Hlen2.
        eapply Forall_impl; [exact Hv|]. cbn. fold n. intros; lia. }
      assert (H2 : valid (vars w2) ps.*2).
      { rewrite Hps2. unfold valid. rewrite Hlen2.
        apply Forall_forall. intros r Hr. apply elem_of_seq in Hr. lia. }
      assert (H3 : ∀ p s1 s2, p ∈ ps → (signature <$> vars w2) !! p.1 = Some s1 →
                     (signature <$> vars w2) !! p.2 = Some s2 → s1.2 = s2.2).
      { rewrite Hsig2. intros p s1 s2 Hp Hs1 Hs2.
        apply list_elem_of_lookup in Hp as [i Hi].
        apply lookup_zip_with_Some in Hi as (r & x & -> & Hr & Hx).
        apply lookup_seq in Hx as [-> Hi]. cbn [fst snd] in *.
        destruct (valid_lookup _ _ r Hv) as [v Hrv]; [by eapply list_elem_of_lookup_2|].
        cbn in Hs1, Hs2.
        rewrite list_lookup_fmap, lookup_app_l, Hrv in Hs1 by (by eapply lookup_lt_Some).
        rewrite list_lookup_fmap, lookup_app_r in Hs2 by (fold n; lia). fold n in Hs2.
        replace (n + i - n) with i in Hs2 by lia. unfold fresh_vars in Hs2.
        rewrite (build_vars_lookup _ _ _ _ _ _ _ Hv Hr Hrv) in Hs2.
        cbn in Hs1, Hs2. by simplify_eq. }
      fold ps in Hrun. rewrite (reset_loop_run kw ps w2 0 H1 H2 H3) in Hrun.
      unfold print, modify, ret in Hrun. cbn in Hrun. simplify_eq. cbn.
      split; [done|]. split; [|by intros e].
      intros r Hr Hnot. rewrite copy_pairs_other by (by rewrite Hps1).
      by apply Hold2.
    + simplify_eq. split; [done|]. split; [by intros; apply Hold2|].
      intros e He. split; [done|]. by intros; apply Hold2.
  - intros path -> Hpath Hnone. rewrite reset_weights_to_checkpoint_unfold.
    rewrite (bind_ok _ _ _ _ _ (keras_clone_model_run _ _ Hv)).
    assert (Hne : nonempty path = true).
    { unfold nonempty. by destruct (String.eqb_spec path ""). }
    rewrite Hne. eexists. apply bind_raise.
    unfold load_weights. cbn [files with_vars]. rewrite Hnone.
    by destruct (is_hdf5_filepath path).
Qed.

(** *** What the callback leaves on disk *)

Lemma on_epoch_end_files cb epoch w m o :
  model cb = Some m → optimizer m = Some o →
  valid (vars w) (weights m) → valid (vars w) (opt_weights o) →
  ∃ cb' w',
    on_epoch_end cb epoch w = (Ok cb', w') ∧
    vars w' = vars w ∧
    files w' = hook_files m o (epoch2path cb) (epoch2path_optim cb) (vars w)
                 (epoch + 1) (files w) ∧
    epoch2path cb' = epoch2path cb ∧ epoch2path_optim cb' = epoch2path_optim cb ∧
    model cb' = model cb.
Proof.
  intros Hm Ho Hvm Hvo. unfold on_epoch_end, hook_files. cbv zeta.
  destruct (epoch2path cb !! (epoch + 1)%Z) as [p1|] eqn:H1.
  - rewrite Hm.
    rewrite (bind_ok _ _ w
      (mkCallback (epoch2path cb) (epoch2path_optim cb) (created_model_ckp cb ++ [p1])
         (created_optim_ckp cb) (Some m))
      (with_saves (λ l, l ++ [SavedModel (epoch + 1) p1])
         (with_files (<[p1 := H5Weights (values_at (vars w) (weights m))]>)
            (with_parent_dir p1 w)))).
    2:{ rewrite (bind_ok _ _ _ _ _ (save_model_run _ _ _ Hvm)).
        unfold record_save. by rewrite bind_modify. }
    cbn [epoch2path_optim model created_model_ckp created_optim_ckp epoch2path].
    destruct (epoch2path_optim cb !! (epoch + 1)%Z) as [p2|] eqn:H2.
    + rewrite bind_ret, Ho.
      set (w1 := with_saves _ _).
      assert (Hv1 : valid (vars w1) (opt_weights o)).
      { subst w1. unfold with_parent_dir. by destruct (nonempty (dirname p1)). }
      rewrite (bind_ok _ _ _ _ _ (save_optimizer_run _ _ _ Hv1)).
      unfold record_save. rewrite bind_modify.
      eexists _, _. split; [reflexivity|]. subst w1. unfold with_parent_dir.
      destruct (nonempty (dirname p1)), (nonempty (dirname p2)); cbn; by rewrite ?Hm.
    + eexists _, _. split; [reflexivity|]. unfold with_parent_dir.
      destruct (nonempty (dirname p1)); cbn; by rewrite ?Hm.
  - rewrite (bind_ok _ _ w cb w) by done.
    destruct (epoch2path_optim cb !! (epoch + 1)%Z) as [p2|] eqn:H2.
    + rewrite Hm, bind_ret, Ho.
      rewrite (bind_ok _ _ _ _ _ (save_optimizer_run _ _ _ Hvo)).
      unfold record_save. rewrite bind_modify.
      eexists _, _. split; [reflexivity|]. unfold with_parent_dir.
      destruct (nonempty (dirname p2)); cbn; by rewrite ?Hm.
    + eexists _, _. split; [reflexivity|]. done.
Qed.

Lemma trained_length epoch n vs : length (trained epoch n vs) = length vs.
Proof.
  revert epoch vs. induction n as [|n IH]; intros epoch vs; [done|].
  cbn. by rewrite IH, length_fmap.
Qed.

Lemma run_epochs_files cb epoch n w m o :
  model cb = Some m → optimizer m = Some o →
  valid (vars w) (weights m) → valid (vars w) (opt_weights o) →
  ∃ cb' w',
    run_epochs cb epoch n w = (Ok cb', w') ∧
    vars w' = trained epoch n (vars w) ∧
    files w' = run_files m o (epoch2path cb) (epoch2path_optim cb) epoch n
                 (vars w) (files w).
Proof.
  revert cb epoch w. induction n as [|n IH]; intros cb epoch w Hm Ho Hvm Hvo.
  { by exists cb, w. }
  cbn [run_epochs trained run_files]. rewrite bind_modify.
  set (w0 := with_vars (fmap (train_epoch epoch)) w).
  assert (Hvm0 : valid (vars w0) (weights m)) by (unfold valid; cbn; by rewrite length_fmap).
  assert (Hvo0 : valid (vars w0) (opt_weights o)) by (unfold valid; cbn; by rewrite length_fmap).
  destruct (on_epoch_end_files cb epoch w0 m o Hm Ho Hvm0 Hvo0)
    as (cb1 & w1 & Hrun & Hvars & Hfiles & He1 & He2 & Hmod).
  rewrite (bind_ok _ _ _ _ _ Hrun).
  destruct (IH cb1 (epoch + 1)%Z w1) as (cb2 & w2 & Hrun2 & Hvars2 & Hfiles2).
  { by rewrite Hmod. } { done. } { by rewrite Hvars. } { by rewrite Hvars. }
  exists cb2, w2. split; [done|]. by rewrite Hvars2, Hfiles2, Hvars, Hfiles, He1, He2.
Qed.

Lemma hook_files_other m o (e2p e2p_optim : gmap Z string) vs k (fs : gmap string File) p :
  e2p !! k ≠ Some p → e2p_optim !! k ≠ Some p →
  hook_files m o e2p e2p_optim vs k fs !! p = fs !! p.
Proof.
  intros H1 H2. unfold hook_files.
  destruct (e2p !! k) as [p1|], (e2p_optim !! k) as [p2|];
    rewrite ?lookup_insert_ne by congruence; done.
Qed.

Lemma hook_files_model m o (e2p e2p_optim : gmap Z string) vs k (fs : gmap string File) p :
  e2p !! k = Some p → e2p_optim !! k ≠ Some p →
  hook_files m o e2p e2p_optim vs k fs !! p = Some (H5Weights (values_at vs (weights m))).
Proof.
  intros H1 H2. unfold hook_files. rewrite H1.
  destruct (e2p_optim !! k) as [p2|];
    rewrite ?lookup_insert_ne by congruence; by rewrite lookup_insert_eq.
Qed.

Lemma run_files_other m o (e2p e2p_optim : gmap Z string) epoch n vs
    (fs : gmap string File) p :
  (∀ j : nat, 1 ≤ j ≤ n →
     e2p !! (epoch + Z.of_nat j)%Z ≠ Some p ∧ e2p_optim !! (epoch + Z.of_nat j)%Z ≠ Some p) →
  run_files m o e2p e2p_optim epoch n vs fs !! p = fs !! p.
Proof.
  revert epoch vs fs. induction n as [|n IH]; intros epoch vs fs Hno; [done|].
  cbn [run_files]. rewrite IH.
  - destruct (Hno 1) as [H1 H2]; [lia|]. by apply hook_files_other.
  - intros j Hj. replace (epoch + 1 + Z.of_nat j)%Z with (epoch + Z.of_nat (S j))%Z by lia.
    apply Hno. lia.
Qed.

Lemma run_files_model m o (e2p e2p_optim : gmap Z string) epoch n vs
    (fs : gmap string File) p (j : nat) :
  1 ≤ j ≤ n →
  e2p !! (epoch + Z.of_nat j)%Z = Some p →
  (∀ j' : nat, 1 ≤ j' ≤ n → j' ≠ j → e2p !! (epoch + Z.of_nat j')%Z ≠ Some p) →
  (∀ j' : nat, 1 ≤ j' ≤ n → e2p_optim !! (epoch + Z.of_nat j')%Z ≠ Some p) →
  run_files m o e2p e2p_optim epoch n vs fs !! p
  = Some (H5Weights (values_at (trained epoch j vs) (weights m))).
Proof.
  revert epoch vs fs j. induction n as [|n IH]; intros epoch vs fs j Hj Hp Huniq Hopt; [lia|].
  cbn [run_files]. destruct (decide (j = 1)) as [->|Hne].
  - rewrite run_files_other.
    + cbn [trained]. apply hook_files_model; [done|]. apply (Hopt 1). lia.
    + intros j' Hj'.
      replace (epoch + 1 + Z.of_nat j')%Z with (epoch + Z.of_nat (S j'))%Z by lia.
      split; [apply Huniq; lia|apply Hopt; lia].
  - destruct j as [|j]; [lia|]. cbn [trained].
    apply (IH (epoch + 1)%Z _ _ j); [lia|..].
    + by replace (epoch + 1 + Z.of_nat j)%Z with (epoch + Z.of_nat (S j))%Z by lia.
    + intros j' Hj' Hne'.
      replace (epoch + 1 + Z.of_nat j')%Z with (epoch + Z.of_nat (S j'))%Z by lia.
      apply Huniq; lia.
    + intros j' Hj'.
      replace (epoch + 1 + Z.of_nat j')%Z with (epoch + Z.of_nat (S j'))%Z by lia.
      apply Hopt; lia.
Qed.

(** X5. After a run of [epochs] epochs, the file that the callback wrote for
    a key [k] between 1 and [epochs] holds the model's weights as they were
    when [k] epochs had been trained, provided that no other key of either
    mapping within the run writes to the same path; the run itself leaves the
    variables as training left them. *)
Theorem checkpoint_holds_weights_of_its_epoch cb (epochs k : nat) p w m o :
  model cb = Some m → optimizer m = Some o →
  valid (vars w) (weights m) → valid (vars w) (opt_weights o) →
  1 ≤ k ≤ epochs →
  epoch2path cb !! Z.of_nat k = Some p →
  (∀ k' : nat, 1 ≤ k' ≤ epochs → k' ≠ k → epoch2path cb !! Z.of_nat k' ≠ Some p) →
  (∀ k' : nat, 1 ≤ k' ≤ epochs → epoch2path_optim cb !! Z.of_nat k' ≠ Some p) →
  ∃ cb' w',
    fit cb epochs w = (Ok cb', w') ∧
    vars w' = trained 0 epochs (vars w) ∧
    files w' !! p = Some (H5Weights (values_at (trained 0 k (vars w)) (weights m))).
Proof.
  intros Hm Ho Hvm Hvo Hk Hp Huniq Hopt.
  destruct (run_epochs_files cb 0 epochs w m o Hm Ho Hvm Hvo)
    as (cb' & w' & Hrun & Hvars & Hfiles).
  exists cb', w'. split; [done|]. split; [done|].
  rewrite Hfiles. by apply run_files_model.
Qed.

Lemma trained_lookup epoch n vs (r : ref) v :
  (∀ e v, signature (train_epoch e v) = signature v) →
  vs !! r = Some v →
  ∃ v', trained epoch n vs !! r = Some v' ∧ signature v' = signature v.
Proof.
  intros Hkeep. revert epoch vs v. induction n as [|n IH]; intros epoch vs v Hr.
  { by exists v. }
  cbn [trained].
  destruct (IH (epoch + 1)%Z (train_epoch epoch <$> vs) (train_epoch epoch v))
    as (v' & Hv' & Hsig); [by rewrite list_lookup_fmap, Hr|].
  exists v'. split; [done|]. by rewrite Hsig.
Qed.

Lemma trained_shapes epoch n vs rs :
  (∀ e v, signature (train_epoch e v) = signature v) →
  valid vs rs →
  shape <$> values_at (trained epoch n vs) rs = shape <$> values_at vs rs.
Proof.
  intros Hkeep Hv.
  assert (Hv' : valid (trained epoch n vs) rs)
    by (unfold valid; by rewrite trained_length).
  apply list_eq. intros i. rewrite !list_lookup_fmap.
  destruct (rs !! i) as [r|] eqn:Hi.
  - destruct (valid_lookup _ _ r Hv) as [v Hr]; [by eapply list_elem_of_lookup_2|].
    destruct (trained_lookup epoch n vs r v Hkeep Hr) as (v' & Hr' & Hsig).
    rewrite (values_at_lookup _ _ _ _ _ Hv' Hi Hr'), (values_at_lookup _ _ _ _ _ Hv Hi Hr).
    cbn. unfold signature in Hsig. congruence.
  - apply lookup_ge_None in Hi.
    rewrite (proj2 (lookup_ge_None (values_at _ rs) i)) by (by rewrite values_at_length).
    by rewrite (proj2 (lookup_ge_None (values_at vs rs) i)) by (by rewrite values_at_length).
Qed.

Lemma skipped_count_None sg rs : skipped_count sg None rs = 0.
Proof.
  unfold skipped_count. induction rs as [|r rs IH]; [done|].
  cbn. unfold skipped_ref at 1. by destruct (sg !! r).
Qed.

(** X6. Rewinding. When training changes neither names nor shapes, resetting
    the model, after a run, to the checkpoint that the callback wrote for key
    [k] gives the model exactly the weights it had when [k] epochs had been
    trained. *)
Theorem rewinding_restores_the_epoch cb (epochs k : nat) p w m o :
  (∀ e v, signature (train_epoch e v) = signature v) →
  model cb = Some m → optimizer m = Some o →
  valid (vars w) (weights m) → valid (vars w) (opt_weights o) →
  NoDup (weights m) → p ≠ "" →
  1 ≤ k ≤ epochs →
  epoch2path cb !! Z.of_nat k = Some p →
  (∀ k' : nat, 1 ≤ k' ≤ epochs → k' ≠ k → epoch2path cb !! Z.of_nat k' ≠ Some p) →
  (∀ k' : nat, 1 ≤ k' ≤ epochs → epoch2path_optim cb !! Z.of_nat k' ≠ Some p) →
  ∃ cb' w' w'',
    fit cb epochs w = (Ok cb', w') ∧
    reset_weights_to_checkpoint m (Some p) None w' = (Ok 0, w'') ∧
    values_at (vars w'') (weights m) = values_at (trained 0 k (vars w)) (weights m).
Proof.
  intros Hkeep Hm Ho Hvm Hvo Hnd Hpath Hk Hp Huniq Hopt.
  destruct (run_epochs_files cb 0 epochs w m o Hm Ho Hvm Hvo)
    as (cb' & w' & Hrun & Hvars & Hfiles).
  assert (Hfile : files w' !! p
                  = Some (H5Weights (values_at (trained 0 k (vars w)) (weights m))))
    by (rewrite Hfiles; by apply run_files_model).
  assert (Hvk : valid (trained 0 k (vars w)) (weights m))
    by (unfold valid; by rewrite trained_length).
  assert (Hv' : valid (vars w') (weights m))
    by (unfold valid; by rewrite Hvars, trained_length).
  assert (Hf : fits (vars w') (weights m) (values_at (trained 0 k (vars w)) (weights m))).
  { apply shapes_fits; [done|done|]. by rewrite Hvars, !trained_shapes. }
  assert (Hne : nonempty p = true).
  { unfold nonempty. by destruct (String.eqb_spec p ""). }
  eexists cb', w', _. split; [done|].
  split.
  { rewrite (reset_with_load_run _ _ None _ _ Hne Hfile Hf).
    rewrite skipped_count_None. reflexivity. }
  cbn [vars].
  set (final := copy_pairs _ _ _).
  assert (Hvf : valid final (weights m)).
  { unfold valid, final. rewrite copy_pairs_length, length_app.
    eapply Forall_impl; [exact Hv'|]. cbn. intros; lia. }
  apply list_eq. intros i. destruct (weights m !! i) as [r|] eqn:Hi.
  - destruct (valid_lookup _ _ r Hv') as [v2 Hr2]; [by eapply list_elem_of_lookup_2|].
    destruct (valid_lookup _ _ r Hvk) as [v0 Hr0]; [by eapply list_elem_of_lookup_2|].
    destruct (lookup_lt_is_Some_2 (fresh_vars (vars w') (length (vars w')) (weights m)) i)
      as [x Hx].
    { unfold fresh_vars. rewrite build_vars_length by done. by eapply lookup_lt_Some. }
    rewrite (values_at_lookup _ _ _ _ (mkVar (name v2) (value v0)) Hvf Hi).
    + by rewrite (values_at_lookup _ _ _ _ _ Hvk Hi Hr0).
    + unfold final.
      rewrite (reset_tail_lookup None _ _ _ i r v2 (mkVar (name x) (value v0)) Hv' Hnd Hi Hr2);
        [done|].
      apply lookup_zip_with_Some. exists x, (value v0). split; [done|]. split; [done|].
      by apply (values_at_lookup _ _ _ r).
  - apply lookup_ge_None in Hi.
    rewrite (proj2 (lookup_ge_None (values_at final _) i)) by (by rewrite values_at_length).
    by rewrite (proj2 (lookup_ge_None (values_at (trained _ _ _) _) i))
      by (by rewrite values_at_length).
Qed.

Lemma model_paths_keys (e2p e2p_optim : gmap Z string) keys :
  model_paths (flat_map (epoch_saves e2p e2p_optim) keys) = omap (λ k, e2p !! k) keys.
Proof.
  unfold model_paths. induction keys as [|k keys IH]; [done|].
  cbn [flat_map omap list_omap]. rewrite flat_map_app, IH. unfold epoch_saves.
  rewrite flat_map_app.
  destruct (e2p !! k), (e2p_optim !! k); done.
Qed.

Lemma optimizer_paths_keys (e2p e2p_optim : gmap Z string) keys :
  optimizer_paths (flat_map (epoch_saves e2p e2p_optim) keys)
  = omap (λ k, e2p_optim !! k) keys.
Proof.
  unfold optimizer_paths. induction keys as [|k keys IH]; [done|].
  cbn [flat_map omap list_omap]. rewrite flat_map_app, IH. unfold epoch_saves.
  rewrite flat_map_app.
  destruct (e2p !! k), (e2p_optim !! k); done.
Qed.

(** X7. After a run of [epochs] epochs that started with a newly made
    callback, [list_created_checkpoints] prints, under its two headers, the
    paths of the keys 1 to [epochs] that each mapping holds, in the order of
    the epochs and nothing else. *)
Theorem list_created_checkpoints_after_fit e2p e2p_optim m o (epochs : nat) w :
  optimizer m = Some o →
  valid (vars w) (weights m) → valid (vars w) (opt_weights o) →
  ∃ cb' w',
    fit (set_model (CheckpointAfterEpoch_init e2p e2p_optim) m) epochs w = (Ok cb', w') ∧
    list_created_checkpoints cb'
    = ["CREATED MODEL CHECKPOINTS:"] ++ omap (λ k, e2p !! k) (hook_keys 0 epochs) ++
      ["CREATED OPTIM CHECKPOINTS:"] ++ omap (λ k, e2p_optim !! k) (hook_keys 0 epochs).
Proof.
  intros Ho Hvm Hvo.
  set (cb := set_model (CheckpointAfterEpoch_init e2p e2p_optim) m).
  assert (Hatt : attached cb (vars w)) by (by exists m, o).
  destruct (run_epochs_run cb 0 epochs w Hatt) as (cb' & w' & Hrun & _ & Hc1 & Hc2).
  exists cb', w'. split; [done|].
  unfold list_created_checkpoints. rewrite Hc1, Hc2. cbn [cb set_model
    CheckpointAfterEpoch_init created_model_ckp created_optim_ckp epoch2path
    epoch2path_optim app].
  by rewrite model_paths_keys, optimizer_paths_keys.
Qed.

(** *** Copying between models *)



(** X9. [clone_model] returns an uncompiled model over newly created
    variables: none of them existed before, none is listed twice, each is a
    copy, name and value, of the original's variable at the same position,
    and every variable that existed before, like every file and the output,
    is as it was. *)
Theorem clone_model_is_a_separate_copy m w :
  valid (vars w) (weights m) →
  ∃ m1 w1,
    clone_model m w = (Ok m1, w1) ∧
    optimizer m1 = None ∧
    NoDup (weights m1) ∧
    (∀ r : ref, r ∈ weights m1 → length (vars w) ≤ r) ∧
    length (weights m1) = length (weights m) ∧
    (∀ (i : nat) (r r1 : ref),
       weights m !! i = Some r → weights m1 !! i = Some r1 →
       is_Some (vars w !! r) ∧ vars w1 !! r1 = vars w !! r) ∧
    (∀ r : ref, r < length (vars w) → vars w1 !! r = vars w !! r) ∧
    files w1 = files w ∧ stdout w1 = stdout w.
Proof.
  intros Hv. eexists _, _. split; [by apply clone_model_run|].
  cbn [weights optimizer with_vars vars files stdout].
  split; [done|]. split; [apply NoDup_seq|]. split.
  { intros r Hr. apply elem_of_seq in Hr. lia. }
  split; [by rewrite length_seq|]. split; [|split; [|done]].
  - intros i r r1 Hi Hi1. apply lookup_seq in Hi1 as [-> _].
    destruct (valid_lookup _ _ r Hv) as [v Hr]; [by eapply list_elem_of_lookup_2|].
    split; [by eexists|]. rewrite lookup_app_r by lia.
    replace (length (vars w) + i - length (vars w)) with i by lia.
    unfold copied_vars. by rewrite (build_vars_lookup _ _ _ _ _ _ _ Hv Hi Hr).
  - intros r Hr. by rewrite lookup_app_l.
Qed.

(** *** Clipping: edge cases and failure *)

Lemma clip_entry_inverted lo hi x : (hi < lo)%Q → clip_entry lo hi x = lo.
Proof.
  intros Hlt. unfold clip_entry.
  destruct (Qmin_cases x hi) as [[-> H1]|[-> H1]];
    destruct (Qmax_cases x lo) as [[E2 H2]|[E2 H2]];
    destruct (Qmax_cases hi lo) as [[E3 H3]|[E3 H3]];
    rewrite ?E2, ?E3; try reflexivity; lra.
Qed.

Lemma clip_entry_inside lo hi x : (lo <= x)%Q → (x <= hi)%Q → clip_entry lo hi x = x.
Proof.
  intros Hlo Hhi. unfold clip_entry.
  destruct (Qmin_cases x hi) as [[-> H1]|[-> H1]]; [|lra].
  destruct (Qmax_cases x lo) as [[E2 H2]|[E2 H2]]; [done|lra].
Qed.

Lemma clip_by_value_inside lo hi t :
  within (cast lo) (cast hi) t → clip_by_value t lo hi = t.
Proof.
  intros Hw. unfold clip_by_value. destruct t as [sh xs]. cbn in *. f_equal.
  unfold within in Hw. cbn in Hw. induction Hw as [|x xs [Hlo Hhi] _ IH]; [done|].
  cbn. by rewrite clip_entry_inside, IH.
Qed.

(** X10. Without [clip_from] the lower bound is [-clip_at].  When the
    converted bounds are inverted, the lower one above the upper one, which
    under a conversion that keeps the order takes a negative [clip_at],
    [clip_many] replaces every entry by the converted lower bound,
    [-clip_at] as the dtype has it: in the tensors it returns and, in place,
    in the variables. *)
Theorem clip_many_negative_bound_flattens (rs : list ref) values clip_at w :
  (cast clip_at < cast (- clip_at))%Q →
  valid (vars w) rs → valid_arrays (vars w) values →
  ((∀ x y, (x <= y)%Q → (cast x <= cast y)%Q) → (clip_at < 0)%Q)
  ∧
  (∃ out,
     clip_many values clip_at None false w = (Ok (Some out), w) ∧
     length out = length values ∧
     Forall (λ t, Forall (λ x, x = cast (- clip_at)%Q) (data t)) out)
  ∧
  (∃ w',
     clip_many (Var <$> rs) clip_at None true w = (Ok None, w') ∧
     ∀ (r : ref) v', r ∈ rs → vars w' !! r = Some v' →
                     Forall (λ x, x = cast (- clip_at)%Q) (data (value v'))).
Proof.
  intros Hneg Hv Hva.
  assert (Hinv : ∀ t, Forall (λ x, x = cast (- clip_at)%Q)
                        (data (clip_by_value t (- clip_at) clip_at))).
  { intros t. cbn. apply Forall_fmap, Forall_forall. intros x _. cbn.
    by apply clip_entry_inverted. }
  split; [|split].
  - intros Hmono. destruct (Qlt_le_dec clip_at 0) as [|Hpos]; [done|].
    assert (Hle : (cast (- clip_at) <= cast clip_at)%Q) by (apply Hmono; lra).
    lra.
  - eexists. split; [by apply clip_many_value_run|]. split.
    + by rewrite length_fmap, tensors_of_length.
    + apply Forall_fmap, Forall_forall. intros t _. apply Hinv.
  - eexists. split; [by apply clip_many_inplace_run|].
    intros r v' Hr Hv'. cbn [vars] in Hv'.
    rewrite clip_refs_lookup, decide_True in Hv' by done.
    destruct (vars w !! r) as [v|]; [|done]. cbn in Hv'. simplify_eq. apply Hinv.
Qed.

Lemma within_cast lo hi t :
  (∀ x y, (x <= y)%Q → (cast x <= cast y)%Q) →
  representable t → within lo hi t → within (cast lo) (cast hi) t.
Proof.
  intros Hmono Hrep Hw. unfold within, representable in *.
  rewrite Forall_forall in Hrep, Hw. apply Forall_forall. intros x Hx.
  destruct (Hw x Hx) as [Hlo Hhi]. pose proof (Hrep x Hx) as Heq.
  split; rewrite <- Heq; by apply Hmono.
Qed.

(** X11. On tensors whose entries already lie within the bounds [clip_many]
    is the identity: it returns them as they are and, in place, leaves the
    world as it was.  This holds for entries within the converted bounds;
    and since the entries are values of the dtype, it holds for entries
    within the bounds themselves whenever converting a number to the dtype
    keeps the order. *)
Theorem clip_many_keeps_bounded_tensors (rs : list ref) values clip_at clip_from w :
  let low := default (- clip_at)%Q clip_from in
  let unchanged :=
    clip_many (Var <$> rs) clip_at clip_from true w = (Ok None, w) ∧
    clip_many values clip_at clip_from false w
    = (Ok (Some (tensors_of (vars w) values)), w) in
  valid (vars w) rs → valid_arrays (vars w) values →
  (Forall (within (cast low) (cast clip_at)) (values_at (vars w) rs) →
   Forall (within (cast low) (cast clip_at)) (tensors_of (vars w) values) →
   unchanged)
  ∧
  ((∀ x y, (x <= y)%Q → (cast x <= cast y)%Q) →
   Forall representable (values_at (vars w) rs) →
   Forall representable (tensors_of (vars w) values) →
   Forall (within low clip_at) (values_at (vars w) rs) →
   Forall (within low clip_at) (tensors_of (vars w) values) →
   unchanged).
Proof.
  intros low unchanged Hv Hva.
  assert (Hconv : Forall (within (cast low) (cast clip_at)) (values_at (vars w) rs) →
                  Forall (within (cast low) (cast clip_at)) (tensors_of (vars w) values) →
                  unchanged).
  { intros Hin Hinv. split.
    - rewrite clip_many_inplace_run by done. fold low.
      replace (clip_refs low clip_at rs (vars w)) with (vars w); [by destruct w|].
      apply list_eq. intros r. rewrite clip_refs_lookup.
      destruct (decide (r ∈ rs)) as [Hr|]; [|done].
      destruct (vars w !! r) as [v|] eqn:Hrv; [|done]. cbn. f_equal.
      apply list_elem_of_lookup in Hr as [i Hi].
      assert (Hw : within (cast low) (cast clip_at) (value v)).
      { rewrite Forall_forall in Hin. apply Hin.
        apply list_elem_of_lookup. exists i. by apply (values_at_lookup _ _ _ r). }
      unfold clip_var. rewrite clip_by_value_inside by done. by destruct v.
    - rewrite clip_many_value_run by done. fold low. do 3 f_equal.
      induction Hinv as [|t ts Ht _ IH]; [done|].
      cbn. by rewrite clip_by_value_inside, IH. }
  split; [exact Hconv|].
  intros Hmono Hrep Hrepv Hin Hinv. apply Hconv.
  - apply Forall_forall. intros t Ht. rewrite Forall_forall in Hrep, Hin.
    apply within_cast; auto.
  - apply Forall_forall. intros t Ht. rewrite Forall_forall in Hrepv, Hinv.
    apply within_cast; auto.
Qed.

(** X12. In place, [clip_many] works through the collection in order: when
    it meets an array that is no variable it raises an attribute error with
    the variables before it already clipped; every variable not listed
    before the array, and the name and shape of every variable, are as
    before. *)
Theorem clip_many_inplace_failure_is_partial (rs : list ref) t rest clip_at clip_from w :
  let low := default (- clip_at)%Q clip_from in
  valid (vars w) rs →
  ∃ w',
    clip_many ((Var <$> rs) ++ Const t :: rest) clip_at clip_from true w
    = (Raise AttributeError, w') ∧
    (∀ (r : ref) v, r ∈ rs → vars w !! r = Some v →
       vars w' !! r = Some (mkVar (name v) (clip_by_value (value v) low clip_at))) ∧
    (∀ r : ref, r ∉ rs → vars w' !! r = vars w !! r) ∧
    signature <$> vars w' = signature <$> vars w ∧
    files w' = files w ∧ stdout w' = stdout w.
Proof.
  intros low Hv.
  pose proof (clip_many_inplace_run rs clip_at clip_from w Hv) as Hrun.
  unfold clip_many in *. fold low in Hrun |- *. unfold bind in Hrun |- *.
  match type of Hrun with
  | context [for_each ?body ?l w] => destruct (for_each body l w) as [[[]|e] w1] eqn:Hloop
  end; [|done].
  rewrite (for_each_app _ _ _ _ _ Hloop). cbn. unfold ret in Hrun. simplify_eq.
  eexists. split; [reflexivity|]. cbn.
  split; [|split; [|split; [|done]]].
  - intros r v Hr Hrv. by rewrite clip_refs_lookup, decide_True, Hrv.
  - intros r Hr. by rewrite clip_refs_lookup, decide_False.
  - apply list_eq. intros r. rewrite !list_lookup_fmap, clip_refs_lookup.
    destruct (decide (r ∈ rs)); [|done]. by destruct (vars w !! r).
Qed.

(** *** The configuration of [ResNetStiff] *)

(** X13. A dataset name that [ResNetStiff] knows decides the input shape and
    the class count: whatever the caller passes for them is ignored; and the
    alias ['WRN-16-8'] decides the blocks per group and the widths in the
    same way. *)
Theorem ResNetStiff_names_override_arguments
    dataset alias input_shape n_classes input_shape' n_classes'
    features BLOCKS_IN_GROUP features' BLOCKS_IN_GROUP' w :
  (dataset ∈ [Some "cifar"; Some "cifar10"; Some "cifar100"; Some "mnist"] →
   ResNetStiff dataset alias input_shape n_classes features BLOCKS_IN_GROUP w
   = ResNetStiff dataset alias input_shape' n_classes' features BLOCKS_IN_GROUP w)
  ∧
  (alias = Some "WRN-16-8" →
   ResNetStiff dataset alias input_shape n_classes features BLOCKS_IN_GROUP w
   = ResNetStiff dataset alias input_shape n_classes features' BLOCKS_IN_GROUP' w).
Proof.
  split.
  - intros Hd. unfold ResNetStiff.
    repeat (apply elem_of_cons in Hd as [->|Hd]; [reflexivity|]).
    by apply elem_of_nil in Hd.
  - intros ->. reflexivity.
Qed.

(** *** Flattening *)

Lemma flatten_each_run values w :
  valid_arrays (vars w) values →
  map_each (λ x, let* t := tensor_of x in ret (flatten t)) values w
  = (Ok (flatten <$> tensors_of (vars w) values), w).
Proof.
  induction 1 as [|a values [t Ht] _ IH]; [done|].
  cbn [map_each tensors_of]. rewrite Ht.
  rewrite (bind_ok _ _ w (flatten t) w)
    by (by rewrite (bind_ok _ _ _ _ _ (tensor_of_run _ _ _ Ht))).
  by rewrite (bind_ok _ _ _ _ _ IH).
Qed.

Lemma data_flatten (ts : list Tensor) : data <$> (flatten <$> ts) = data <$> ts.
Proof. rewrite <- list_fmap_compose. by apply list_fmap_ext. Qed.

Lemma concatenate_flattened_run values w :
  valid_arrays (vars w) values → values ≠ [] →
  concatenate_flattened values w
  = (Ok (mkTensor [length (all_entries (vars w) values)] (all_entries (vars w) values)), w).
Proof.
  intros Hva Hne. unfold concatenate_flattened.
  rewrite (bind_ok _ _ _ _ _ (flatten_each_run _ _ Hva)).
  unfold all_entries. rewrite <- (data_flatten (tensors_of (vars w) values)).
  destruct values as [|a values]; [done|].
  apply Forall_cons in Hva as [[t Ht] _]. cbn [tensors_of]. by rewrite Ht.
Qed.

(** X14. [concatenate_flattened] raises a value error on an empty
    collection; on any other it returns one vector holding the entries of
    all the arrays in order, as long as the entries taken together, and
    changes nothing; concatenating two collections one after the other gives
    the entries of the first followed by those of the second. *)
Theorem concatenate_flattened_joins_entries values1 values2 w :
  valid_arrays (vars w) values1 → valid_arrays (vars w) values2 →
  values1 ≠ [] → values2 ≠ [] →
  concatenate_flattened [] w = (Raise ValueError, w) ∧
  ∃ t1 t2 t,
    concatenate_flattened values1 w = (Ok t1, w) ∧
    concatenate_flattened values2 w = (Ok t2, w) ∧
    concatenate_flattened (values1 ++ values2) w = (Ok t, w) ∧
    data t1 = all_entries (vars w) values1 ∧
    shape t1 = [length (all_entries (vars w) values1)] ∧
    data t = data t1 ++ data t2.
Proof.
  intros Hv1 Hv2 Hn1 Hn2. split; [done|].
  eexists _, _, _.
  split; [by apply concatenate_flattened_run|].
  split; [by apply concatenate_flattened_run|].
  split.
  { apply concatenate_flattened_run; [by apply Forall_app|].
    by destruct values1. }
  cbn. split; [done|]. split; [done|].
  unfold all_entries. rewrite <- concat_app, <- fmap_app. do 2 f_equal.
  clear Hn1 Hn2. induction Hv1 as [|a values1 [t Ht] _ IH]; [done|].
  cbn. rewrite Ht. cbn. by rewrite IH.
Qed.


(** *** Kernels and model information *)

Lemma elem_of_get_kernels model (r : ref) :
  r ∈ get_kernels model ↔ ∃ layer, layer ∈ layers model ∧ kernel layer = Some r.
Proof. unfold get_kernels. apply list_elem_of_omap. Qed.

(** X16. When the converted bounds are in order, clipping in place the
    variables that [get_kernels] returns clips the kernel of every layer to
    the converted bounds, so that its entries end within them, and leaves
    alone every variable that is no layer's kernel, such as a bias. *)
Theorem clipping_the_kernels_spares_the_rest model clip_at clip_from w :
  let low := cast (default (- clip_at)%Q clip_from) in
  let high := cast clip_at in
  (low <= high)%Q →
  valid (vars w) (get_kernels model) →
  ∃ w',
    clip_many (Var <$> get_kernels model) clip_at clip_from true w = (Ok None, w') ∧
    (∀ layer (r : ref), layer ∈ layers model → kernel layer = Some r →
       ∃ v v', vars w !! r = Some v ∧ vars w' !! r = Some v' ∧ name v' = name v ∧
               clipped low high (value v) (value v') ∧ within low high (value v')) ∧
    (∀ r : ref, (∀ layer, layer ∈ layers model → kernel layer ≠ Some r) →
       vars w' !! r = vars w !! r).
Proof.
  intros low high Hle Hv. eexists. split; [by apply clip_many_inplace_run|].
  cbn [vars]. split.
  - intros layer r Hl Hk.
    assert (Hr : r ∈ get_kernels model) by (apply elem_of_get_kernels; by exists layer).
    destruct (valid_lookup _ _ r Hv Hr) as [v Hrv].
    rewrite clip_refs_lookup, decide_True, Hrv by done. cbn.
    eexists _, _. split; [done|]. split; [done|]. split; [done|]. cbn.
    split; [by apply clip_by_value_clipped|by apply clip_by_value_within].
  - intros r Hr. rewrite clip_refs_lookup, decide_False; [done|].
    intros (layer & Hl & Hk)%elem_of_get_kernels. by apply (Hr layer).
Qed.

Lemma elements_of_valid vs (rs : list ref) :
  valid vs rs → ∃ ns, mapM (elements_of vs) rs = Some ns.
Proof.
  intros Hv. apply (mapM_is_Some_2 (elements_of vs)).
  eapply Forall_impl; [exact Hv|]. intros r Hr. cbn.
  apply lookup_lt_is_Some in Hr as [v Hr]. unfold elements_of. by rewrite Hr.
Qed.

Lemma attribute_elements_valid vs a :
  attribute_valid vs a → is_Some (attribute_elements vs a).
Proof.
  destruct a as [| |r]; cbn; [by eexists..|]. intros Hr.
  apply lookup_lt_is_Some in Hr as [v Hr]. unfold elements_of. by rewrite Hr.
Qed.

Lemma kernel_elements_sum vs ls ns :
  mapM (kernel_elements vs) ls = Some ns →
  ∃ ks, mapM (elements_of vs) (omap kernel ls) = Some ks ∧ sum_list ks = sum_list ns.
Proof.
  revert ns. induction ls as [|l ls IH]; intros ns Hns.
  { apply mapM_Some, Forall2_nil_inv_l in Hns as ->. exists []. split; reflexivity. }
  apply mapM_Some in Hns. destruct ns as [|n ns]; [by apply Forall2_cons_nil_inv in Hns|].
  apply Forall2_cons in Hns as [Hn Hns]. apply mapM_Some in Hns.
  destruct (IH ns Hns) as (ks & Hks & Hsum).
  unfold kernel_elements in Hn. cbn [omap list_omap].
  destruct (kernel l) as [r|].
  - exists (n :: ks). split; [|cbn; by rewrite Hsum].
    apply mapM_Some. apply Forall2_cons. split; [done|]. by apply mapM_Some.
  - simplify_eq. by exists ks.
Qed.

(** X17. [print_model_info] divides by the number of trainable elements:
    for a model without any, in particular one with no trainable weights, it
    raises [ZeroDivisionError] after its first three lines; otherwise it
    prints four lines, the last with a kernel count that is the number of
    elements of what [get_kernels] returns. *)
Theorem print_model_info_needs_trainable_elements vs model :
  layered_valid vs model →
  ∃ res tw,
    print_model_info vs model = Some res ∧
    sum_list <$> mapM (elements_of vs) (trainable_weights model) = Some tw ∧
    (trainable_weights model = [] → tw = 0) ∧
    (tw = 0 →
     res = PrintedThenZeroDivisionError
             [ModelInfo; LayerCounts (foldl count_layer [] (layers model));
              TrainableWeights 0]) ∧
    (tw ≠ 0 →
     ∃ kernels biases bn,
       res = Printed [ModelInfo; LayerCounts (foldl count_layer [] (layers model));
                      TrainableWeights tw; Shares kernels biases bn tw] ∧
       sum_list <$> mapM (elements_of vs) (get_kernels model) = Some kernels).
Proof.
  intros (Hvt & Hvk & Hattr). unfold print_model_info.
  destruct (elements_of_valid _ _ Hvt) as [tws Htws]. rewrite Htws. cbn.
  assert (Hbn : is_Some (mapM (λ layer,
            b ← attribute_elements vs (beta layer);
            g ← attribute_elements vs (gamma layer);
            Some (b + g)) (layers model))).
  { apply mapM_is_Some_2. eapply Forall_impl; [exact Hattr|].
    intros l (_ & Hb & Hg). cbn.
    destruct (attribute_elements_valid _ _ Hb) as [b ->].
    destruct (attribute_elements_valid _ _ Hg) as [g ->]. by eexists. }
  destruct Hbn as [bns ->]. cbn.
  assert (Hbias : is_Some (mapM (λ layer, attribute_elements vs (bias layer))
                             (layers model))).
  { apply mapM_is_Some_2. eapply Forall_impl; [exact Hattr|].
    intros l (Hb & _). cbn. by apply attribute_elements_valid. }
  destruct Hbias as [bs ->]. cbn.
  assert (Hk : is_Some (mapM (kernel_elements vs) (layers model))).
  { apply mapM_is_Some_2. apply Forall_forall. intros l Hl. cbn.
    unfold kernel_elements. destruct (kernel l) as [r|] eqn:Hkl; [|by eexists].
    assert (Hr : r ∈ get_kernels model) by (apply elem_of_get_kernels; by exists l).
    destruct (valid_lookup _ _ r Hvk Hr) as [v Hrv]. unfold elements_of. by rewrite Hrv. }
  destruct Hk as [ns Hns]. rewrite Hns. cbn.
  destruct (kernel_elements_sum _ _ _ Hns) as (ks & Hks & Hsum).
  eexists _, _. split; [reflexivity|]. split; [reflexivity|].
  split; [|split].
  - intros Hnil. rewrite Hnil in Htws.
    by apply mapM_Some, Forall2_nil_inv_l in Htws as ->.
  - intros ->. by rewrite decide_True.
  - intros Hne. rewrite decide_False by done. eexists _, _, _. split; [reflexivity|].
    unfold get_kernels. rewrite Hks. cbn. by rewrite Hsum.
Qed.

(** *** Logging from a history *)

Lemma fold_min_spec (a : Q) rest :
  let m := foldl (λ m y, if Qlt_le_dec y m then y else m) a rest in
  m ∈ a :: rest ∧ (m <= a)%Q ∧ Forall (λ x, (m <= x)%Q) rest.
Proof.
  revert a. induction rest as [|y rest IH]; intros a; cbn.
  { split; [left|]. split; [lra|constructor]. }
  destruct (Qlt_le_dec y a) as [Hlt|Hle].
  - destruct (IH y) as (Hin & Hm & Hall). cbn in *.
    split; [by right|]. split; [lra|]. by constructor.
  - destruct (IH a) as (Hin & Hm & Hall). cbn in *.
    split; [|split; [done|constructor; [lra|done]]].
    apply elem_of_cons in Hin as [->|Hin]; [left|right; by right].
Qed.

Lemma fold_max_spec (a : Q) rest :
  let m := foldl (λ m y, if Qlt_le_dec m y then y else m) a rest in
  m ∈ a :: rest ∧ (a <= m)%Q ∧ Forall (λ x, (x <= m)%Q) rest.
Proof.
  revert a. induction rest as [|y rest IH]; intros a; cbn.
  { split; [left|]. split; [lra|constructor]. }
  destruct (Qlt_le_dec a y) as [Hlt|Hle].
  - destruct (IH y) as (Hin & Hm & Hall). cbn in *.
    split; [by right|]. split; [lra|]. by constructor.
  - destruct (IH a) as (Hin & Hm & Hall). cbn in *.
    split; [|split; [done|constructor; [lra|done]]].
    apply elem_of_cons in Hin as [->|Hin]; [left|right; by right].
Qed.

Lemma py_min_spec xs m :
  py_min xs = inr m → m ∈ xs ∧ Forall (λ x, (m <= x)%Q) xs.
Proof.
  destruct xs as [|a rest]; [done|]. cbn. intros [= <-].
  destruct (fold_min_spec a rest) as (Hin & Hm & Hall). split; [done|]. by constructor.
Qed.

Lemma py_max_spec xs m :
  py_max xs = inr m → m ∈ xs ∧ Forall (λ x, (x <= m)%Q) xs.
Proof.
  destruct xs as [|a rest]; [done|]. cbn. intros [= <-].
  destruct (fold_max_spec a rest) as (Hin & Hm & Hall). split; [done|]. by constructor.
Qed.

Lemma py_last_cons x xs : py_last (x :: xs) = inr (default x (last xs)).
Proof. unfold py_last. rewrite last_cons. by destruct (last xs). Qed.

(** The metric [key] is in the history with at least one value. *)
Lemma log_from_history_reads now str_exp history exp :
  match history_lookup history "val_loss", history_lookup history "val_accuracy",
        history_lookup history "loss", history_lookup history "accuracy" with
  | Some (a1 :: l1), Some (a2 :: l2), Some (a3 :: l3), Some (a4 :: l4) =>
      ∃ r, log_from_history now str_exp history exp = inr r
  | None, _, _, _ =>
      log_from_history now str_exp history exp = inl (KeyError "val_loss")
  | Some [], _, _, _ =>
      log_from_history now str_exp history exp = inl EmptySequence
  | Some (_ :: _), None, _, _ =>
      log_from_history now str_exp history exp = inl (KeyError "val_accuracy")
  | Some (_ :: _), Some [], _, _ =>
      log_from_history now str_exp history exp = inl EmptySequence
  | Some (_ :: _), Some (_ :: _), None, _ =>
      log_from_history now str_exp history exp = inl (KeyError "loss")
  | Some (_ :: _), Some (_ :: _), Some [], _ =>
      log_from_history now str_exp history exp = inl EmptySequence
  | Some (_ :: _), Some (_ :: _), Some (_ :: _), None =>
      log_from_history now str_exp history exp = inl (KeyError "accuracy")
  | Some (_ :: _), Some (_ :: _), Some (_ :: _), Some [] =>
      log_from_history now str_exp history exp = inl EmptySequence
  end.
Proof.
  unfold log_from_history, history_get.
  destruct (history_lookup history "val_loss") as [[|a1 l1]|]; [done| |done].
  destruct (history_lookup history "val_accuracy") as [[|a2 l2]|]; [done| |done].
  cbn [and_then py_min py_max]. rewrite py_last_cons. cbn [and_then].
  destruct (history_lookup history "loss") as [[|a3 l3]|]; [done| |done].
  destruct (history_lookup history "accuracy") as [[|a4 l4]|]; [done| |done].
  cbn. by eexists.
Qed.

(** X18. [log_from_history] returns exactly when the history holds each of
    the four metrics it reads with at least one value; a key error names a
    metric that the history lacks, and an index error is never raised. *)
Theorem log_from_history_needs_its_metrics now str_exp history exp :
  ((∃ r, log_from_history now str_exp history exp = inr r) ↔
   ∀ key, key ∈ read_metrics →
          ∃ x xs, history_lookup history key = Some (x :: xs)) ∧
  (∀ key, log_from_history now str_exp history exp = inl (KeyError key) →
          key ∈ read_metrics ∧ history_lookup history key = None) ∧
  log_from_history now str_exp history exp ≠ inl IndexError.
Proof.
  pose proof (log_from_history_reads now str_exp history exp) as H.
  assert (Hk1 : "val_loss" ∈ read_metrics) by (unfold read_metrics; repeat constructor).
  assert (Hk2 : "val_accuracy" ∈ read_metrics) by (unfold read_metrics; repeat constructor).
  assert (Hk3 : "loss" ∈ read_metrics) by (unfold read_metrics; repeat constructor).
  assert (Hk4 : "accuracy" ∈ read_metrics) by (unfold read_metrics; repeat constructor).
  destruct (history_lookup history "val_loss") as [[|a1 l1]|] eqn:E1;
    [| |].
  1,3: rewrite H; split; [split; [by intros [r Hr]|
         intros Hall; destruct (Hall _ Hk1) as (x & xs & Hx); congruence]|];
       split; [intros key [= <-]; by split|done].
  destruct (history_lookup history "val_accuracy") as [[|a2 l2]|] eqn:E2;
    [| |].
  1,3: rewrite H; split; [split; [by intros [r Hr]|
         intros Hall; destruct (Hall _ Hk2) as (x & xs & Hx); congruence]|];
       split; [intros key [= <-]; by split|done].
  destruct (history_lookup history "loss") as [[|a3 l3]|] eqn:E3;
    [| |].
  1,3: rewrite H; split; [split; [by intros [r Hr]|
         intros Hall; destruct (Hall _ Hk3) as (x & xs & Hx); congruence]|];
       split; [intros key [= <-]; by split|done].
  destruct (history_lookup history "accuracy") as [[|a4 l4]|] eqn:E4;
    [| |].
  1,3: rewrite H; split; [split; [by intros [r Hr]|
         intros Hall; destruct (Hall _ Hk4) as (x & xs & Hx); congruence]|];
       split; [intros key [= <-]; by split|done].
  destruct H as [r Hr]. rewrite Hr. split; [|by split].
  split; [|by intros; eexists]. intros _ key Hkey. unfold read_metrics in Hkey.
  repeat (apply elem_of_cons in Hkey as [->|Hkey]; [by eexists _, _|]).
  by apply elem_of_nil in Hkey.
Qed.

(** X19. When [log_from_history] returns, the experiment carries the time
    stamp, the largest validation accuracy (which is also what is printed)
    and training accuracy, the smallest validation loss and training loss,
    each of them a value of its metric, and the last validation accuracy,
    which is at most the largest. *)
Theorem log_from_history_records_the_extremes now str_exp history exp r :
  log_from_history now str_exp history exp = inr r →
  ∃ losses accs tr_losses tr_accs lowest best final tr_lowest tr_best,
    history_lookup history "val_loss" = Some losses ∧
    history_lookup history "val_accuracy" = Some accs ∧
    history_lookup history "loss" = Some tr_losses ∧
    history_lookup history "accuracy" = Some tr_accs ∧
    logged_exp r
    = mkExperiment (Some now) (Some best) (Some final) (Some lowest)
        (Some tr_best) (Some tr_lowest) (tensorboard_log exp) ∧
    printed_best_accuracy r = best ∧
    (best ∈ accs ∧ Forall (λ x, (x <= best)%Q) accs) ∧
    (last accs = Some final ∧ (final <= best)%Q) ∧
    (lowest ∈ losses ∧ Forall (λ x, (lowest <= x)%Q) losses) ∧
    (tr_best ∈ tr_accs ∧ Forall (λ x, (x <= tr_best)%Q) tr_accs) ∧
    (tr_lowest ∈ tr_losses ∧ Forall (λ x, (tr_lowest <= x)%Q) tr_losses).
Proof.
  unfold log_from_history, history_get.
  destruct (history_lookup history "val_loss") as [[|a1 l1]|]; [done| |done].
  destruct (history_lookup history "val_accuracy") as [[|a2 l2]|]; [done| |done].
  cbn [and_then py_min py_max]. rewrite py_last_cons. cbn [and_then].
  destruct (history_lookup history "loss") as [[|a3 l3]|]; [done| |done].
  destruct (history_lookup history "accuracy") as [[|a4 l4]|]; [done| |done].
  cbn [and_then py_min py_max]. intros [= <-]. cbn [logged_exp printed_best_accuracy].
  destruct (fold_min_spec a1 l1) as (Hin1 & Hm1 & Hall1).
  destruct (fold_max_spec a2 l2) as (Hin2 & Hm2 & Hall2).
  destruct (fold_min_spec a3 l3) as (Hin3 & Hm3 & Hall3).
  destruct (fold_max_spec a4 l4) as (Hin4 & Hm4 & Hall4).
  assert (Hlast : last (a2 :: l2) = Some (default a2 (last l2)))
    by (rewrite last_cons; by destruct (last l2)).
  eexists _, _, _, _, _, _, _, _, _. repeat (split; [reflexivity|]).
  split; [split; [done|by constructor]|].
  split.
  { split; [done|]. apply last_Some_elem_of in Hlast.
    assert (Hall : Forall (λ x, (x <= foldl (λ m y, if Qlt_le_dec m y then y else m) a2 l2)%Q)
                     (a2 :: l2)) by (by constructor).
    rewrite Forall_forall in Hall. by apply Hall. }
  split; [split; [done|by constructor]|].
  split; [split; [done|by constructor]|].
  split; [done|by constructor].
Qed.

Lemma scalars_of_spec logdir key values :
  length (scalars_of logdir key values) = length values ∧
  Forall (λ s, ∃ value step, s = Scalar logdir key value step ∧
                             values !! (step - 1) = Some value ∧
                             1 ≤ step ≤ length values)
    (scalars_of logdir key values).
Proof.
  unfold scalars_of. split; [by rewrite length_imap|].
  apply Forall_lookup. intros i s Hs. rewrite list_lookup_imap in Hs.
  destruct (values !! i) as [x|] eqn:Hx; [|done]. cbn in Hs. simplify_eq.
  exists x, (i + 1). split; [done|].
  replace (i + 1 - 1) with i by lia. split; [done|].
  apply lookup_lt_Some in Hx. lia.
Qed.

Lemma history_lookup_NoDup (history : History) key values :
  NoDup history.*1 → (key, values) ∈ history → history_lookup history key = Some values.
Proof.
  induction history as [|[k xs] history IH]; intros Hnd Hin.
  - by apply elem_of_nil in Hin.
  - cbn in Hnd. apply NoDup_cons in Hnd as [Hk Hnd]. cbn.
    apply elem_of_cons in Hin as [[= -> ->] | Hin].
    + by rewrite String.eqb_refl.
    + destruct (String.eqb_spec k key) as [-> | _]; [|by apply IH].
      exfalso. apply Hk. apply list_elem_of_fmap. by exists (key, values).
Qed.

Lemma scalars_of_entries logdir (history entries : History) :
  NoDup history.*1 → (∀ kv, kv ∈ entries → kv ∈ history) →
  flat_map (λ key, scalars_of logdir key (default [] (history_lookup history key)))
    entries.*1
  = flat_map (λ kv, scalars_of logdir kv.1 kv.2) entries.
Proof.
  intros Hnd. induction entries as [|[key values] entries IH]; intros Hsub; [done|].
  assert (Hkey : history_lookup history key = Some values).
  { apply history_lookup_NoDup; [done|]. apply Hsub. left. }
  cbn [flat_map fmap list_fmap fst snd]. rewrite Hkey. cbn [default from_option]. unfold id.
  f_equal. apply IH. intros kv Hkv. apply Hsub. by right.
Qed.

Lemma scalars_of_entries_length logdir (entries : History) :
  length (flat_map (λ kv, scalars_of logdir kv.1 kv.2) entries)
  = sum_list ((λ kv, length kv.2) <$> entries).
Proof.
  induction entries as [|[key values] entries IH]; [done|].
  cbn [flat_map fmap list_fmap sum_list sum_list_with fst snd]. unfold id.
  rewrite length_app, IH. f_equal. apply scalars_of_spec.
Qed.

Lemma scalars_of_entries_lookup logdir (entries : History) (i j : nat) key values value :
  entries !! i = Some (key, values) → values !! j = Some value →
  flat_map (λ kv, scalars_of logdir kv.1 kv.2) entries
    !! (sum_list ((λ kv, length kv.2) <$> take i entries) + j)
  = Some (Scalar logdir key value (j + 1)).
Proof.
  revert i. induction entries as [|[k vs] entries IH]; intros i Hi Hj; [done|].
  destruct i as [|i]; cbn [flat_map fst snd] in *.
  - cbn in Hi. injection Hi as -> ->. cbn. rewrite lookup_app_l.
    + unfold scalars_of. by rewrite list_lookup_imap, Hj.
    + rewrite (proj1 (scalars_of_spec logdir key values)). by eapply lookup_lt_Some.
  - cbn [take fmap list_fmap sum_list sum_list_with snd]. unfold id.
    rewrite lookup_app_r; rewrite (proj1 (scalars_of_spec logdir k vs)); [|lia].
    replace (length vs + sum_list ((λ kv, length kv.2) <$> take i entries) + j - length vs)
      with (sum_list ((λ kv, length kv.2) <$> take i entries) + j) by lia.
    by apply IH.
Qed.

(** X20. When [log_from_history] returns for an experiment with a
    non-empty [tensorboard_log] and a history with one entry for each key,
    it has written, metric after metric in the order of the history, one
    scalar for every value of the metric in the order of the values, with
    the steps 1, 2, ... within the metric, and after all of them one text at
    step 0 that holds the updated experiment; for an experiment without such
    a log it has written nothing. *)
Theorem log_from_history_summaries now str_exp history exp r :
  NoDup history.*1 →
  log_from_history now str_exp history exp = inr r →
  (∀ logdir, tensorboard_log exp = Some logdir → logdir ≠ "" →
     ∃ scalars,
       summaries r = scalars ++ [Text logdir "experiment" (str_exp (logged_exp r)) 0] ∧
       scalars
       = flat_map (λ kv, imap (λ idx value, Scalar logdir kv.1 value (idx + 1)) kv.2)
           history ∧
       length scalars = sum_list ((λ kv, length kv.2) <$> history) ∧
       (∀ (i j : nat) key values value,
          history !! i = Some (key, values) → values !! j = Some value →
          scalars !! (sum_list ((λ kv, length kv.2) <$> take i history) + j)
          = Some (Scalar logdir key value (j + 1)))) ∧
  (tensorboard_log exp = None ∨ tensorboard_log exp = Some "" → summaries r = []).
Proof.
  intros Hnd. unfold log_from_history, history_get.
  destruct (history_lookup history "val_loss") as [[|a1 l1]|]; [done| |done].
  destruct (history_lookup history "val_accuracy") as [[|a2 l2]|]; [done| |done].
  cbn [and_then py_min py_max]. rewrite py_last_cons. cbn [and_then].
  destruct (history_lookup history "loss") as [[|a3 l3]|]; [done| |done].
  destruct (history_lookup history "accuracy") as [[|a4 l4]|]; [done| |done].
  cbn [and_then py_min py_max]. intros [= <-]. cbn [logged_exp summaries]. split.
  - intros logdir -> Hne.
    assert (Hnonempty : nonempty logdir = true).
    { unfold nonempty. by destruct (String.eqb_spec logdir ""). }
    rewrite Hnonempty. eexists. split; [reflexivity|].
    rewrite scalars_of_entries by done.
    split; [reflexivity|]. split; [apply scalars_of_entries_length|].
    intros i j key values value Hi Hj.
    exact (scalars_of_entries_lookup logdir history i j key values value Hi Hj).
  - intros [-> | ->]; done.
Qed.

End Framework.

(** ** The helpers and the theorems at work in the small world *)

Lemma valid_m0 : valid (vars w0) (weights m0).
Proof. repeat constructor. Defined.

Lemma valid_adam : valid (vars w0) (opt_weights adam).
Proof. repeat constructor. Defined.

Lemma NoDup_m0 : NoDup (weights m0).
Proof. apply (bool_decide_unpack (NoDup (weights m0))). vm_compute. exact I. Defined.

Example dirname_nested : dirname "ckp/run1/e2.h5" = "ckp/run1".
Proof. reflexivity. Qed.

Example dirname_plain : dirname "weights.h5" = "".
Proof. reflexivity. Qed.

Example contains_inner : contains "bias" "dense/bias:0" = true.
Proof. reflexivity. Qed.

Example contains_absent : contains "conv" "dense/bias:0" = false.
Proof. reflexivity. Qed.

Example fit_two_epochs :
  saves (fit train0 cb0 2 w0).2 = [SavedOptimizer 1 "opt/e1.pkl"; SavedModel 2 "ckp/e2.h5"].
Proof. vm_compute. reflexivity. Qed.

(** One dense layer, two weights named after it: the number returned counts
    weights. *)
Example reset_skipping_dense :
  (reset_weights_to_checkpoint init0 m0 (Some "ckp/e1.h5") (Some "dense") w0).1 = Ok 2.
Proof. vm_compute. reflexivity. Qed.

Example clip_values :
  (clip_many float32 [Var 0; Const (tensor [1] [4]%Q)] 1 None false w0).1
  = Ok (Some [tensor [2] [1; -1]%Q; tensor [1] [1]%Q]).
Proof. vm_compute. reflexivity. Qed.

(** The Python float [0.1] as a [float32] and as a [float16]. *)
Example float32_tenth : float32 python_tenth = (13421773 # 134217728)%Q.
Proof. vm_compute. reflexivity. Qed.

Example float16_tenth : float16 python_tenth = (819 # 8192)%Q.
Proof. vm_compute. reflexivity. Qed.

(** An [Adam] optimizer that was never applied has no weights and takes a
    state of one tensor for that of a version-1 optimizer without variables:
    it cuts the list to nothing and accepts it. *)
Example update_optimizer_unapplied_adam :
  update_optimizer (mkOptimizer Adam []) "opt.pkl" w0 = (Ok tt, w0).
Proof. vm_compute. reflexivity. Qed.

(** The same state is rejected by an optimizer of a class that inherits
    [set_weights]. *)
Example update_optimizer_unapplied_sgd :
  stdout (update_optimizer (mkOptimizer OtherOptimizer []) "opt.pkl" w0).2
  = [WarningEmptyOptimizer; ExceptionText ValueError].
Proof. vm_compute. reflexivity. Qed.

Example is_hdf5_filepath_suffixes :
  is_hdf5_filepath "ckp/e1.h5" = true ∧ is_hdf5_filepath "ckp/e1.hdf5" = true ∧
  is_hdf5_filepath "ckp/e1.keras" = true ∧ is_hdf5_filepath "ckp/e1" = false.
Proof. vm_compute. repeat split; reflexivity. Qed.

Example ResNetStiff_cifar10 :
  ResNetStiff (λ sh n _ _,
                 match n with
                 | OneHead k =>
                     if bool_decide (sh = [32; 32; 3]%Z ∧ k = 10%Z)
                     then ret (mkModel [] None) else raise ValueError
                 | ManyHeads _ => raise ValueError
                 end)
    (Some "cifar10") None None None (Widths [16; 32; 64]%Z) 3 w0
  = (Ok (mkModel [] None), w0).
Proof. vm_compute. reflexivity. Qed.

Lemma checkpoint_saves_once_per_reached_key_witness :
  attached cb0 (vars w0) ∧
  ∃ cb' w' new,
    fit train0 cb0 2 w0 = (Ok cb', w') ∧
    saves w' = saves w0 ++ new ∧
    model_saves_for 2 new = 1 ∧ model_saves_for 5 new = 0.
Proof.
  assert (H : attached cb0 (vars w0)).
  { exists m0, adam. repeat split; [apply valid_m0|apply valid_adam]. }
  split; [exact H|].
  destruct (checkpoint_saves_once_per_reached_key train0 cb0 2 w0 H)
    as (cb' & w' & new & Hfit & Hsaves & _ & _ & Hcount).
  exists cb', w', new. repeat split; [exact Hfit|exact Hsaves|..].
  - rewrite (proj1 (Hcount 2%Z)). reflexivity.
  - rewrite (proj1 (Hcount 5%Z)). reflexivity.
Defined.

(** C1 as stated fails: keys 0 and 5 are in the mapping, yet a run of two
    epochs saves the model for neither; only key 2 is reached. *)
Lemma checkpoint_key_outside_run_is_not_saved :
  is_Some (epoch2path cb0 !! 0%Z) ∧ is_Some (epoch2path cb0 !! 5%Z) ∧
  model_saves_for 0 (saves (fit train0 cb0 2 w0).2) = 0 ∧
  model_saves_for 5 (saves (fit train0 cb0 2 w0).2) = 0 ∧
  created_model_ckp
    (match (fit train0 cb0 2 w0).1 with Ok cb' => cb' | Raise _ => cb0 end)
  = ["ckp/e2.h5"].
Proof.
  split; [by eexists|]. split; [by eexists|].
  vm_compute. repeat split; reflexivity.
Qed.

Lemma reset_restores_checkpoint_witness :
  NoDup (weights m0) ∧ "ckp/e1.h5" ≠ "" ∧
  files w0 !! "ckp/e1.h5" = Some (H5Weights [tensor [2] [5; 6]%Q; tensor [1] [9]%Q]) ∧
  compatible w0 m0 [tensor [2] [5; 6]%Q; tensor [1] [9]%Q] ∧
  (∃ w',
     reset_weights_to_checkpoint init0 m0 (Some "ckp/e1.h5") (Some "bias") w0 = (Ok 1, w') ∧
     vars w' !! 0 = Some (mkVar "dense/kernel:0" (tensor [2] [5; 6]%Q)) ∧
     vars w' !! 1 = Some (mkVar "dense/bias:0" (tensor [1] [1 # 2]%Q))) ∧
  (∃ w',
     reset_weights_to_checkpoint init0 m0 (Some "ckp/e1.h5") (Some "") w0 = (Ok 0, w') ∧
     vars w' !! 0 = Some (mkVar "dense/kernel:0" (tensor [2] [5; 6]%Q)) ∧
     vars w' !! 1 = Some (mkVar "dense/bias:0" (tensor [1] [9]%Q))).
Proof.
  assert (Hp : "ckp/e1.h5" ≠ "") by discriminate.
  assert (Hk : Some "bias" ≠ Some "") by discriminate.
  assert (Hf : files w0 !! "ckp/e1.h5"
               = Some (H5Weights [tensor [2] [5; 6]%Q; tensor [1] [9]%Q]))
    by (vm_compute; reflexivity).
  assert (Hc : compatible w0 m0 [tensor [2] [5; 6]%Q; tensor [1] [9]%Q]).
  { repeat constructor; eexists; split; reflexivity. }
  split; [apply NoDup_m0|]. split; [exact Hp|]. split; [exact Hf|]. split; [exact Hc|].
  split.
  - destruct (reset_restores_checkpoint init0 m0 "ckp/e1.h5" (Some "bias") _ w0
                NoDup_m0 Hp Hf Hc) as (skipped & w' & Hrun & Hkw & _).
    destruct (Hkw Hk) as [-> Hvals].
    exists w'. split; [exact Hrun|]. split.
    + exact (Hvals 0 0 _ _ eq_refl eq_refl eq_refl).
    + exact (Hvals 1 1 _ _ eq_refl eq_refl eq_refl).
  - destruct (reset_restores_checkpoint init0 m0 "ckp/e1.h5" (Some "") _ w0
                NoDup_m0 Hp Hf Hc) as (skipped & w' & Hrun & _ & Hempty).
    destruct (Hempty eq_refl) as [-> Hvals].
    exists w'. split; [exact Hrun|]. split.
    + exact (proj2 (Hvals 0 0 _ _ eq_refl eq_refl eq_refl)).
    + exact (proj2 (Hvals 1 1 _ _ eq_refl eq_refl eq_refl)).
Defined.

(** C2 as stated fails for the empty keyword: every name contains it, yet
    no weight is left as it was. *)
Lemma reset_with_empty_keyword_skips_nothing :
  let run := reset_weights_to_checkpoint init0 m0 (Some "ckp/e1.h5") (Some "") w0 in
  contains "" "dense/kernel:0" = true ∧
  vars w0 !! 0 = Some (mkVar "dense/kernel:0" (tensor [2] [3; -2]%Q)) ∧
  run.1 = Ok 0 ∧
  vars run.2 !! 0 = Some (mkVar "dense/kernel:0" (tensor [2] [5; 6]%Q)).
Proof. vm_compute. repeat split; reflexivity. Qed.

Lemma clone_of_clone_keeps_weights_witness :
  valid (vars w0) (weights m0) ∧
  (valid (vars w0) (weights short_model) ∧ valid (vars w0) (weights long_model) ∧
   separate short_model long_model) ∧
  (∃ m1 w1 m2 w2,
     clone_model init0 m0 w0 = (Ok m1, w1) ∧
     clone_model init0 m1 w1 = (Ok m2, w2) ∧
     weights m1 = [3; 4] ∧ weights m2 = [5; 6] ∧
     vars w2 !! 0 = vars w0 !! 0 ∧
     vars w2 !! 3 = vars w0 !! 0 ∧ vars w2 !! 5 = vars w0 !! 0 ∧
     weight_values w2 m2 = weight_values w0 m0) ∧
  (∃ new w1 w2,
     keras_clone_model init0 m0 w0 = (Ok new, w1) ∧
     set_all_weights_from_model new m0 w1 = (Ok tt, w2) ∧
     clone_model init0 m0 w0 = (Ok new, w2) ∧ separate new m0) ∧
  (∃ w',
     set_all_weights_from_model short_model long_model w0 = (Ok tt, w') ∧
     WarningSkipping "dense/bias:0" [1] [2] ∈ stdout w').
Proof.
  assert (Hs : valid (vars w0) (weights short_model)) by repeat constructor.
  assert (Hl : valid (vars w0) (weights long_model)) by repeat constructor.
  assert (Hsep : separate short_model long_model).
  { split.
    - apply (bool_decide_unpack (NoDup (weights short_model))). vm_compute. exact I.
    - cbn. intros r Hr%list_elem_of_singleton Hr'. subst r.
      assert (Hn : 1 ∉ [0; 2])
        by (apply (bool_decide_unpack (1 ∉ [0; 2])); vm_compute; exact I).
      exact (Hn Hr'). }
  split; [apply valid_m0|]. split; [exact (conj Hs (conj Hl Hsep))|]. split; [|split].
  - destruct (proj1 (clone_of_clone_keeps_weights init0) m0 w0 valid_m0)
      as (m1 & w1 & m2 & w2 & H1 & H2 & _ & _ & _ & Hold & Hcopy & _ & Hval & _).
    assert (Hm1 : weights m1 = [3; 4]).
    { assert (E : (clone_model init0 m0 w0).1 = Ok (mkModel [3; 4] None))
        by (vm_compute; reflexivity).
      rewrite H1 in E. cbn in E. injection E as ->. reflexivity. }
    assert (Hm2 : weights m2 = [5; 6]).
    { assert (E : match (clone_model init0 m0 w0) with
                  | (Ok m, w) => (clone_model init0 m w).1
                  | (Raise e, _) => Raise e
                  end = Ok (mkModel [5; 6] None))
        by (vm_compute; reflexivity).
      rewrite H1, H2 in E. cbn in E. injection E as ->. reflexivity. }
    exists m1, w1, m2, w2. split; [exact H1|]. split; [exact H2|].
    split; [exact Hm1|]. split; [exact Hm2|].
    assert (H0 : 0 < length (vars w0)) by (cbn; lia).
    split; [exact (proj2 (Hold 0 H0))|].
    destruct (Hcopy 0 0 3 5 eq_refl) as (v & Hv & _ & Hv1 & Hv2);
      [by rewrite Hm1|by rewrite Hm2|].
    split; [by rewrite Hv1, Hv|]. split; [by rewrite Hv2, Hv|exact Hval].
  - destruct (proj1 (proj2 (clone_of_clone_keeps_weights init0)) m0 w0 valid_m0)
      as (new & w1 & w2 & H1 & H2 & H3 & H4 & _).
    exists new, w1, w2. split; [exact H1|]. split; [exact H2|]. split; [exact H3|exact H4].
  - destruct (proj2 (proj2 (clone_of_clone_keeps_weights init0)) short_model long_model w0
                0 1 0 _ _ Hs Hl Hsep eq_refl eq_refl eq_refl eq_refl)
      as (w' & Hrun & _ & Hwarn).
    by exists w'.
Defined.

Lemma clip_many_bounds_and_idempotent_witness :
  (float32 (default (- python_tenth) None) <= float32 python_tenth)%Q ∧
  valid (vars w0) [0; 1; 0] ∧
  valid_arrays (vars w0) [Var 0; Const (tensor [1] [4]%Q)] ∧
  (∃ w',
     clip_many float32 (Var <$> [0; 1; 0]) python_tenth None true w0 = (Ok None, w') ∧
     vars w' !! 0
     = Some (mkVar "dense/kernel:0"
               (tensor [2] [13421773 # 134217728; -13421773 # 134217728]%Q)) ∧
     vars w' !! 2 = vars w0 !! 2 ∧
     clip_many float32 (Var <$> [0; 1; 0]) python_tenth None true w' = (Ok None, w')) ∧
  (∃ out,
     clip_many float32 [Var 0; Const (tensor [1] [4]%Q)] python_tenth None false w0
     = (Ok (Some out), w0) ∧
     Forall (within (float32 (- python_tenth)) (float32 python_tenth)) out ∧
     clip_many float32 (Const <$> out) python_tenth None false w0 = (Ok (Some out), w0)).
Proof.
  assert (Hle : (float32 (default (- python_tenth) None) <= float32 python_tenth)%Q)
    by (vm_compute; discriminate).
  assert (Hv : valid (vars w0) [0; 1; 0]) by repeat constructor.
  assert (Hva : valid_arrays (vars w0) [Var 0; Const (tensor [1] [4]%Q)]).
  { repeat constructor; eexists; reflexivity. }
  split; [exact Hle|]. split; [exact Hv|]. split; [exact Hva|].
  destruct (clip_many_bounds_and_idempotent float32 [0; 1; 0] _ python_tenth None w0
              Hle Hv Hva)
    as [(w' & H1 & Hclip & Hother & H2) (out & H3 & _ & H4 & H5)].
  split.
  - exists w'. split; [exact H1|]. split; [|split; [|exact H2]].
    + assert (E : vars (clip_many float32 (Var <$> [0; 1; 0]) python_tenth None true w0).2 !! 0
                  = Some (mkVar "dense/kernel:0"
                            (tensor [2] [13421773 # 134217728; -13421773 # 134217728]%Q)))
        by (vm_compute; reflexivity).
      rewrite H1 in E. exact E.
    + apply Hother.
      apply (bool_decide_unpack (2 ∉ [0; 1; 0])). vm_compute. exact I.
  - exists out. split; [exact H3|]. split; [exact H4|exact H5].
Defined.

(** C4 as stated fails: the entries 3 and -2 of a [float32] weight, clipped
    at the Python float [0.1], become [0.1] and [-0.1] as [float32] numbers,
    which lie outside the interval of the two Python floats. *)
Lemma clip_many_leaves_entry_above_bound :
  (- python_tenth <= python_tenth)%Q ∧
  vars w0 !! 0 = Some (mkVar "dense/kernel:0" (tensor [2] [3; -2]%Q)) ∧
  clip_many float32 [Var 0] python_tenth None false w0
  = (Ok (Some [tensor [2] [13421773 # 134217728; -13421773 # 134217728]%Q]), w0) ∧
  (python_tenth < 13421773 # 134217728)%Q ∧
  ¬ within (- python_tenth) python_tenth
      (tensor [2] [13421773 # 134217728; -13421773 # 134217728]%Q).
Proof.
  split; [vm_compute; discriminate|]. split; [reflexivity|].
  split; [vm_compute; reflexivity|]. split; [vm_compute; reflexivity|].
  intros H. apply Forall_cons in H as [[_ H] _]. vm_compute in H. by apply H.
Qed.

Lemma update_optimizer_rejected_only_warns_witness :
  valid (vars w0) (opt_weights adam) ∧
  files w0 !! "opt.pkl" = Some (Pickled [tensor [3] [0; 0; 0]%Q]) ∧
  rejects w0 adam [tensor [3] [0; 0; 0]%Q] ∧
  ∃ w',
    update_optimizer adam "opt.pkl" w0 = (Ok tt, w') ∧
    stdout w' = [WarningEmptyOptimizer; ExceptionText ValueError] ∧
    vars w' = vars w0.
Proof.
  assert (Hf : files w0 !! "opt.pkl" = Some (Pickled [tensor [3] [0; 0; 0]%Q]))
    by (vm_compute; reflexivity).
  assert (Hr : rejects w0 adam [tensor [3] [0; 0; 0]%Q]) by (right; vm_compute; discriminate).
  split; [apply valid_adam|]. split; [exact Hf|]. split; [exact Hr|].
  destruct (update_optimizer_rejected_only_warns adam "opt.pkl" _ w0 valid_adam Hf Hr)
    as (w' & H1 & H2 & H3 & _).
  by exists w'.
Defined.

Lemma ResNetStiff_asserts_configuration_witness :
  Some "imagenet" ≠ Some "cifar" ∧ Some "imagenet" ≠ Some "cifar10" ∧
  Some "imagenet" ≠ Some "cifar100" ∧ Some "imagenet" ≠ Some "mnist" ∧
  (Some [224; 224; 3]%Z = None ∨ @None Classes = None) ∧
  ResNetStiff no_graph (Some "imagenet") None (Some [224; 224; 3]%Z) None
    (Widths [16; 32; 64]%Z) 3 w0
  = (Raise AssertionError, w0).
Proof.
  assert (H1 : Some "imagenet" ≠ Some "cifar") by discriminate.
  assert (H2 : Some "imagenet" ≠ Some "cifar10") by discriminate.
  assert (H3 : Some "imagenet" ≠ Some "cifar100") by discriminate.
  assert (H4 : Some "imagenet" ≠ Some "mnist") by discriminate.
  assert (H5 : Some [224; 224; 3]%Z = None ∨ @None Classes = None) by (right; reflexivity).
  split; [exact H1|]. split; [exact H2|]. split; [exact H3|]. split; [exact H4|].
  split; [exact H5|].
  exact (ResNetStiff_asserts_configuration no_graph _ None _ _ _ 3%Z w0 H1 H2 H3 H4 H5).
Defined.

Lemma unknown_precision_or_alias_raises_witness :
  (8 ≠ 16 ∧ 8 ≠ 32 ∧ 8 ≠ 64)%Z ∧ "mse" ≠ "crossentropy" ∧
  (∃ w', set_precision 8 w0 = (Raise (NameError 8), w') ∧ policy w' = policy w0) ∧
  get_loss_fn_from_alias "mse" w0 = (Raise (NotImplementedError "mse"), w0).
Proof.
  assert (H16 : (8 ≠ 16)%Z) by discriminate.
  assert (H32 : (8 ≠ 32)%Z) by discriminate.
  assert (H64 : (8 ≠ 64)%Z) by discriminate.
  assert (Ha : "mse" ≠ "crossentropy") by discriminate.
  split; [exact (conj H16 (conj H32 H64))|]. split; [exact Ha|]. split.
  - destruct (proj1 unknown_precision_or_alias_raises 8%Z w0 H16 H32 H64)
      as (w' & H1 & H2 & _).
    by exists w'.
  - exact (proj2 unknown_precision_or_alias_raises "mse" w0 Ha).
Defined.

Lemma reset_without_checkpoint_reinitialises_witness :
  valid (vars w0) (weights m0) ∧ NoDup (weights m0) ∧
  skips (Some "bias") "dense/kernel:0" = false ∧
  ∃ skipped w',
    reset_weights_to_checkpoint init0 m0 None (Some "bias") w0 = (Ok skipped, w') ∧
    vars w' !! 0 = Some (mkVar "dense/kernel:0" (tensor [2] (init0 3 [2]))).
Proof.
  split; [apply valid_m0|]. split; [apply NoDup_m0|]. split; [reflexivity|].
  destruct (reset_without_checkpoint_reinitialises init0 m0 (Some "bias") w0
              valid_m0 NoDup_m0) as (skipped & w' & Hrun & Hvals & _).
  exists skipped, w'. split; [exact Hrun|].
  exact (proj2 (Hvals 0 0 _ eq_refl eq_refl eq_refl)).
Defined.

Lemma set_all_weights_ignores_excess_witness :
  valid (vars w0) (weights short_model) ∧ valid (vars w0) (weights long_model) ∧
  separate short_model long_model ∧
  ∃ w',
    set_all_weights_from_model short_model long_model w0 = (Ok tt, w') ∧
    vars w' !! 0 = vars w0 !! 0 ∧
    vars w' !! 2 = vars w0 !! 2.
Proof.
  assert (Hs : valid (vars w0) (weights short_model)) by repeat constructor.
  assert (Hl : valid (vars w0) (weights long_model)) by repeat constructor.
  assert (Hsep : separate short_model long_model).
  { split.
    - apply (bool_decide_unpack (NoDup (weights short_model))). vm_compute. exact I.
    - cbn. intros r Hr%list_elem_of_singleton Hr'. subst r.
      assert (Hn : 1 ∉ [0; 2])
        by (apply (bool_decide_unpack (1 ∉ [0; 2])); vm_compute; exact I).
      exact (Hn Hr'). }
  split; [exact Hs|]. split; [exact Hl|]. split; [exact Hsep|].
  destruct (set_all_weights_ignores_excess short_model long_model w0 Hs Hl)
    as (w' & printed & Hrun & _ & Hother & Hexcess & _).
  exists w'. split; [exact Hrun|]. split.
  - apply Hother.
    apply (bool_decide_unpack (0 ∉ [1])). vm_compute. exact I.
  - apply (proj2 (Hexcess Hsep) 1 2); [cbn; lia|reflexivity].
Defined.

(** C9 as stated fails for models that share a variable: the second weight
    of [two_weights] is beyond the shorter length, and it is overwritten,
    without a warning, because it is the weight of [one_weight] as well. *)
Lemma set_all_weights_overwrites_shared_excess :
  let run := set_all_weights_from_model one_weight two_weights w_shared in
  length (weights one_weight) = 1 ∧ length (weights two_weights) = 2 ∧
  weights two_weights !! 1 = Some 0 ∧
  run.1 = Ok tt ∧ stdout run.2 = [] ∧
  vars w_shared !! 0 = Some (mkVar "a/kernel:0" (tensor [2] [1; 2]%Q)) ∧
  vars run.2 !! 0 = Some (mkVar "a/kernel:0" (tensor [2] [5; 6]%Q)).
Proof. vm_compute. repeat split; reflexivity. Qed.

Lemma clip_many_results_witness :
  valid (vars w0) [0; 1] ∧
  valid_arrays (vars w0) [Var 0; Const (tensor [1] [4]%Q)] ∧
  (∃ out,
     clip_many float32 [Var 0; Const (tensor [1] [4]%Q)] 1 None false w0
     = (Ok (Some out), w0) ∧
     length out = 2) ∧
  (∃ w', clip_many float32 (Var <$> [0; 1]) 1 None true w0 = (Ok None, w')) ∧
  (∃ w', clip_many float32 ((Var <$> [0; 1]) ++ [Const (tensor [1] [4]%Q)]) 1 None true w0
         = (Raise AttributeError, w')).
Proof.
  assert (Hv : valid (vars w0) [0; 1]) by repeat constructor.
  assert (Hva : valid_arrays (vars w0) [Var 0; Const (tensor [1] [4]%Q)]).
  { repeat constructor; eexists; reflexivity. }
  split; [exact Hv|]. split; [exact Hva|].
  exact (clip_many_results float32 [0; 1] _ (tensor [1] [4]%Q) [] 1 None w0 Hv Hva).
Defined.

(** C10. [clip_many] is documented to clip a list of tf or np arrays, and
    without [inplace] it does; with [inplace] it calls [assign] on every
    element, so that on a list that holds a numpy array it raises an
    attribute error instead of returning [None], while the same list without
    [inplace] is clipped. *)
Lemma clip_many_inplace_on_array_raises :
  clip_many float32 [Const (tensor [1] [4]%Q)] 1 None true w0
  = (Raise AttributeError, w0) ∧
  clip_many float32 [Const (tensor [1] [4]%Q)] 1 None false w0
  = (Ok (Some [tensor [1] [1]%Q]), w0).
Proof. vm_compute. split; reflexivity. Qed.

(** ** The further properties at work in the small world *)

Lemma NoDup_adam : NoDup (opt_weights adam).
Proof. apply (bool_decide_unpack (NoDup (opt_weights adam))). vm_compute. exact I. Defined.

Lemma update_optimizer_loads_fitting_state_witness :
  NoDup (opt_weights adam) ∧
  files w1 !! "opt/ok.pkl" = Some (Pickled [tensor [] [9]%Q]) ∧
  fits (vars w1) (opt_weights adam) [tensor [] [9]%Q] ∧
  ∃ w',
    update_optimizer adam "opt/ok.pkl" w1 = (Ok tt, w') ∧
    values_at (vars w') (opt_weights adam) = [tensor [] [9]%Q] ∧
    vars w' !! 0 = vars w1 !! 0 ∧ stdout w' = [].
Proof.
  assert (Hf : files w1 !! "opt/ok.pkl" = Some (Pickled [tensor [] [9]%Q]))
    by (vm_compute; reflexivity).
  assert (Hfit : fits (vars w1) (opt_weights adam) [tensor [] [9]%Q]).
  { constructor; [eexists; split; reflexivity|constructor]. }
  split; [apply NoDup_adam|]. split; [exact Hf|]. split; [exact Hfit|].
  destruct (update_optimizer_loads_fitting_state adam "opt/ok.pkl" _ w1 NoDup_adam Hf Hfit)
    as (w' & Hrun & Hvals & Hother & Hout & _).
  exists w'. split; [exact Hrun|]. split; [exact Hvals|]. split; [|exact Hout].
  apply Hother.
  apply (bool_decide_unpack (0 ∉ opt_weights adam)). vm_compute. exact I.
Defined.

Lemma save_then_update_optimizer_restores_witness :
  let w2 := after_training (save_optimizer (Some adam) "opt/new.pkl" w0).2 in
  valid (vars w0) (opt_weights adam) ∧ NoDup (opt_weights adam) ∧
  files w2 !! "opt/new.pkl"
  = files (save_optimizer (Some adam) "opt/new.pkl" w0).2 !! "opt/new.pkl" ∧
  valid (vars w2) (opt_weights adam) ∧
  values_at (vars w2) (opt_weights adam) = [tensor [] [8]%Q] ∧
  ∃ w3,
    update_optimizer adam "opt/new.pkl" w2 = (Ok tt, w3) ∧
    values_at (vars w3) (opt_weights adam) = [tensor [] [7]%Q].
Proof.
  intros w2.
  assert (Hfile : files w2 !! "opt/new.pkl"
                  = files (save_optimizer (Some adam) "opt/new.pkl" w0).2 !! "opt/new.pkl")
    by reflexivity.
  assert (Hv2 : valid (vars w2) (opt_weights adam)) by repeat constructor.
  assert (Hsh : shape <$> values_at (vars w2) (opt_weights adam)
                = shape <$> values_at (vars w0) (opt_weights adam)) by reflexivity.
  split; [apply valid_adam|]. split; [apply NoDup_adam|]. split; [exact Hfile|].
  split; [exact Hv2|]. split; [vm_compute; reflexivity|].
  destruct (save_then_update_optimizer_restores adam "opt/new.pkl" w0 w2
              valid_adam NoDup_adam Hfile Hv2 Hsh) as (w1' & w3 & _ & Hrun & Hvals & _).
  exists w3. split; [exact Hrun|exact Hvals].
Defined.

Lemma save_then_reset_restores_witness :
  let w2 := after_training (save_model (Some m0) "ckp/new.h5" w0).2 in
  valid (vars w0) (weights m0) ∧ NoDup (weights m0) ∧ "ckp/new.h5" ≠ "" ∧
  files w2 !! "ckp/new.h5"
  = files (save_model (Some m0) "ckp/new.h5" w0).2 !! "ckp/new.h5" ∧
  valid (vars w2) (weights m0) ∧
  vars w2 !! 0 = Some (mkVar "dense/kernel:0" (tensor [2] [4; -1]%Q)) ∧
  ∃ w3,
    reset_weights_to_checkpoint init0 m0 (Some "ckp/new.h5") (Some "bias") w2 = (Ok 1, w3) ∧
    vars w3 !! 0 = Some (mkVar "dense/kernel:0" (tensor [2] [3; -2]%Q)) ∧
    vars w3 !! 1 = vars w2 !! 1.
Proof.
  intros w2.
  assert (Hp : "ckp/new.h5" ≠ "") by discriminate.
  assert (Hfile : files w2 !! "ckp/new.h5"
                  = files (save_model (Some m0) "ckp/new.h5" w0).2 !! "ckp/new.h5")
    by reflexivity.
  assert (Hv2 : valid (vars w2) (weights m0)) by repeat constructor.
  assert (Hsh : shape <$> values_at (vars w2) (weights m0)
                = shape <$> values_at (vars w0) (weights m0)) by reflexivity.
  split; [apply valid_m0|]. split; [apply NoDup_m0|]. split; [exact Hp|].
  split; [exact Hfile|]. split; [exact Hv2|]. split; [vm_compute; reflexivity|].
  destruct (save_then_reset_restores init0 m0 "ckp/new.h5" (Some "bias") w0 w2
              valid_m0 NoDup_m0 Hp Hfile Hv2 Hsh) as (w1' & skipped & w3 & _ & Hrun & Hvals).
  exists w3. split; [|split].
  - rewrite Hrun. f_equal. f_equal.
    assert (Hn : (reset_weights_to_checkpoint init0 m0 (Some "ckp/new.h5") (Some "bias") w2).1
                 = Ok 1) by (vm_compute; reflexivity).
    rewrite Hrun in Hn. cbn in Hn. congruence.
  - exact (Hvals 0 0 _ _ eq_refl eq_refl eq_refl).
  - exact (Hvals 1 1 _ _ eq_refl eq_refl eq_refl).
Defined.

Lemma reset_touches_only_the_weights_witness :
  valid (vars w0) (weights m0) ∧
  "ckp/none.h5" ≠ "" ∧ files w0 !! "ckp/none.h5" = None ∧
  "ckp/none" ≠ "" ∧ files w0 !! "ckp/none" = None ∧
  (∃ w',
     reset_weights_to_checkpoint init0 m0 (Some "ckp/none.h5") None w0
     = (Raise FileNotFoundError, w') ∧
     files w' = files w0 ∧ stdout w' = stdout w0 ∧
     vars w' !! 0 = vars w0 !! 0 ∧ vars w' !! 2 = vars w0 !! 2) ∧
  (∃ w',
     reset_weights_to_checkpoint init0 m0 (Some "ckp/none") None w0
     = (Raise NotFoundError, w')).
Proof.
  assert (Hp : "ckp/none.h5" ≠ "") by discriminate.
  assert (Hf : files w0 !! "ckp/none.h5" = None) by reflexivity.
  assert (Hp' : "ckp/none" ≠ "") by discriminate.
  assert (Hf' : files w0 !! "ckp/none" = None) by reflexivity.
  split; [apply valid_m0|]. split; [exact Hp|]. split; [exact Hf|].
  split; [exact Hp'|]. split; [exact Hf'|]. split.
  - destruct (reset_touches_only_the_weights init0 m0 (Some "ckp/none.h5") None w0 valid_m0)
      as [Hall Hraise].
    destruct (Hraise _ eq_refl Hp Hf) as (w' & Hrun).
    destruct (Hall _ _ Hrun) as (Hfiles & Hother & Hexn).
    destruct (Hexn _ eq_refl) as (Hout & Hvars).
    exists w'. split; [exact Hrun|]. split; [exact Hfiles|]. split; [exact Hout|].
    split; apply Hvars; cbn; lia.
  - exact (proj2 (reset_touches_only_the_weights init0 m0 (Some "ckp/none") None w0 valid_m0)
             _ eq_refl Hp' Hf').
Defined.

Lemma checkpoint_holds_weights_of_its_epoch_witness :
  model cb0 = Some m0 ∧ optimizer m0 = Some adam ∧
  valid (vars w0) (weights m0) ∧ valid (vars w0) (opt_weights adam) ∧
  1 ≤ 2 ≤ 3 ∧
  epoch2path cb0 !! Z.of_nat 2 = Some "ckp/e2.h5" ∧
  (∀ k' : nat, 1 ≤ k' ≤ 3 → k' ≠ 2 → epoch2path cb0 !! Z.of_nat k' ≠ Some "ckp/e2.h5") ∧
  (∀ k' : nat, 1 ≤ k' ≤ 3 → epoch2path_optim cb0 !! Z.of_nat k' ≠ Some "ckp/e2.h5") ∧
  ∃ cb' w',
    fit train1 cb0 3 w0 = (Ok cb', w') ∧
    vars w' !! 0 = Some (mkVar "dense/kernel:0" (tensor [2] [9; 4]%Q)) ∧
    files w' !! "ckp/e2.h5" = Some (H5Weights [tensor [2] [6; 1]%Q; tensor [1] [7 # 2]%Q]).
Proof.
  assert (Hk : 1 ≤ 2 ≤ 3) by lia.
  assert (Hp : epoch2path cb0 !! Z.of_nat 2 = Some "ckp/e2.h5") by reflexivity.
  assert (Hu : ∀ k' : nat, 1 ≤ k' ≤ 3 → k' ≠ 2 →
                 epoch2path cb0 !! Z.of_nat k' ≠ Some "ckp/e2.h5").
  { intros k' Hk' Hne. assert (Hc : k' = 1 ∨ k' = 3) by lia.
    destruct Hc as [-> | ->]; vm_compute; discriminate. }
  assert (Huo : ∀ k' : nat, 1 ≤ k' ≤ 3 →
                  epoch2path_optim cb0 !! Z.of_nat k' ≠ Some "ckp/e2.h5").
  { intros k' Hk'. assert (Hc : k' = 1 ∨ k' = 2 ∨ k' = 3) by lia.
    destruct Hc as [-> | [-> | ->]]; vm_compute; discriminate. }
  split; [reflexivity|]. split; [reflexivity|]. split; [apply valid_m0|].
  split; [apply valid_adam|]. split; [exact Hk|]. split; [exact Hp|].
  split; [exact Hu|]. split; [exact Huo|].
  destruct (checkpoint_holds_weights_of_its_epoch train1 cb0 3 2 "ckp/e2.h5" w0 m0 adam
              eq_refl eq_refl valid_m0 valid_adam Hk Hp Hu Huo)
    as (cb' & w' & Hfit & Hvars & Hfile).
  exists cb', w'. split; [exact Hfit|]. split.
  - rewrite Hvars. vm_compute. reflexivity.
  - rewrite Hfile. vm_compute. reflexivity.
Defined.

Lemma rewinding_restores_the_epoch_witness :
  (∀ e v, signature (train1 e v) = signature v) ∧
  model cb0 = Some m0 ∧ optimizer m0 = Some adam ∧
  valid (vars w0) (weights m0) ∧ valid (vars w0) (opt_weights adam) ∧
  NoDup (weights m0) ∧ "ckp/e2.h5" ≠ "" ∧ 1 ≤ 2 ≤ 3 ∧
  epoch2path cb0 !! Z.of_nat 2 = Some "ckp/e2.h5" ∧
  (∀ k' : nat, 1 ≤ k' ≤ 3 → k' ≠ 2 → epoch2path cb0 !! Z.of_nat k' ≠ Some "ckp/e2.h5") ∧
  (∀ k' : nat, 1 ≤ k' ≤ 3 → epoch2path_optim cb0 !! Z.of_nat k' ≠ Some "ckp/e2.h5") ∧
  ∃ cb' w' w'',
    fit train1 cb0 3 w0 = (Ok cb', w') ∧
    values_at (vars w') (weights m0) = [tensor [2] [9; 4]%Q; tensor [1] [13 # 2]%Q] ∧
    reset_weights_to_checkpoint init0 m0 (Some "ckp/e2.h5") None w' = (Ok 0, w'') ∧
    values_at (vars w'') (weights m0) = [tensor [2] [6; 1]%Q; tensor [1] [7 # 2]%Q].
Proof.
  assert (Hsig : ∀ e v, signature (train1 e v) = signature v) by reflexivity.
  assert (Hne : "ckp/e2.h5" ≠ "") by discriminate.
  assert (Hk : 1 ≤ 2 ≤ 3) by lia.
  assert (Hp : epoch2path cb0 !! Z.of_nat 2 = Some "ckp/e2.h5") by reflexivity.
  assert (Hu : ∀ k' : nat, 1 ≤ k' ≤ 3 → k' ≠ 2 →
                 epoch2path cb0 !! Z.of_nat k' ≠ Some "ckp/e2.h5").
  { intros k' Hk' Hne'. assert (Hc : k' = 1 ∨ k' = 3) by lia.
    destruct Hc as [-> | ->]; vm_compute; discriminate. }
  assert (Huo : ∀ k' : nat, 1 ≤ k' ≤ 3 →
                  epoch2path_optim cb0 !! Z.of_nat k' ≠ Some "ckp/e2.h5").
  { intros k' Hk'. assert (Hc : k' = 1 ∨ k' = 2 ∨ k' = 3) by lia.
    destruct Hc as [-> | [-> | ->]]; vm_compute; discriminate. }
  split; [exact Hsig|]. split; [reflexivity|]. split; [reflexivity|].
  split; [apply valid_m0|]. split; [apply valid_adam|]. split; [apply NoDup_m0|].
  split; [exact Hne|]. split; [exact Hk|]. split; [exact Hp|].
  split; [exact Hu|]. split; [exact Huo|].
  destruct (rewinding_restores_the_epoch init0 train1 cb0 3 2 "ckp/e2.h5" w0 m0 adam
              Hsig eq_refl eq_refl valid_m0 valid_adam NoDup_m0 Hne Hk Hp Hu Huo)
    as (cb' & w' & w'' & Hfit & Hreset & Hvals).
  exists cb', w', w''. split; [exact Hfit|]. split; [|split; [exact Hreset|]].
  - assert (Hw : (fit train1 cb0 3 w0).2 = w') by (by rewrite Hfit).
    rewrite <- Hw. vm_compute. reflexivity.
  - rewrite Hvals. vm_compute. reflexivity.
Defined.

Lemma list_created_checkpoints_after_fit_witness :
  optimizer m0 = Some adam ∧
  valid (vars w0) (weights m0) ∧ valid (vars w0) (opt_weights adam) ∧
  ∃ cb' w',
    fit train1 cb0 2 w0 = (Ok cb', w') ∧
    list_created_checkpoints cb'
    = ["CREATED MODEL CHECKPOINTS:"; "ckp/e2.h5";
       "CREATED OPTIM CHECKPOINTS:"; "opt/e1.pkl"].
Proof.
  split; [reflexivity|]. split; [apply valid_m0|]. split; [apply valid_adam|].
  destruct (list_created_checkpoints_after_fit train1
              {[ 0%Z := "ckp/e0.h5"; 2%Z := "ckp/e2.h5"; 5%Z := "ckp/e5.h5" ]}
              {[ 1%Z := "opt/e1.pkl" ]} m0 adam 2 w0 eq_refl valid_m0 valid_adam)
    as (cb' & w' & Hfit & Hlist).
  exists cb', w'. split; [exact Hfit|].
  rewrite Hlist. vm_compute. reflexivity.
Defined.


Lemma clone_model_is_a_separate_copy_witness :
  valid (vars w0) (weights m0) ∧
  ∃ m1 w1',
    clone_model init0 m0 w0 = (Ok m1, w1') ∧
    optimizer m1 = None ∧ NoDup (weights m1) ∧
    length (weights m1) = 2 ∧
    (∀ r : ref, r ∈ weights m1 → 3 ≤ r) ∧
    vars w1' !! 0 = vars w0 !! 0.
Proof.
  split; [apply valid_m0|].
  destruct (clone_model_is_a_separate_copy init0 m0 w0 valid_m0)
    as (m1 & w1' & Hrun & Hopt & Hnd & Hnew & Hlen & _ & Hold & _).
  exists m1, w1'. split; [exact Hrun|]. split; [exact Hopt|]. split; [exact Hnd|].
  split; [exact Hlen|]. split; [exact Hnew|].
  apply Hold. cbn. lia.
Defined.

Lemma clip_many_negative_bound_flattens_witness :
  (float32 (- python_tenth) < float32 (- - python_tenth))%Q ∧
  valid (vars w0) [0; 1] ∧
  valid_arrays (vars w0) [Var 0; Const (tensor [1] [4]%Q)] ∧
  clip_many float32 [Var 0; Const (tensor [1] [4]%Q)] (- python_tenth) None false w0
  = (Ok (Some [tensor [2] [13421773 # 134217728; 13421773 # 134217728]%Q;
               tensor [1] [13421773 # 134217728]%Q]), w0) ∧
  (∃ w', clip_many float32 (Var <$> [0; 1]) (- python_tenth) None true w0 = (Ok None, w') ∧
         vars w' !! 1 = Some (mkVar "dense/bias:0" (tensor [1] [13421773 # 134217728]%Q))).
Proof.
  assert (Hlt : (float32 (- python_tenth) < float32 (- - python_tenth))%Q)
    by (vm_compute; reflexivity).
  assert (Hv : valid (vars w0) [0; 1]) by repeat constructor.
  assert (Hva : valid_arrays (vars w0) [Var 0; Const (tensor [1] [4]%Q)]).
  { repeat constructor; eexists; reflexivity. }
  split; [exact Hlt|]. split; [exact Hv|]. split; [exact Hva|].
  destruct (clip_many_negative_bound_flattens float32 [0; 1] _ (- python_tenth)%Q w0
              Hlt Hv Hva)
    as (_ & (out & Hrun & _ & Hall) & (w' & Hrun' & _)).
  split.
  - rewrite Hrun. vm_compute in Hrun. injection Hrun as <-. reflexivity.
  - exists w'. split; [exact Hrun'|].
    assert (E : vars (clip_many float32 (Var <$> [0; 1]) (- python_tenth) None true w0).2 !! 1
                = Some (mkVar "dense/bias:0" (tensor [1] [13421773 # 134217728]%Q)))
      by (vm_compute; reflexivity).
    rewrite Hrun' in E. exact E.
Defined.

Lemma clip_many_keeps_bounded_tensors_witness :
  valid (vars w0) [0; 1] ∧
  valid_arrays (vars w0) [Var 1; Const (tensor [1] [4]%Q)] ∧
  (Forall (within (float32 (default (- 5)%Q None)) (float32 5%Q))
     (values_at (vars w0) [0; 1]) ∧
   Forall (within (float32 (default (- 5)%Q None)) (float32 5%Q))
     (tensors_of (vars w0) [Var 1; Const (tensor [1] [4]%Q)]) ∧
   clip_many float32 (Var <$> [0; 1]) 5 None true w0 = (Ok None, w0) ∧
   clip_many float32 [Var 1; Const (tensor [1] [4]%Q)] 5 None false w0
   = (Ok (Some [tensor [1] [1 # 2]%Q; tensor [1] [4]%Q]), w0)) ∧
  ((∀ x y, (x <= y)%Q → (float64 x <= float64 y)%Q) ∧
   Forall (representable float64) (values_at (vars w0) [0; 1]) ∧
   Forall (representable float64) (tensors_of (vars w0) [Var 1; Const (tensor [1] [4]%Q)]) ∧
   Forall (within (default (- 5)%Q None) 5%Q) (values_at (vars w0) [0; 1]) ∧
   Forall (within (default (- 5)%Q None) 5%Q)
     (tensors_of (vars w0) [Var 1; Const (tensor [1] [4]%Q)]) ∧
   clip_many float64 (Var <$> [0; 1]) 5 None true w0 = (Ok None, w0) ∧
   clip_many float64 [Var 1; Const (tensor [1] [4]%Q)] 5 None false w0
   = (Ok (Some [tensor [1] [1 # 2]%Q; tensor [1] [4]%Q]), w0)).
Proof.
  assert (Hv : valid (vars w0) [0; 1]) by repeat constructor.
  assert (Hva : valid_arrays (vars w0) [Var 1; Const (tensor [1] [4]%Q)]).
  { repeat constructor; eexists; reflexivity. }
  assert (Hc : Forall (within (float32 (default (- 5)%Q None)) (float32 5%Q))
                 (values_at (vars w0) [0; 1])).
  { repeat constructor; vm_compute; discriminate. }
  assert (Hc' : Forall (within (float32 (default (- 5)%Q None)) (float32 5%Q))
                  (tensors_of (vars w0) [Var 1; Const (tensor [1] [4]%Q)])).
  { repeat constructor; vm_compute; discriminate. }
  assert (Hmono : ∀ x y, (x <= y)%Q → (float64 x <= float64 y)%Q) by (intros x y H; exact H).
  assert (Hrep : Forall (representable float64) (values_at (vars w0) [0; 1])).
  { repeat constructor. }
  assert (Hrep' : Forall (representable float64)
                    (tensors_of (vars w0) [Var 1; Const (tensor [1] [4]%Q)])).
  { repeat constructor. }
  assert (Hin : Forall (within (default (- 5)%Q None) 5%Q) (values_at (vars w0) [0; 1])).
  { repeat constructor; vm_compute; discriminate. }
  assert (Hin' : Forall (within (default (- 5)%Q None) 5%Q)
                   (tensors_of (vars w0) [Var 1; Const (tensor [1] [4]%Q)])).
  { repeat constructor; vm_compute; discriminate. }
  split; [exact Hv|]. split; [exact Hva|]. split.
  - split; [exact Hc|]. split; [exact Hc'|].
    exact (proj1 (clip_many_keeps_bounded_tensors float32 [0; 1] _ 5 None w0 Hv Hva) Hc Hc').
  - split; [exact Hmono|]. split; [exact Hrep|]. split; [exact Hrep'|].
    split; [exact Hin|]. split; [exact Hin'|].
    exact (proj2 (clip_many_keeps_bounded_tensors float64 [0; 1] _ 5 None w0 Hv Hva)
             Hmono Hrep Hrep' Hin Hin').
Defined.

Lemma clip_many_inplace_failure_is_partial_witness :
  valid (vars w0) [0] ∧
  ∃ w',
    clip_many float32 ((Var <$> [0]) ++ Const (tensor [1] [4]%Q) :: [Var 1]) 1 None true w0
    = (Raise AttributeError, w') ∧
    vars w' !! 0 = Some (mkVar "dense/kernel:0" (tensor [2] [1; -1]%Q)) ∧
    vars w' !! 1 = vars w0 !! 1.
Proof.
  assert (Hv : valid (vars w0) [0]) by repeat constructor.
  split; [exact Hv|].
  destruct (clip_many_inplace_failure_is_partial float32 [0] (tensor [1] [4]%Q) [Var 1]
              1 None w0 Hv)
    as (w' & Hrun & Hclipped & Hother & _).
  exists w'. split; [exact Hrun|]. split.
  - rewrite (Hclipped 0 _ (list_elem_of_here _ _) eq_refl). vm_compute. reflexivity.
  - apply Hother.
    apply (bool_decide_unpack (1 ∉ [0])). vm_compute. exact I.
Defined.

Lemma ResNetStiff_names_override_arguments_witness :
  Some "mnist" ∈ [Some "cifar"; Some "cifar10"; Some "cifar100"; Some "mnist"] ∧
  ResNetStiff no_graph (Some "mnist") None None None (Widths [16; 32; 64]%Z) 3 w0
  = ResNetStiff no_graph (Some "mnist") None (Some [32; 32; 3]%Z) (Some (OneHead 100%Z))
      (Widths [16; 32; 64]%Z) 3 w0 ∧
  ResNetStiff no_graph (Some "mnist") (Some "WRN-16-8") None None (Widths [16; 32; 64]%Z) 3 w0
  = ResNetStiff no_graph (Some "mnist") (Some "WRN-16-8") None None (Widths [1]%Z) 7 w0.
Proof.
  assert (Hin : Some "mnist" ∈ [Some "cifar"; Some "cifar10"; Some "cifar100"; Some "mnist"])
    by repeat constructor.
  split; [exact Hin|]. split.
  - exact (proj1 (ResNetStiff_names_override_arguments no_graph (Some "mnist") None
                    None None (Some [32; 32; 3]%Z) (Some (OneHead 100%Z))
                    (Widths [16; 32; 64]%Z) 3%Z (Widths [16; 32; 64]%Z) 3%Z w0) Hin).
  - exact (proj2 (ResNetStiff_names_override_arguments no_graph (Some "mnist")
                    (Some "WRN-16-8") None None None None
                    (Widths [16; 32; 64]%Z) 3%Z (Widths [1]%Z) 7%Z w0) eq_refl).
Defined.

Lemma concatenate_flattened_joins_entries_witness :
  valid_arrays (vars w0) [Var 0] ∧
  valid_arrays (vars w0) [Const (tensor [1; 1] [4]%Q); Var 1] ∧
  [Var 0] ≠ [] ∧ [Const (tensor [1; 1] [4]%Q); Var 1] ≠ [] ∧
  ∃ t,
    concatenate_flattened ([Var 0] ++ [Const (tensor [1; 1] [4]%Q); Var 1]) w0 = (Ok t, w0) ∧
    t = tensor [4] [3; -2; 4; 1 # 2]%Q.
Proof.
  assert (H1 : valid_arrays (vars w0) [Var 0]).
  { repeat constructor; eexists; reflexivity. }
  assert (H2 : valid_arrays (vars w0) [Const (tensor [1; 1] [4]%Q); Var 1]).
  { repeat constructor; eexists; reflexivity. }
  assert (H3 : [Var 0] ≠ []) by discriminate.
  assert (H4 : [Const (tensor [1; 1] [4]%Q); Var 1] ≠ []) by discriminate.
  split; [exact H1|]. split; [exact H2|]. split; [exact H3|]. split; [exact H4|].
  destruct (concatenate_flattened_joins_entries _ _ w0 H1 H2 H3 H4)
    as (_ & t1 & t2 & t & _ & _ & Hrun & _).
  exists t. split; [exact Hrun|].
  assert (Ht : (concatenate_flattened
                  ([Var 0] ++ [Const (tensor [1; 1] [4]%Q); Var 1]) w0).1
               = Ok (tensor [4] [3; -2; 4; 1 # 2]%Q)) by (vm_compute; reflexivity).
  rewrite Hrun in Ht. cbn in Ht. congruence.
Defined.


Lemma clipping_the_kernels_spares_the_rest_witness :
  (float32 (default (- 1) None) <= float32 1)%Q ∧
  valid (vars w0) (get_kernels dense_dropout) ∧
  ∃ w',
    clip_many float32 (Var <$> get_kernels dense_dropout) 1 None true w0 = (Ok None, w') ∧
    (∃ v', vars w' !! 0 = Some v' ∧ name v' = "dense/kernel:0" ∧
           clipped (- 1)%Q 1%Q (tensor [2] [3; -2]%Q) (value v') ∧
           within (- 1)%Q 1%Q (value v')) ∧
    vars w' !! 1 = vars w0 !! 1.
Proof.
  assert (Hle : (float32 (default (- 1) None) <= float32 1)%Q) by (vm_compute; discriminate).
  assert (Hv : valid (vars w0) (get_kernels dense_dropout)) by repeat constructor.
  split; [exact Hle|]. split; [exact Hv|].
  destruct (clipping_the_kernels_spares_the_rest float32 dense_dropout 1 None w0 Hle Hv)
    as (w' & Hrun & Hkernel & Hrest).
  exists w'. split; [exact Hrun|]. split.
  - destruct (Hkernel _ 0 (list_elem_of_here _ _) eq_refl)
      as (v & v' & Hv0 & Hv' & Hname & Hclipped & Hwithin).
    injection Hv0 as <-. exists v'. split; [exact Hv'|]. split; [exact Hname|].
    split; [exact Hclipped|exact Hwithin].
  - apply Hrest. intros layer Hin.
    apply elem_of_cons in Hin as [-> | Hin]; [discriminate|].
    apply elem_of_cons in Hin as [-> | Hin]; [discriminate|].
    by apply elem_of_nil in Hin.
Defined.

Lemma print_model_info_needs_trainable_elements_witness :
  layered_valid (vars w0) dense_dropout ∧
  layered_valid (vars w0) (mkLayered (layers dense_dropout) []) ∧
  print_model_info (vars w0) dense_dropout
  = Some (Printed [ModelInfo; LayerCounts [("Dense", 1); ("Dropout", 1)];
                   TrainableWeights 3; Shares 2 1 0 3]) ∧
  print_model_info (vars w0) (mkLayered (layers dense_dropout) [])
  = Some (PrintedThenZeroDivisionError
            [ModelInfo; LayerCounts [("Dense", 1); ("Dropout", 1)]; TrainableWeights 0]).
Proof.
  assert (H1 : layered_valid (vars w0) dense_dropout).
  { split; [repeat constructor|]. split; [repeat constructor|].
    repeat constructor. }
  assert (H2 : layered_valid (vars w0) (mkLayered (layers dense_dropout) [])).
  { split; [repeat constructor|]. split; [repeat constructor|].
    repeat constructor. }
  split; [exact H1|]. split; [exact H2|]. split.
  - destruct (print_model_info_needs_trainable_elements (vars w0) dense_dropout H1)
      as (res & tw & Hres & _).
    rewrite Hres. vm_compute in Hres. symmetry. exact Hres.
  - destruct (print_model_info_needs_trainable_elements (vars w0)
                (mkLayered (layers dense_dropout) []) H2)
      as (res & tw & Hres & _ & Hnil & Hzero & _).
    rewrite Hres, (Hzero (Hnil eq_refl)). reflexivity.
Defined.

Lemma log_from_history_needs_its_metrics_witness :
  (∃ r, log_from_history "2020-01-01" show_exp history0 exp0 = inr r) ∧
  (∃ x xs, history_lookup history0 "val_accuracy" = Some (x :: xs)) ∧
  log_from_history "2020-01-01" show_exp [("loss", [1]%Q)] exp0 = inl (KeyError "val_loss").
Proof.
  assert (Hr : ∃ r, log_from_history "2020-01-01" show_exp history0 exp0 = inr r)
    by (eexists; reflexivity).
  split; [exact Hr|]. split.
  - apply (proj1 (proj1 (log_from_history_needs_its_metrics
                           "2020-01-01" show_exp history0 exp0)) Hr).
    unfold read_metrics. repeat constructor.
  - reflexivity.
Defined.

Lemma log_from_history_records_the_extremes_witness :
  ∃ r,
    log_from_history "2020-01-01" show_exp history0 exp0 = inr r ∧
    ∃ best final,
      ACC (logged_exp r) = Some best ∧ FINAL_ACCU (logged_exp r) = Some final ∧
      TIME (logged_exp r) = Some "2020-01-01" ∧
      printed_best_accuracy r = best ∧
      best ∈ [1 # 2; 7 # 10; 3 # 5]%Q ∧ (final <= best)%Q.
Proof.
  eexists. split; [reflexivity|].
  destruct (log_from_history_records_the_extremes "2020-01-01" show_exp history0 exp0
              _ eq_refl)
    as (losses & accs & tr_losses & tr_accs & lowest & best & final & tr_lowest & tr_best
        & _ & Haccs & _ & _ & Hexp & Hprinted & [Hbest _] & [_ Hfinal] & _).
  injection Haccs as <-.
  exists best, final. rewrite Hexp.
  split; [reflexivity|]. split; [reflexivity|]. split; [reflexivity|].
  split; [exact Hprinted|]. split; [exact Hbest|exact Hfinal].
Defined.

Lemma log_from_history_summaries_witness :
  NoDup history0.*1 ∧
  ∃ r,
    log_from_history "2020-01-01" show_exp history0 exp1 = inr r ∧
    tensorboard_log exp1 = Some "logs/run1" ∧ "logs/run1" ≠ "" ∧
    ∃ scalars,
      summaries r = scalars ++ [Text "logs/run1" "experiment" "2020-01-01" 0] ∧
      length scalars = 12 ∧
      scalars !! 0 = Some (Scalar "logs/run1" "loss" 3 1) ∧
      scalars !! 4 = Some (Scalar "logs/run1" "accuracy" (3 # 4) 2).
Proof.
  assert (Hnd : NoDup history0.*1).
  { apply (bool_decide_unpack (NoDup history0.*1)). vm_compute. exact I. }
  assert (Hne : "logs/run1" ≠ "") by discriminate.
  split; [exact Hnd|].
  eexists. split; [reflexivity|]. split; [reflexivity|]. split; [exact Hne|].
  destruct (proj1 (log_from_history_summaries "2020-01-01" show_exp history0 exp1
                     _ Hnd eq_refl) "logs/run1" eq_refl Hne)
    as (scalars & Hsum & _ & Hlen & Hat).
  exists scalars. split; [exact Hsum|]. split; [exact Hlen|]. split.
  - exact (Hat 0 0 "loss" _ _ eq_refl eq_refl).
  - exact (Hat 1 1 "accuracy" _ _ eq_refl eq_refl).
Defined.
